(** * kimi-cli: session registry, session catalog and meta-command table

    A shallow embedding of [src/kimi_cli/metadata.py] and of the command
    registry of [src/kimi_cli/ui/shell/metacmd.py], with the properties the
    specification states about them.

    Conventions of the embedding.
    - A Python [str] is a [string] that holds the text in UTF-8, one
      [ascii] for one byte: a character below U+0080 is one byte, the others
      are two to four (a lone surrogate, which a [str] can hold, is the
      three bytes the same scheme gives it). [Str.len] and [Str.prefix]
      count characters. A [string] that is not the UTF-8 form of a text
      stands for no [str].
    - A text file is its text, in the same form; what [open] does with
      bytes that are not UTF-8 is not modelled, nor are I/O failures
      (permissions, full disks, names too long), nor the recursion limit of
      the interpreter.
    - A path is the list of its components. A name that holds a separator
      is not one component: [Pathlib.joinpath], and [load_session] with
      such a session id, do not cover it.
    - Binary floating point is not modelled: a JSON number that is not an
      integer literal is kept as its lexeme, and the two places where its
      value would matter are parameters of the model ([Host]).
    - Calls of the logger change nothing the model observes and are left
      out.
    - A function that may raise returns a [result]; a function with effects
      on the file system takes and returns the file system. *)

From Stdlib Require Import String Ascii List ZArith NArith Bool Arith Lia.
From Stdlib Require Import Permutation Sorted.
From Stdlib.Strings Require Import Byte.
Import ListNotations.
Open Scope string_scope.

(** ** Python string operations *)

Module Str.

(** The value of a byte. *)
Definition ord (c : ascii) : N := N_of_ascii c.

(** The UTF-8 form of the character of code point [n]. *)
Definition utf8 (n : N) : string :=
  let b k := ascii_of_N k in
  (if n <? 128 then String (b n) EmptyString
   else if n <? 2048 then
     String (b (192 + n / 64)) (String (b (128 + n mod 64)) EmptyString)
   else if n <? 65536 then
     String (b (224 + n / 4096))
       (String (b (128 + (n / 64) mod 64)) (String (b (128 + n mod 64)) EmptyString))
   else
     String (b (240 + n / 262144))
       (String (b (128 + (n / 4096) mod 64))
          (String (b (128 + (n / 64) mod 64))
             (String (b (128 + n mod 64)) EmptyString))))%N.

(** A byte that continues a character. *)
Definition is_continuation (c : ascii) : bool :=
  let n := ord c in ((128 <=? n) && (n <? 192))%N.

(** [len(s)]: one for each byte that starts a character. *)
Fixpoint len (s : string) : nat :=
  match s with
  | EmptyString => 0
  | String c s' => if is_continuation c then len s' else S (len s')
  end.

(** [s[:n]]: the first [n] characters. *)
Fixpoint prefix (n : nat) (s : string) : string :=
  match s with
  | EmptyString => EmptyString
  | String c s' =>
      if is_continuation c then String c (prefix n s')
      else
        match n with
        | O => EmptyString
        | S n' => String c (prefix n' s')
        end
  end.

(** The code points on which [str.isspace] holds. *)
Definition whitespace : list N :=
  [ 9; 10; 11; 12; 13; 28; 29; 30; 31; 32; 133; 160; 5760;
    8192; 8193; 8194; 8195; 8196; 8197; 8198; 8199; 8200; 8201; 8202;
    8232; 8233; 8239; 8287; 12288 ]%N.

(** The same characters by their bytes: of one byte, of two, of three. *)
Definition space1 (a : N) : bool :=
  (((9 <=? a) && (a <=? 13)) || ((28 <=? a) && (a <=? 32)))%N.

Definition space2 (a b : N) : bool :=
  ((a =? 194) && ((b =? 133) || (b =? 160)))%N.

Definition space3 (a b c : N) : bool :=
  (((a =? 225) && (b =? 154) && (c =? 128))
   || ((a =? 226) && (b =? 128)
       && (((128 <=? c) && (c <=? 138)) || (c =? 168) || (c =? 169) || (c =? 175)))
   || ((a =? 226) && (b =? 129) && (c =? 159))
   || ((a =? 227) && (b =? 128) && (c =? 128)))%N.

(** [s.lstrip()] *)
Fixpoint lstrip (s : string) : string :=
  match s with
  | EmptyString => EmptyString
  | String a s1 =>
      if space1 (ord a) then lstrip s1
      else
        match s1 with
        | EmptyString => s
        | String b s2 =>
            if space2 (ord a) (ord b) then lstrip s2
            else
              match s2 with
              | EmptyString => s
              | String c s3 =>
                  if space3 (ord a) (ord b) (ord c) then lstrip s3 else s
              end
        end
  end.

(** [s.rstrip()]: [s] up to where only whitespace follows. *)
Fixpoint rstrip (s : string) : string :=
  match s with
  | EmptyString => EmptyString
  | String c s' =>
      if String.eqb (lstrip s) EmptyString then EmptyString else String c (rstrip s')
  end.

(** [s.strip()] *)
Definition strip (s : string) : string := rstrip (lstrip s).

(** The first [n] bytes of [s]. *)
Fixpoint take (n : nat) (s : string) : string :=
  match n, s with
  | S n', String c s' => String c (take n' s')
  | _, _ => EmptyString
  end.

(** [s.startswith(p)] *)
Fixpoint startswith (p s : string) : bool :=
  match p, s with
  | EmptyString, _ => true
  | String a p', String b s' => Ascii.eqb a b && startswith p' s'
  | String _ _, EmptyString => false
  end.

(** [s.endswith(p)] *)
Fixpoint endswith (p s : string) : bool :=
  String.eqb s p
  || match s with
     | EmptyString => false
     | String _ s' => endswith p s'
     end.

(** [c in s] for a [c] of one byte *)
Fixpoint contains (c : ascii) (s : string) : bool :=
  match s with
  | EmptyString => false
  | String a s' => Ascii.eqb a c || contains c s'
  end.

(** [s.rfind(c)] for a [c] of one byte, as a number of bytes; [None] for
    -1 *)
Fixpoint rfind (c : ascii) (s : string) : option nat :=
  match s with
  | EmptyString => None
  | String a s' =>
      match rfind c s' with
      | Some i => Some (S i)
      | None => if Ascii.eqb a c then Some 0 else None
      end
  end.

(** [sep.join(l)] *)
Fixpoint join (sep : string) (l : list string) : string :=
  match l with
  | [] => EmptyString
  | [x] => x
  | x :: l' => x ++ sep ++ join sep l'
  end.

(** [c * n] for a [c] of one byte *)
Fixpoint repeat (c : ascii) (n : nat) : string :=
  match n with
  | O => EmptyString
  | S n' => String c (repeat c n')
  end.

Definition dquote : ascii := ascii_of_N 34.
Definition squote : ascii := ascii_of_N 39.
Definition backslash : ascii := ascii_of_N 92.
Definition newline : ascii := ascii_of_N 10.
Definition cr : ascii := ascii_of_N 13.

(** Writes a text that holds double quotes with single quotes in their
    place: [q "{'a': 1}"] is the text [{"a": 1}]. *)
Fixpoint q (s : string) : string :=
  match s with
  | EmptyString => EmptyString
  | String c s' => String (if Ascii.eqb c squote then dquote else c) (q s')
  end.

End Str.

(** ** The codec [utf-8] *)

Module Utf8.

Definition between (lo hi n : N) : bool := ((lo <=? n) && (n <=? hi))%N.

(** The bytes that [bytes.decode("utf-8")] accepts, which are those a text
    file can hold: no byte out of place, no form longer than needed, no
    surrogate, nothing above U+10FFFF. *)
Fixpoint valid (s : string) : bool :=
  match s with
  | EmptyString => true
  | String a s1 =>
      let a := Str.ord a in
      if (a <? 128)%N then valid s1
      else
        match s1 with
        | EmptyString => false
        | String b s2 =>
            let b := Str.ord b in
            if between 194 223 a then between 128 191 b && valid s2
            else
              match s2 with
              | EmptyString => false
              | String c s3 =>
                  let c := Str.ord c in
                  if between 224 239 a then
                    (if (a =? 224)%N then between 160 191 b
                     else if (a =? 237)%N then between 128 159 b
                     else between 128 191 b)
                    && between 128 191 c && valid s3
                  else
                    match s3 with
                    | EmptyString => false
                    | String d s4 =>
                        between 240 244 a
                        && (if (a =? 240)%N then between 144 191 b
                            else if (a =? 244)%N then between 128 143 b
                            else between 128 191 b)
                        && between 128 191 c
                        && between 128 191 (Str.ord d)
                        && valid s4
                    end
              end
        end
  end.

End Utf8.

(** ** Python values as decoded from JSON *)

(** [JFloat] keeps the lexeme of a number that is not an integer literal:
    binary floating point is not modelled. *)
#[warnings="-register-all"]
Inductive json : Type :=
| JNull
| JBool (b : bool)
| JInt (z : Z)
| JFloat (lexeme : string)
| JStr (s : string)
| JArr (items : list json)
| JObj (fields : list (string * json)).

(** A [dict] with [str] keys, in insertion order. *)
Module Dict.
Section Ops.
Context {V : Type}.

Fixpoint get (k : string) (d : list (string * V)) : option V :=
  match d with
  | [] => None
  | (k', v) :: d' => if String.eqb k k' then Some v else get k d'
  end.

(** [d[k] = v]: a present key keeps its position, a new key goes last. *)
Fixpoint set (k : string) (v : V) (d : list (string * V)) : list (string * V) :=
  match d with
  | [] => [(k, v)]
  | (k', v') :: d' =>
      if String.eqb k k' then (k', v) :: d' else (k', v') :: set k v d'
  end.

Definition keys (d : list (string * V)) : list string := map fst d.
Definition values (d : list (string * V)) : list V := map snd d.
Definition mem (k : string) (d : list (string * V)) : bool :=
  match get k d with Some _ => true | None => false end.
End Ops.
End Dict.

(** ** Exceptions *)

Inductive exn : Type :=
| JSONDecodeError
| ValueError
| TypeError
| ValidationError
| AttributeError
| AssertionError
| IsADirectoryError.

Inductive result (A : Type) : Type :=
| Ok (a : A)
| Raise (e : exn).

Arguments Ok {A} a.
Arguments Raise {A} e.

(** ** [json.loads]: the scanner *)

Module Json.

(** [TLong] is an integer literal of more digits than [int] converts
    (4300); [TBad] stands where the text stops being JSON. *)
Inductive token : Type :=
| TLBrace | TRBrace | TLBrack | TRBrack | TColon | TComma
| TStr (s : string)
| TInt (z : Z)
| TLong
| TFloat (lexeme : string)
| TTrue | TFalse | TNull
| TBad.

(** Where the scanner stands inside a number: an optional minus sign, an
    integer part (a lone zero, or digits that start with a non-zero one),
    an optional fraction (a dot and digits) and an optional exponent (e or
    E, an optional sign, digits). *)
Inductive numphase : Type :=
| NMinus | NZero | NInt | NDot | NFrac | NE | NESign | NExp.

(** In [LUni], [high] is the high surrogate that the escape being read may
    complete; in [LNum], [back] is the number read before a dot or an
    exponent mark that nothing has followed yet. *)
Inductive lstate : Type :=
| LStart
| LStr (acc : string)
| LEsc (acc : string)
| LUni (acc : string) (high : option N) (k : nat) (v : N)
| LHigh (acc : string) (high : N)
| LHighEsc (acc : string) (high : N)
| LNum (ph : numphase) (lexeme : string) (back : option token)
| LLit (rest : string) (t : token).

(** One step of the scanner: the next state and the tokens completed, or
    the tokens completed before the text stops being JSON. *)
Inductive step : Type :=
| Next (st : lstate) (ts : list token)
| Stop (ts : list token).

Definition snoc (s : string) (c : ascii) : string := s ++ String c EmptyString.

Definition is_digit (c : ascii) : bool :=
  let n := Str.ord c in ((48 <=? n) && (n <=? 57))%N.

Definition hexval (c : ascii) : option N :=
  let n := Str.ord c in
  if ((48 <=? n) && (n <=? 57))%N then Some (n - 48)%N
  else if ((97 <=? n) && (n <=? 102))%N then Some (n - 87)%N
  else if ((65 <=? n) && (n <=? 70))%N then Some (n - 55)%N
  else None.

Fixpoint digits_value (acc : Z) (s : string) : Z :=
  match s with
  | EmptyString => acc
  | String c s' => digits_value (10 * acc + Z.of_N (Str.ord c - 48)) s'
  end.

(** [int(lexeme)] for a lexeme of the shape [-?[0-9]+] *)
Definition int_of_lexeme (s : string) : Z :=
  match s with
  | String "-" s' => - digits_value 0 s'
  | _ => digits_value 0 s
  end.

(** The digits of a lexeme of that shape. *)
Definition digit_count (s : string) : nat :=
  match s with
  | String "-" s' => String.length s'
  | _ => String.length s
  end.

(** [sys.get_int_max_str_digits()] *)
Definition int_max_str_digits : nat := 4300.

Definition int_token (lexeme : string) : token :=
  if (int_max_str_digits <? digit_count lexeme)%nat then TLong
  else TInt (int_of_lexeme lexeme).

Definition num_token (ph : numphase) (lexeme : string) : option token :=
  match ph with
  | NZero | NInt => Some (int_token lexeme)
  | NFrac | NExp => Some (TFloat lexeme)
  | NMinus | NDot | NE | NESign => None
  end.

Definition opt_token (t : option token) : list token :=
  match t with
  | Some t => [t]
  | None => []
  end.

(** The number a scan that stops inside [LNum ph lexeme back] has read. *)
Definition number_read (ph : numphase) (lexeme : string) (back : option token)
  : list token :=
  match num_token ph lexeme with
  | Some t => [t]
  | None => opt_token back
  end.

(** The scanner at the start of a token. *)
Definition start_char (c : ascii) : step :=
  match c with
  | " " | "009" | "010" | "013" => Next LStart []
  | "{" => Next LStart [TLBrace]
  | "}" => Next LStart [TRBrace]
  | "[" => Next LStart [TLBrack]
  | "]" => Next LStart [TRBrack]
  | ":" => Next LStart [TColon]
  | "," => Next LStart [TComma]
  | "034" => Next (LStr EmptyString) []
  | "-" => Next (LNum NMinus "-" None) []
  | "0" => Next (LNum NZero "0" None) []
  | "n" => Next (LLit "ull" TNull) []
  | "t" => Next (LLit "rue" TTrue) []
  | "f" => Next (LLit "alse" TFalse) []
  | "N" => Next (LLit "aN" (TFloat "NaN")) []
  | "I" => Next (LLit "nfinity" (TFloat "Infinity")) []
  | _ => if is_digit c then Next (LNum NInt (String c EmptyString) None) [] else Stop []
  end%char.

(** A number ends where its pattern stops matching; the character that
    stopped it starts the next token. *)
Definition end_number (t : token) (c : ascii) : step :=
  match start_char c with
  | Next st ts => Next st (t :: ts)
  | Stop ts => Stop (t :: ts)
  end.

Definition num_step (ph : numphase) (lexeme : string) (back : option token) (c : ascii)
  : step :=
  let continue ph' back' := Next (LNum ph' (snoc lexeme c) back') [] in
  let is_e := (Ascii.eqb c "e" || Ascii.eqb c "E")%char in
  let is_dot := Ascii.eqb c "."%char in
  match ph with
  | NMinus =>
      if Ascii.eqb c "0"%char then continue NZero None
      else if is_digit c then continue NInt None
      else if Ascii.eqb c "I"%char then Next (LLit "nfinity" (TFloat "-Infinity")) []
      else Stop []
  | NZero =>
      if is_dot then continue NDot (Some (int_token lexeme))
      else if is_e then continue NE (Some (int_token lexeme))
      else end_number (int_token lexeme) c
  | NInt =>
      if is_digit c then continue NInt None
      else if is_dot then continue NDot (Some (int_token lexeme))
      else if is_e then continue NE (Some (int_token lexeme))
      else end_number (int_token lexeme) c
  | NDot => if is_digit c then continue NFrac None else Stop (opt_token back)
  | NFrac =>
      if is_digit c then continue NFrac None
      else if is_e then continue NE (Some (TFloat lexeme))
      else end_number (TFloat lexeme) c
  | NE =>
      if is_digit c then continue NExp None
      else if (Ascii.eqb c "+" || Ascii.eqb c "-")%char then continue NESign back
      else Stop (opt_token back)
  | NESign => if is_digit c then continue NExp None else Stop (opt_token back)
  | NExp => if is_digit c then continue NExp None else end_number (TFloat lexeme) c
  end.

(** The character an escape [\c] denotes. *)
Definition escape_target (c : ascii) : option ascii :=
  match c with
  | "034" => Some "034"
  | "\" => Some "\"
  | "/" => Some "/"
  | "b" => Some "008"
  | "f" => Some "012"
  | "n" => Some "010"
  | "r" => Some "013"
  | "t" => Some "009"
  | _ => None
  end%char.

Definition is_high_surrogate (v : N) : bool := ((55296 <=? v) && (v <=? 56319))%N.

Definition is_low_surrogate (v : N) : bool := ((56320 <=? v) && (v <=? 57343))%N.

Definition join_surrogates (high low : N) : N :=
  (65536 + (high - 55296) * 1024 + (low - 56320))%N.

(** Inside a string literal, after [acc]. *)
Definition str_char (acc : string) (c : ascii) : step :=
  if Ascii.eqb c Str.dquote then Next LStart [TStr acc]
  else if Ascii.eqb c Str.backslash then Next (LEsc acc) []
  else if (Str.ord c <? 32)%N then Stop []
  else Next (LStr (snoc acc c)) [].

(** After a backslash. *)
Definition esc_char (acc : string) (high : option N) (c : ascii) : step :=
  if Ascii.eqb c "u"%char then Next (LUni acc high 4 0%N) []
  else
    let acc' :=
      match high with
      | Some h => acc ++ Str.utf8 h
      | None => acc
      end in
    match escape_target c with
    | Some d => Next (LStr (snoc acc' d)) []
    | None => Stop []
    end.

(** The escape [\uXXXX] read in full, of value [v]: a high surrogate waits
    for a low one in the escape that follows, and joins it. *)
Definition uni_done (acc : string) (high : option N) (v : N) : step :=
  match high with
  | Some h =>
      if is_low_surrogate v then Next (LStr (acc ++ Str.utf8 (join_surrogates h v))) []
      else if is_high_surrogate v then Next (LHigh (acc ++ Str.utf8 h) v) []
      else Next (LStr (acc ++ Str.utf8 h ++ Str.utf8 v)) []
  | None =>
      if is_high_surrogate v then Next (LHigh acc v) []
      else Next (LStr (acc ++ Str.utf8 v)) []
  end.

Definition lex_step (st : lstate) (c : ascii) : step :=
  match st with
  | LStart => start_char c
  | LStr acc => str_char acc c
  | LEsc acc => esc_char acc None c
  | LUni acc high k v =>
      match hexval c, k with
      | Some h, S O => uni_done acc high (16 * v + h)%N
      | Some h, S k' => Next (LUni acc high k' (16 * v + h)%N) []
      | _, _ => Stop []
      end
  | LHigh acc high =>
      if Ascii.eqb c Str.backslash then Next (LHighEsc acc high) []
      else str_char (acc ++ Str.utf8 high) c
  | LHighEsc acc high => esc_char acc (Some high) c
  | LNum ph lexeme back => num_step ph lexeme back c
  | LLit rest t =>
      match rest with
      | String e EmptyString => if Ascii.eqb c e then Next LStart [t] else Stop []
      | String e rest' => if Ascii.eqb c e then Next (LLit rest' t) [] else Stop []
      | EmptyString => Stop []
      end
  end.

(** The scan from state [st], with the tokens read so far in [acc], last
    one first. *)
Fixpoint lex_from (st : lstate) (acc : list token) (s : string) : list token :=
  match s with
  | EmptyString =>
      match st with
      | LStart => rev acc
      | LNum ph lexeme back =>
          match num_token ph lexeme with
          | Some t => rev (t :: acc)
          | None => rev (TBad :: rev_append (opt_token back) acc)
          end
      | _ => rev (TBad :: acc)
      end
  | String c s' =>
      match lex_step st c with
      | Next st' ts => lex_from st' (rev_append ts acc) s'
      | Stop ts => rev (TBad :: rev_append ts acc)
      end
  end.

Definition lex (s : string) : list token := lex_from LStart [] s.

(** *** [json.loads]: the parser

    [fuel] bounds the depth of the calls; [loads] gives enough of it for
    every token list. A literal is converted when the parser takes it as a
    value, so that of two faults of a text the first one is raised. *)

Fixpoint parse_value (fuel : nat) (ts : list token) : result (json * list token) :=
  match fuel with
  | O => Raise JSONDecodeError
  | S fuel' =>
      match ts with
      | TNull :: r => Ok (JNull, r)
      | TTrue :: r => Ok (JBool true, r)
      | TFalse :: r => Ok (JBool false, r)
      | TInt z :: r => Ok (JInt z, r)
      | TLong :: r => Raise ValueError
      | TFloat l :: r => Ok (JFloat l, r)
      | TStr s :: r => Ok (JStr s, r)
      | TLBrack :: TRBrack :: r => Ok (JArr [], r)
      | TLBrack :: r => parse_items fuel' [] r
      | TLBrace :: TRBrace :: r => Ok (JObj [], r)
      | TLBrace :: r => parse_members fuel' [] r
      | _ => Raise JSONDecodeError
      end
  end

with parse_items (fuel : nat) (acc : list json) (ts : list token)
  : result (json * list token) :=
  match fuel with
  | O => Raise JSONDecodeError
  | S fuel' =>
      match parse_value fuel' ts with
      | Ok (v, TComma :: r) => parse_items fuel' (acc ++ [v]) r
      | Ok (v, TRBrack :: r) => Ok (JArr (acc ++ [v]), r)
      | Ok _ => Raise JSONDecodeError
      | Raise e => Raise e
      end
  end

with parse_members (fuel : nat) (acc : list (string * json)) (ts : list token)
  : result (json * list token) :=
  match fuel with
  | O => Raise JSONDecodeError
  | S fuel' =>
      match ts with
      | TStr k :: TColon :: r =>
          match parse_value fuel' r with
          | Ok (v, TComma :: r') => parse_members fuel' (Dict.set k v acc) r'
          | Ok (v, TRBrace :: r') => Ok (JObj (Dict.set k v acc), r')
          | Ok _ => Raise JSONDecodeError
          | Raise e => Raise e
          end
      | _ => Raise JSONDecodeError
      end
  end.

(** [json.loads(s)]: [JSONDecodeError] for a text that is not JSON,
    [ValueError] for an integer literal that [int] refuses. *)
Definition loads (s : string) : result json :=
  let ts := lex s in
  match parse_value (2 * List.length ts + 2) ts with
  | Ok (v, []) => Ok v
  | Ok (_, _ :: _) => Raise JSONDecodeError
  | Raise e => Raise e
  end.

(** *** [json.dumps(v, indent=2, ensure_ascii=False)] *)

Definition hexdigit (n : N) : ascii :=
  if (n <? 10)%N then ascii_of_N (48 + n) else ascii_of_N (87 + n).

(** The replacement of one byte inside a string literal: with
    [ensure_ascii=False] only characters of one byte are replaced. *)
Definition escape_char (c : ascii) : string :=
  let n := Str.ord c in
  if (n =? 34)%N then String Str.backslash (String Str.dquote EmptyString)
  else if (n =? 92)%N then String Str.backslash (String Str.backslash EmptyString)
  else if (n =? 10)%N then String Str.backslash "n"
  else if (n =? 13)%N then String Str.backslash "r"
  else if (n =? 9)%N then String Str.backslash "t"
  else if (n =? 12)%N then String Str.backslash "f"
  else if (n =? 8)%N then String Str.backslash "b"
  else if (n <? 32)%N then
    String Str.backslash
      (String "u" (String "0" (String "0"
        (String (hexdigit (n / 16)) (String (hexdigit (n mod 16)) EmptyString)))))
  else String c EmptyString.

Fixpoint escape (s : string) : string :=
  match s with
  | EmptyString => EmptyString
  | String c s' => escape_char c ++ escape s'
  end.

Definition dump_string (s : string) : string :=
  String Str.dquote (escape s ++ String Str.dquote EmptyString).

Fixpoint pos_digits (fuel : nat) (n : N) (acc : string) : string :=
  match fuel with
  | O => acc
  | S fuel' =>
      let acc' := String (ascii_of_N (48 + n mod 10)) acc in
      if (n <? 10)%N then acc' else pos_digits fuel' (n / 10) acc'
  end.

(** [str(z)] for an [int] *)
Definition dump_int (z : Z) : string :=
  let n := Z.abs_N z in
  let d := pos_digits (S (N.to_nat (N.log2 n))) n EmptyString in
  if (z <? 0)%Z then String "-" d else d.

(** A line break and the indentation of nesting level [level]. *)
Definition newline_indent (level : nat) : string :=
  String Str.newline (Str.repeat " " (2 * level)).

Fixpoint dump (level : nat) (v : json) : string :=
  match v with
  | JNull => "null"
  | JBool true => "true"
  | JBool false => "false"
  | JInt z => dump_int z
  | JFloat l => l
  | JStr s => dump_string s
  | JArr [] => "[]"
  | JArr items =>
      "[" ++ newline_indent (S level)
      ++ Str.join ("," ++ newline_indent (S level)) (map (dump (S level)) items)
      ++ newline_indent level ++ "]"
  | JObj [] => "{}"
  | JObj fields =>
      "{" ++ newline_indent (S level)
      ++ Str.join ("," ++ newline_indent (S level))
           (map (fun kv => dump_string (fst kv) ++ ": " ++ dump (S level) (snd kv)) fields)
      ++ newline_indent level ++ "}"
  end.

Definition dumps (v : json) : string := dump 0 v.

End Json.

(** ** [hashlib.md5] and [str.encode]

    MD5 as in RFC 1321, on [bytes]; words are 32-bit integers carried in [Z]
    and reduced after each addition and rotation. *)

Definition bytes : Type := list byte.

Module Md5.
Local Open Scope list_scope.
Local Open Scope Z_scope.

Definition byte_of_Z (z : Z) : byte :=
  match Byte.of_N (Z.to_N (z mod 256)) with
  | Some b => b
  | None => x00
  end.

Definition Z_of_byte (b : byte) : Z := Z.of_N (Byte.to_N b).

Definition mask32 (x : Z) : Z := Z.land x 4294967295.

Definition rotl (x c : Z) : Z :=
  mask32 (Z.lor (Z.shiftl x c) (Z.shiftr x (32 - c))).

Definition lnot32 (x : Z) : Z := Z.lxor x 4294967295.

Definition K : list Z :=
  [ 3614090360; 3905402710; 606105819; 3250441966; 4118548399; 1200080426;
    2821735955; 4249261313; 1770035416; 2336552879; 4294925233; 2304563134;
    1804603682; 4254626195; 2792965006; 1236535329; 4129170786; 3225465664;
    643717713; 3921069994; 3593408605; 38016083; 3634488961; 3889429448;
    568446438; 3275163606; 4107603335; 1163531501; 2850285829; 4243563512;
    1735328473; 2368359562; 4294588738; 2272392833; 1839030562; 4259657740;
    2763975236; 1272893353; 4139469664; 3200236656; 681279174; 3936430074;
    3572445317; 76029189; 3654602809; 3873151461; 530742520; 3299628645;
    4096336452; 1126891415; 2878612391; 4237533241; 1700485571; 2399980690;
    4293915773; 2240044497; 1873313359; 4264355552; 2734768916; 1309151649;
    4149444226; 3174756917; 718787259; 3951481745 ].

Definition shifts : list Z :=
  [ 7; 12; 17; 22; 7; 12; 17; 22; 7; 12; 17; 22; 7; 12; 17; 22;
    5; 9; 14; 20; 5; 9; 14; 20; 5; 9; 14; 20; 5; 9; 14; 20;
    4; 11; 16; 23; 4; 11; 16; 23; 4; 11; 16; 23; 4; 11; 16; 23;
    6; 10; 15; 21; 6; 10; 15; 21; 6; 10; 15; 21; 6; 10; 15; 21 ].

(** [n] as [k] bytes, least significant first. *)
Fixpoint le_bytes (k : nat) (n : Z) : bytes :=
  match k with
  | O => []
  | S k' => byte_of_Z n :: le_bytes k' (Z.shiftr n 8)
  end.

Fixpoint le_word (bs : bytes) : Z :=
  match bs with
  | [] => 0
  | b :: bs' => Z_of_byte b + 256 * le_word bs'
  end.

Definition pad (msg : bytes) : bytes :=
  let n := List.length msg in
  msg ++ [x80] ++ List.repeat x00 ((119 - n mod 64) mod 64)%nat
      ++ le_bytes 8 (8 * Z.of_nat n).

(** The sixteen words of a 64-byte block. *)
Fixpoint words (k : nat) (block : bytes) : list Z :=
  match k with
  | O => []
  | S k' => le_word (firstn 4 block) :: words k' (skipn 4 block)
  end.

Definition state : Type := Z * Z * Z * Z.

Definition round (M : list Z) (st : state) (i : nat) : state :=
  let '(a, b, c, d) := st in
  let '(f, g) :=
    if (i <? 16)%nat then (Z.lor (Z.land b c) (Z.land (lnot32 b) d), i)
    else if (i <? 32)%nat then
      (Z.lor (Z.land d b) (Z.land (lnot32 d) c), ((5 * i + 1) mod 16)%nat)
    else if (i <? 48)%nat then (Z.lxor b (Z.lxor c d), ((3 * i + 5) mod 16)%nat)
    else (Z.lxor c (Z.lor b (lnot32 d)), ((7 * i) mod 16)%nat) in
  let f' := mask32 (f + a + nth i K 0 + nth g M 0) in
  (d, mask32 (b + rotl f' (nth i shifts 0)), b, c).

Definition compress (st : state) (block : bytes) : state :=
  let '(a0, b0, c0, d0) := st in
  let '(a, b, c, d) := fold_left (round (words 16 block)) (seq 0 64) st in
  (mask32 (a0 + a), mask32 (b0 + b), mask32 (c0 + c), mask32 (d0 + d)).

Fixpoint blocks (n : nat) (msg : bytes) : list bytes :=
  match n with
  | O => []
  | S n' => firstn 64 msg :: blocks n' (skipn 64 msg)
  end.

(** [md5(msg).digest()] *)
Definition digest (msg : bytes) : bytes :=
  let p := pad msg in
  let '(a, b, c, d) :=
    fold_left compress (blocks (List.length p / 64) p)
      (1732584193, 4023233417, 2562383102, 271733878) in
  le_bytes 4 a ++ le_bytes 4 b ++ le_bytes 4 c ++ le_bytes 4 d.

Definition hexdigit (n : N) : ascii :=
  if (n <? 10)%N then ascii_of_N (48 + n) else ascii_of_N (87 + n).

Definition hex_of_byte (b : byte) : string :=
  let n := Byte.to_N b in
  String (hexdigit (n / 16)) (String (hexdigit (n mod 16)) EmptyString).

(** [bytes.hex()] *)
Fixpoint hex (bs : bytes) : string :=
  match bs with
  | [] => EmptyString
  | b :: bs' => (hex_of_byte b ++ hex bs')%string
  end.

(** [md5(msg).hexdigest()] *)
Definition hexdigest (msg : bytes) : string := hex (digest msg).

End Md5.

(** [s.encode()]: the bytes of the UTF-8 form, which is what the [string]
    holds. *)
Fixpoint encode (s : string) : bytes :=
  match s with
  | EmptyString => []
  | String c s' => byte_of_ascii c :: encode s'
  end.

(** ** [pathlib.Path] and the file system *)

(** An absolute path, as its components below the root. *)
Definition Path : Type := list string.

Module Pathlib.

(** [p / name], for a [name] that is one component: it holds no
    separator *)
Definition joinpath (p : Path) (name : string) : Path := (p ++ [name])%list.

Definition name (p : Path) : string := last p EmptyString.

Definition parent (p : Path) : Path := removelast p.

(** [p.stem]: the name up to its last dot, unless that dot is the first or
    the last character of the name. *)
Definition stem (p : Path) : string :=
  let n := name p in
  match Str.rfind "." n with
  | Some i => if ((0 <? i) && (i <? String.length n - 1))%nat then Str.take i n else n
  | None => n
  end.

(** [str(p)] *)
Definition str (p : Path) : string :=
  match p with
  | [] => "/"
  | _ => String.concat EmptyString (map (fun c => "/" ++ c) p)
  end.

Definition eqb (p q : Path) : bool :=
  if list_eq_dec string_dec p q then true else false.

End Pathlib.

(** A regular file: its text and the [datetime] of its last modification,
    in microseconds. *)
Record File : Type := { content : string; mtime : Z }.

(** The files in directory order, the directories, and the clock: the
    time at which the run at hand takes place. Time does not pass in the
    model: every write of a run is stamped with that one time, and nothing
    is stated that compares the times of two writes. *)
Record FS : Type := {
  files : list (Path * File);
  dirs : list Path;
  clock : Z
}.

Module Fs.

Fixpoint lookup (p : Path) (l : list (Path * File)) : option File :=
  match l with
  | [] => None
  | (p', f) :: l' => if Pathlib.eqb p p' then Some f else lookup p l'
  end.

Fixpoint store (p : Path) (f : File) (l : list (Path * File)) : list (Path * File) :=
  match l with
  | [] => [(p, f)]
  | (p', f') :: l' =>
      if Pathlib.eqb p p' then (p', f) :: l' else (p', f') :: store p f l'
  end.

Definition read (fs : FS) (p : Path) : option File := lookup p (files fs).

Definition is_dir (fs : FS) (p : Path) : bool :=
  existsb (Pathlib.eqb p) (dirs fs).

(** [p.exists()] *)
Definition exists_ (fs : FS) (p : Path) : bool :=
  match read fs p with
  | Some _ => true
  | None => is_dir fs p
  end.

(** [open(p, "w")]: the file is created, or cut to length zero. *)
Definition open_w (p : Path) (fs : FS) : FS :=
  {| files := store p {| content := EmptyString; mtime := clock fs |} (files fs);
     dirs := dirs fs;
     clock := clock fs |}.

(** [f.write(data)] on a file opened for writing: [data] goes at its end. *)
Definition write (p : Path) (data : string) (fs : FS) : FS :=
  match read fs p with
  | Some f =>
      {| files := store p {| content := content f ++ data; mtime := clock fs |} (files fs);
         dirs := dirs fs;
         clock := clock fs |}
  | None => fs
  end.

(** [os.replace(src, dst)] *)
Definition replace (src dst : Path) (fs : FS) : FS :=
  match read fs src with
  | Some f =>
      {| files := store dst f (filter (fun e => negb (Pathlib.eqb src (fst e))) (files fs));
         dirs := dirs fs;
         clock := clock fs |}
  | None => fs
  end.

Definition add_dir (p : Path) (ds : list Path) : list Path :=
  if existsb (Pathlib.eqb p) ds then ds else (ds ++ [p])%list.

(** [p.mkdir(parents=True, exist_ok=True)] *)
Definition mkdir_p (p : Path) (fs : FS) : FS :=
  {| files := files fs;
     dirs := fold_left (fun ds k => add_dir (firstn k p) ds) (seq 1 (List.length p)) (dirs fs);
     clock := clock fs |}.

(** [dir.glob("*.jsonl")]: the files of [dir] whose name ends in [.jsonl],
    in directory order. Only regular files are covered: the glob would
    yield a directory with such a name too. *)
Definition glob_jsonl (fs : FS) (dir : Path) : list (Path * File) :=
  filter (fun e => Pathlib.eqb (Pathlib.parent (fst e)) dir
                   && negb (Pathlib.eqb (fst e) [])
                   && Str.endswith ".jsonl" (Pathlib.name (fst e)))
         (files fs).

(** The primitive operations a function performs on the file system, so
    that an interrupted run is a prefix of them. *)
Inductive op : Type :=
| OpenW (p : Path)
| Write (p : Path) (data : string)
| Replace (src dst : Path)
| Mkdir (p : Path).

Definition apply (fs : FS) (o : op) : FS :=
  match o with
  | OpenW p => open_w p fs
  | Write p data => write p data fs
  | Replace src dst => replace src dst fs
  | Mkdir p => mkdir_p p fs
  end.

Definition run (ops : list op) (fs : FS) : FS := fold_left apply ops fs.

(** Text read with universal newlines: a carriage return, with the line
    feed that follows it if any, reads as one line feed. *)
Fixpoint universal_newlines (s : string) : string :=
  match s with
  | EmptyString => EmptyString
  | String c s' =>
      if Ascii.eqb c Str.cr then
        String Str.newline
          match s' with
          | String c2 s'' =>
              if Ascii.eqb c2 Str.newline then universal_newlines s''
              else universal_newlines s'
          | EmptyString => EmptyString
          end
      else String c (universal_newlines s')
  end.

(** [f.read()] on a file opened for reading as text *)
Definition read_text (f : File) : string := universal_newlines (content f).

Fixpoint split_lines (cur : string) (s : string) : list string :=
  match s with
  | EmptyString => if String.eqb cur EmptyString then [] else [cur]
  | String c s' =>
      if Ascii.eqb c Str.newline then (cur ++ String c EmptyString) :: split_lines EmptyString s'
      else split_lines (cur ++ String c EmptyString) s'
  end.

(** [for line in f]: the lines, each with its line feed. *)
Definition lines (f : File) : list string := split_lines EmptyString (read_text f).

End Fs.

(** ** [kimi_cli/metadata.py] *)

(** What the module takes from outside the repository's sources at hand:
    [get_share_dir()], and the two places where Python's floats and [repr]
    enter ([bool(x)] for a float [x], [str(v)] for a float, list or dict). *)
Record Host : Type := {
  share_dir : Path;
  float_truthy : string -> bool;
  value_repr : json -> string
}.

Record WorkDirMeta : Type := {
  path : string;
  last_session_id : option string
}.

Record Metadata : Type := {
  work_dirs : list WorkDirMeta
}.

Record Session : Type := {
  id : string;
  work_dir : Path;
  history_file : Path
}.

(** The [info] dict of a session; [is_current] is absent until
    [list_sessions] sets it. *)
Record SessionInfo : Type := {
  timestamp : Z;
  num_messages : nat;
  num_checkpoints : nat;
  first_message : option string;
  is_current : option bool
}.

(** *** pydantic: [model_dump] and model construction *)

Definition WorkDirMeta_dump (wd : WorkDirMeta) : json :=
  JObj [ ("path", JStr (path wd));
         ("last_session_id",
          match last_session_id wd with
          | Some s => JStr s
          | None => JNull
          end) ].

(** [metadata.model_dump()] *)
Definition model_dump (metadata : Metadata) : json :=
  JObj [ ("work_dirs", JArr (map WorkDirMeta_dump (work_dirs metadata))) ].

(** Validation of one item of [work_dirs]: a dict with a [str] under
    [path] and, under [last_session_id], a [str], [None] or nothing; other
    keys are ignored. *)
Definition WorkDirMeta_validate (item : json) : option WorkDirMeta :=
  match item with
  | JObj fields =>
      match Dict.get "path" fields with
      | Some (JStr p) =>
          match Dict.get "last_session_id" fields with
          | None | Some JNull => Some {| path := p; last_session_id := None |}
          | Some (JStr s) => Some {| path := p; last_session_id := Some s |}
          | Some _ => None
          end
      | _ => None
      end
  | _ => None
  end.

Fixpoint validate_items (items : list json) : option (list WorkDirMeta) :=
  match items with
  | [] => Some []
  | item :: items' =>
      match WorkDirMeta_validate item, validate_items items' with
      | Some wd, Some wds => Some (wd :: wds)
      | _, _ => None
      end
  end.

(** [Metadata] called with the items of the dict [data] as its keyword
    arguments; a [data] that is not a dict cannot be unpacked. *)
Definition Metadata_init (data : json) : result Metadata :=
  match data with
  | JObj kwargs =>
      match Dict.get "work_dirs" kwargs with
      | None => Ok {| work_dirs := [] |}
      | Some (JArr items) =>
          match validate_items items with
          | Some wds => Ok {| work_dirs := wds |}
          | None => Raise ValidationError
          end
      | Some _ => Raise ValidationError
      end
  | _ => Raise TypeError
  end.

(** *** The functions of the module *)

Section MetadataModule.

Variable host : Host.

Definition get_metadata_file : Path :=
  Pathlib.joinpath (share_dir host) "kimi.json".

(** The path [WorkDirMeta.sessions_dir] computes. *)
Definition sessions_dir_path (wd : WorkDirMeta) : Path :=
  Pathlib.joinpath (Pathlib.joinpath (share_dir host) "sessions")
    (Md5.hexdigest (encode (path wd))).

(** The property [WorkDirMeta.sessions_dir]: the path, and the file system
    with the directory made. *)
Definition sessions_dir (wd : WorkDirMeta) (fs : FS) : Path * FS :=
  let path := sessions_dir_path wd in
  (path, Fs.mkdir_p path fs).

Definition load_metadata (fs : FS) : result Metadata :=
  let metadata_file := get_metadata_file in
  if negb (Fs.exists_ fs metadata_file) then Ok {| work_dirs := [] |}
  else
    match Fs.read fs metadata_file with
    | None => Raise IsADirectoryError
    | Some f =>
        match Json.loads (Fs.read_text f) with
        | Raise e => Raise e
        | Ok data => Metadata_init data
        end
    end.

(** The chunks [json.dump] hands to [f.write], at the finest grain: byte
    by byte. *)
Fixpoint chunks (text : string) : list string :=
  match text with
  | EmptyString => []
  | String c text' => String c EmptyString :: chunks text'
  end.

(** What [save_metadata] does to the file system, step by step. *)
Definition save_metadata_ops (metadata : Metadata) : list Fs.op :=
  let metadata_file := get_metadata_file in
  (Fs.OpenW metadata_file
   :: map (Fs.Write metadata_file) (chunks (Json.dumps (model_dump metadata))))%list.

Definition save_metadata (metadata : Metadata) (fs : FS) : FS :=
  Fs.run (save_metadata_ops metadata) fs.

(** [next((wd for wd in metadata.work_dirs if wd.path == str(work_dir)), None)] *)
Definition find_work_dir (metadata : Metadata) (work_dir : Path) : option WorkDirMeta :=
  find (fun wd => String.eqb (path wd) (Pathlib.str work_dir)) (work_dirs metadata).

(** [work_dir_meta.last_session_id = session_id], where [work_dir_meta] is
    the record [find_work_dir] returned: the first one of the registry with
    that path, updated in place. *)
Fixpoint set_last_session (wds : list WorkDirMeta) (p : string) (session_id : string)
  : list WorkDirMeta :=
  match wds with
  | [] => []
  | wd :: wds' =>
      if String.eqb (path wd) p
      then {| path := path wd; last_session_id := Some session_id |} :: wds'
      else wd :: set_last_session wds' p session_id
  end.

(** [load_session(work_dir, session_id)], for a [session_id] that holds no
    separator: the file looked for is then one of the namespace. *)
Definition load_session (work_dir : Path) (session_id : string) (fs : FS)
  : result (option Session) * FS :=
  match load_metadata fs with
  | Raise e => (Raise e, fs)
  | Ok metadata =>
      match find_work_dir metadata work_dir with
      | None => (Ok None, fs)
      | Some work_dir_meta =>
          let '(dir, fs1) := sessions_dir work_dir_meta fs in
          let history_file := Pathlib.joinpath dir (session_id ++ ".jsonl") in
          if negb (Fs.exists_ fs1 history_file) then (Ok None, fs1)
          else
            let metadata' :=
              {| work_dirs :=
                   set_last_session (work_dirs metadata) (Pathlib.str work_dir) session_id |} in
            let fs2 := save_metadata metadata' fs1 in
            (Ok (Some {| id := session_id;
                         work_dir := work_dir;
                         history_file := history_file |}),
             fs2)
      end
  end.

(** [bool(v)] *)
Definition truthy (v : json) : bool :=
  match v with
  | JNull => false
  | JBool b => b
  | JInt z => negb (z =? 0)%Z
  | JFloat l => float_truthy host l
  | JStr s => negb (String.eqb s EmptyString)
  | JArr items => match items with [] => false | _ => true end
  | JObj fields => match fields with [] => false | _ => true end
  end.

(** [str(v)] *)
Definition py_str (v : json) : string :=
  match v with
  | JStr s => s
  | JNull => "None"
  | JBool true => "True"
  | JBool false => "False"
  | JInt z => Json.dump_int z
  | _ => value_repr host v
  end.

(** [role == name] for the value [data.get("role")] *)
Definition role_is (role : option json) (name : string) : bool :=
  match role with
  | Some (JStr s) => String.eqb s name
  | _ => false
  end.

(** The text of a message's content: the content when it is a [str], its
    first part when it is a list that starts with a [str] or with a dict
    that has a [text]. *)
Definition content_text (content : json) : option string :=
  match content with
  | JStr s => Some s
  | JArr (first_part :: _) =>
      match first_part with
      | JStr s => Some s
      | JObj part_dict =>
          match Dict.get "text" part_dict with
          | Some t => Some (py_str t)
          | None => None
          end
      | _ => None
      end
  | _ => None
  end.

Definition is_system_wrapped (text : string) : bool :=
  Str.startswith "<system>" text && Str.endswith "</system>" text.

(** The body of the loop of [_get_session_info] once the line is decoded;
    [data.get] raises on a value that is not a dict. *)
Definition process_record (info : SessionInfo) (data : json) : result SessionInfo :=
  match data with
  | JObj d =>
      let role := Dict.get "role" d in
      if role_is role "_checkpoint" then
        Ok {| timestamp := timestamp info;
              num_messages := num_messages info;
              num_checkpoints := S (num_checkpoints info);
              first_message := first_message info;
              is_current := is_current info |}
      else if role_is role "user" || role_is role "assistant" then
        let info1 :=
          {| timestamp := timestamp info;
             num_messages := S (num_messages info);
             num_checkpoints := num_checkpoints info;
             first_message := first_message info;
             is_current := is_current info |} in
        match first_message info1 with
        | Some _ => Ok info1
        | None =>
            if role_is role "user" then
              let content :=
                match Dict.get "content" d with
                | Some c => c
                | None => JNull
                end in
              if negb (truthy content) then Ok info1
              else
                match content_text content with
                | None => Ok info1
                | Some text =>
                    if is_system_wrapped text then Ok info1
                    else
                      Ok {| timestamp := timestamp info1;
                            num_messages := num_messages info1;
                            num_checkpoints := num_checkpoints info1;
                            first_message := Some (Str.strip (Str.prefix 50 text));
                            is_current := is_current info1 |}
                end
            else Ok info1
        end
      else Ok info
  | _ => Raise AttributeError
  end.

(** The loop over the lines: the [info] reached, and the exception that
    ended the loop if one was raised. *)
Fixpoint scan_lines (info : SessionInfo) (lines : list string)
  : SessionInfo * option exn :=
  match lines with
  | [] => (info, None)
  | line :: lines' =>
      let line := Str.strip line in
      if String.eqb line EmptyString then scan_lines info lines'
      else
        match Json.loads line with
        | Raise e => (info, Some e)
        | Ok data =>
            match process_record info data with
            | Ok info' => scan_lines info' lines'
            | Raise e => (info, Some e)
            end
        end
  end.

(** [_get_session_info(session_file)], on the file found at that path. The
    [except Exception] clause logs the exception and lets [info] through. *)
Definition _get_session_info (session_file : File) : SessionInfo :=
  let info :=
    {| timestamp := mtime session_file;
       num_messages := 0;
       num_checkpoints := 0;
       first_message := None;
       is_current := None |} in
  fst (scan_lines info (Fs.lines session_file)).

Definition entry : Type := string * Path * SessionInfo.

(** [info["is_current"] = b] *)
Definition set_is_current (info : SessionInfo) (b : bool) : SessionInfo :=
  {| timestamp := timestamp info;
     num_messages := num_messages info;
     num_checkpoints := num_checkpoints info;
     first_message := first_message info;
     is_current := Some b |}.

(** [session_id == work_dir_meta.last_session_id] *)
Definition is_last_session (work_dir_meta : WorkDirMeta) (session_id : string) : bool :=
  match last_session_id work_dir_meta with
  | Some l => String.eqb session_id l
  | None => false
  end.

(** The loop of [list_sessions] over the files the glob yields. *)
Fixpoint collect_sessions (work_dir_meta : WorkDirMeta) (globbed : list (Path * File))
  : list entry :=
  match globbed with
  | [] => []
  | (session_file, f) :: globbed' =>
      if Str.contains "_" (Pathlib.stem session_file)
      then collect_sessions work_dir_meta globbed'
      else
        let session_id := Pathlib.stem session_file in
        let info := _get_session_info f in
        let info' := set_is_current info (is_last_session work_dir_meta session_id) in
        (session_id, session_file, info') :: collect_sessions work_dir_meta globbed'
  end.

(** [sessions.sort(key=lambda x: x[2]["timestamp"], reverse=True)]: stable,
    latest first. *)
Fixpoint insert_desc (x : entry) (l : list entry) : list entry :=
  match l with
  | [] => [x]
  | y :: l' =>
      if (timestamp (snd y) <=? timestamp (snd x))%Z then x :: l
      else y :: insert_desc x l'
  end.

Definition sort_desc (l : list entry) : list entry := fold_right insert_desc [] l.

Definition list_sessions (work_dir : Path) (fs : FS) : result (list entry) * FS :=
  match load_metadata fs with
  | Raise e => (Raise e, fs)
  | Ok metadata =>
      match find_work_dir metadata work_dir with
      | None => (Ok [], fs)
      | Some work_dir_meta =>
          let '(dir, fs1) := sessions_dir work_dir_meta fs in
          let sessions := collect_sessions work_dir_meta (Fs.glob_jsonl fs1 dir) in
          (Ok (sort_desc sessions), fs1)
      end
  end.

End MetadataModule.

(** ** [kimi_cli/ui/shell/metacmd.py]: the table of meta commands *)

(** A handler function: its [__name__], its [__doc__], and a number that
    tells two functions apart. *)
Record MetaCmdFunc : Type := {
  func_name : string;
  func_doc : option string;
  func_id : nat
}.

Record MetaCommand : Type := {
  name : string;
  description : string;
  func : MetaCmdFunc;
  aliases : list string;
  kimi_soul_only : bool
}.

(** The two module-level dicts. *)
Record Commands : Type := {
  _meta_commands : list (string * MetaCommand);
  _meta_command_aliases : list (string * MetaCommand)
}.

Definition no_commands : Commands :=
  {| _meta_commands := []; _meta_command_aliases := [] |}.

Definition get_meta_command (st : Commands) (name : string) : option MetaCommand :=
  Dict.get name (_meta_command_aliases st).

Definition get_meta_commands (st : Commands) : list MetaCommand :=
  Dict.values (_meta_commands st).

(** [name or f.__name__] *)
Definition primary_name (name : option string) (f : MetaCmdFunc) : string :=
  match name with
  | Some n => if String.eqb n EmptyString then func_name f else n
  | None => func_name f
  end.

(** [list(aliases) if aliases else []] *)
Definition alias_list_of (aliases : option (list string)) : list string :=
  match aliases with
  | Some l => l
  | None => []
  end.

(** The command [_register] builds. *)
Definition make_command (name : option string) (aliases : option (list string))
  (kimi_soul_only : bool) (f : MetaCmdFunc) : MetaCommand :=
  {| name := primary_name name f;
     description :=
       Str.strip (match func_doc f with Some d => d | None => EmptyString end);
     func := f;
     aliases := alias_list_of aliases;
     kimi_soul_only := kimi_soul_only |}.

(** The decorator [meta_command(name=..., aliases=..., kimi_soul_only=...)]
    applied to [f]: [_register(f)], as a change of the two dicts. *)
Definition meta_command (name : option string) (aliases : option (list string))
  (kimi_soul_only : bool) (f : MetaCmdFunc) (st : Commands) : Commands :=
  let primary := primary_name name f in
  let alias_list := alias_list_of aliases in
  let cmd := make_command name aliases kimi_soul_only f in
  {| _meta_commands := Dict.set primary cmd (_meta_commands st);
     _meta_command_aliases :=
       fold_left (fun d alias => Dict.set alias cmd d) alias_list
         (Dict.set primary cmd (_meta_command_aliases st)) |}.

(** One use of the decorator. *)
Record registration : Type := {
  reg_name : option string;
  reg_aliases : option (list string);
  reg_kimi_soul_only : bool;
  reg_func : MetaCmdFunc
}.

Definition register (st : Commands) (r : registration) : Commands :=
  meta_command (reg_name r) (reg_aliases r) (reg_kimi_soul_only r) (reg_func r) st.

Definition register_all (rs : list registration) (st : Commands) : Commands :=
  fold_left register rs st.

Definition reg_primary (r : registration) : string :=
  primary_name (reg_name r) (reg_func r).

(** The names a registration binds: the primary name and the aliases. *)
Definition reg_names (r : registration) : list string :=
  reg_primary r :: alias_list_of (reg_aliases r).

(** The decorated functions of the module, in the order of the file. *)
Definition module_registrations : list registration :=
  [ {| reg_name := None; reg_aliases := Some ["quit"]; reg_kimi_soul_only := false;
       reg_func := {| func_name := "exit"; func_doc := Some "Exit the application";
                      func_id := 0 |} |};
    {| reg_name := None; reg_aliases := Some ["h"; "?"]; reg_kimi_soul_only := false;
       reg_func := {| func_name := "help"; func_doc := Some "Show help information";
                      func_id := 1 |} |};
    {| reg_name := None; reg_aliases := None; reg_kimi_soul_only := false;
       reg_func := {| func_name := "version"; func_doc := Some "Show version information";
                      func_id := 2 |} |};
    {| reg_name := Some "release-notes"; reg_aliases := None; reg_kimi_soul_only := false;
       reg_func := {| func_name := "release_notes"; func_doc := Some "Show release notes";
                      func_id := 3 |} |};
    {| reg_name := None; reg_aliases := None; reg_kimi_soul_only := false;
       reg_func := {| func_name := "feedback";
                      func_doc := Some "Submit feedback to make Kimi CLI better";
                      func_id := 4 |} |};
    {| reg_name := None; reg_aliases := None; reg_kimi_soul_only := true;
       reg_func := {| func_name := "init";
                      func_doc := Some "Analyze the codebase and generate an `AGENTS.md` file";
                      func_id := 5 |} |};
    {| reg_name := None; reg_aliases := Some ["reset"]; reg_kimi_soul_only := true;
       reg_func := {| func_name := "clear"; func_doc := Some "Clear the context";
                      func_id := 6 |} |};
    {| reg_name := None; reg_aliases := None; reg_kimi_soul_only := true;
       reg_func := {| func_name := "compact"; func_doc := Some "Compact the context";
                      func_id := 7 |} |};
    {| reg_name := None; reg_aliases := Some ["resume"]; reg_kimi_soul_only := true;
       reg_func :=
         {| func_name := "session";
            func_doc :=
              Some "List all conversation sessions and switch to a previous one to continue";
            func_id := 8 |} |} ].

(** ** [clear] and [compact] *)

(** What the console shows. *)
Inductive message : Type :=
| ContextIsEmpty
| ContextCleared
| ContextCompacted.

(** What a handler does that can be observed from outside, in order. *)
Inductive event : Type :=
| ConsolePrint (m : message)
| ConsoleStatus
| LogInfo
| CallRevertTo (checkpoint_id : nat)
| CallCompactContext.

Section Shell.

(** [kimi_cli.soul.context.Context] and [KimiSoul] are not among the sources
    at hand: the handlers are stated over any implementation of them. A
    method returns what it raised, if anything, and the object as it left
    it. *)
Variable Context : Type.
Variable n_checkpoints : Context -> nat.
Variable revert_to : Context -> nat -> option exn * Context.
Variable Runtime : Type.

Record KimiSoul : Type := {
  _context : Context;
  _runtime : Runtime
}.

Variable compact_context : KimiSoul -> option exn * KimiSoul.

Inductive Soul : Type :=
| IsKimiSoul (s : KimiSoul)
| OtherSoul.

Record ShellApp : Type := { soul : Soul }.

Record outcome : Type := {
  raised : option exn;
  app_after : ShellApp;
  events : list event
}.

Definition clear (app : ShellApp) (args : list string) : outcome :=
  match soul app with
  | OtherSoul => {| raised := Some AssertionError; app_after := app; events := [] |}
  | IsKimiSoul s =>
      if (n_checkpoints (_context s) =? 0)%nat then
        {| raised := None; app_after := app; events := [ConsolePrint ContextIsEmpty] |}
      else
        let '(e, ctx) := revert_to (_context s) 0 in
        let app' := {| soul := IsKimiSoul {| _context := ctx; _runtime := _runtime s |} |} in
        match e with
        | Some _ => {| raised := e; app_after := app'; events := [CallRevertTo 0] |}
        | None =>
            {| raised := None; app_after := app';
               events := [CallRevertTo 0; ConsolePrint ContextCleared] |}
        end
  end.

Definition compact (app : ShellApp) (args : list string) : outcome :=
  match soul app with
  | OtherSoul => {| raised := Some AssertionError; app_after := app; events := [] |}
  | IsKimiSoul s =>
      if (n_checkpoints (_context s) =? 0)%nat then
        {| raised := None; app_after := app; events := [ConsolePrint ContextIsEmpty] |}
      else
        let '(e, s') := compact_context s in
        let app' := {| soul := IsKimiSoul s' |} in
        match e with
        | Some _ =>
            {| raised := e; app_after := app';
               events := [LogInfo; ConsoleStatus; CallCompactContext] |}
        | None =>
            {| raised := None; app_after := app';
               events := [LogInfo; ConsoleStatus; CallCompactContext;
                          ConsolePrint ContextCompacted] |}
        end
  end.

End Shell.

Arguments IsKimiSoul {Context Runtime} s.
Arguments OtherSoul {Context Runtime}.
Arguments _context {Context Runtime} k.
Arguments _runtime {Context Runtime} k.
Arguments soul {Context Runtime} s.
Arguments raised {Context Runtime} o.
Arguments app_after {Context Runtime} o.
Arguments events {Context Runtime} o.

(** ** The session log, for concrete runs of the handlers *)

(** Modelled from the spec: the session log of sections 3 and 4.3, which
    [kimi_cli.soul.context.Context] implements outside the sources at hand.
    A log is its entries in order; [n_checkpoints] counts the checkpoint
    markers; [revert_to n] keeps the entries before the [n]-th marker. *)
Inductive LogEntry : Type :=
| LogMessage (role : string) (content : json)
| CheckpointMarker.

Definition SessionLog : Type := list LogEntry.

Definition log_n_checkpoints (log : SessionLog) : nat :=
  List.length (filter (fun e => match e with CheckpointMarker => true | _ => false end) log).

Fixpoint log_revert_to (log : SessionLog) (n : nat) : SessionLog :=
  match log with
  | [] => []
  | CheckpointMarker :: log' =>
      match n with
      | O => []
      | S n' => CheckpointMarker :: log_revert_to log' n'
      end
  | e :: log' => e :: log_revert_to log' n
  end.

(** A host to run the module on: a share directory, and a reading of
    floats and [repr] that the examples never reach. *)
Definition example_host : Host :=
  {| share_dir := ["home"; "u"; ".kimi"];
     float_truthy := fun _ => true;
     value_repr := fun _ => EmptyString |}.

(** ** The summary of a session, in the words of the specification *)

(** A line that ends the summary: it is not blank and is not the JSON text
    of an object. *)
Definition fails_to_decode (line : string) : bool :=
  let line := Str.strip line in
  negb (String.eqb line EmptyString)
  && match Json.loads line with
     | Ok (JObj _) => false
     | _ => true
     end.

(** The records of the lines, up to the first line that fails to decode. *)
Fixpoint records_before_failure (lines : list string) : list json :=
  match lines with
  | [] => []
  | line :: lines' =>
      let line := Str.strip line in
      if String.eqb line EmptyString then records_before_failure lines'
      else
        match Json.loads line with
        | Ok (JObj d) => JObj d :: records_before_failure lines'
        | _ => []
        end
  end.

Definition record_role (data : json) : option json :=
  match data with
  | JObj d => Dict.get "role" d
  | _ => None
  end.

Definition is_checkpoint (data : json) : bool := role_is (record_role data) "_checkpoint".

Definition is_user (data : json) : bool := role_is (record_role data) "user".

(** A message: a record of role [user] or [assistant]. *)
Definition is_message (data : json) : bool :=
  is_user data || role_is (record_role data) "assistant".

Definition message_count (records : list json) : nat :=
  List.length (filter is_message records).

Definition checkpoint_count (records : list json) : nat :=
  List.length (filter is_checkpoint records).

Section Preview.

Variable host : Host.

(** The text of a message: its content when that is a string that is not
    empty, the first element of its content when that is a list which
    starts with a string or with an object that has a [text]; absent
    otherwise. *)
Definition normalized_text (data : json) : option string :=
  match data with
  | JObj d =>
      match Dict.get "content" d with
      | Some (JStr s) => if String.eqb s EmptyString then None else Some s
      | Some (JArr (JStr s :: _)) => Some s
      | Some (JArr (JObj part :: _)) => option_map (py_str host) (Dict.get "text" part)
      | _ => None
      end
  | _ => None
  end.

(** The preview a record offers: the text of a user message that is not
    wrapped in the system markers, cut to the display width and
    stripped. *)
Definition record_preview (data : json) : option string :=
  if is_user data then
    match normalized_text data with
    | Some text =>
        if is_system_wrapped text then None else Some (Str.strip (Str.prefix 50 text))
    | None => None
    end
  else None.

(** The preview of a session: that of the first record that offers one. *)
Fixpoint preview_text (records : list json) : option string :=
  match records with
  | [] => None
  | data :: records' =>
      match record_preview data with
      | Some p => Some p
      | None => preview_text records'
      end
  end.

End Preview.

(** A file of a session, by its lines. *)
Definition session_file_of (lines : list string) (t : Z) : File :=
  {| content := String.concat (String Str.newline EmptyString) lines; mtime := t |}.

(** A session whose second record is damaged. *)
Definition damaged_session : File :=
  session_file_of [ Str.q "{'role': 'user', 'content': 'hi'}"; "garbage" ] 7.

(** The summary reached from [info] by the records [records]. *)
Definition summary_with (host : Host) (info : SessionInfo) (records : list json)
  : SessionInfo :=
  {| timestamp := timestamp info;
     num_messages := num_messages info + message_count records;
     num_checkpoints := num_checkpoints info + checkpoint_count records;
     first_message :=
       match first_message info with
       | Some p => Some p
       | None => preview_text host records
       end;
     is_current := is_current info |}.

(** The [info] dict [_get_session_info] starts from. *)
Definition initial_info (session_file : File) : SessionInfo :=
  {| timestamp := mtime session_file;
     num_messages := 0;
     num_checkpoints := 0;
     first_message := None;
     is_current := None |}.

(** ** A concrete installation, for runs of the module *)

Definition example_registry : Metadata :=
  {| work_dirs := [ {| path := "/home/u/proj"; last_session_id := Some "abc" |};
                    {| path := "/w"; last_session_id := None |} ] |}.

Definition example_work_dir : Path := ["home"; "u"; "proj"].

Definition example_namespace : Path :=
  sessions_dir_path example_host {| path := "/home/u/proj"; last_session_id := None |}.

(** The registry document, a live session, a backup of it left by a
    revert, and a damaged session. *)
Definition example_fs : FS :=
  {| files :=
       [ (get_metadata_file example_host,
          {| content := Json.dumps (model_dump example_registry); mtime := 3 |});
         (Pathlib.joinpath example_namespace "abc.jsonl",
          session_file_of
            [ Str.q "{'role': '_checkpoint'}";
              Str.q "{'role': 'user', 'content': '<system>x</system>'}";
              Str.q "{'role': 'user', 'content': [{'text': 'hello'}]}";
              Str.q "{'role': 'assistant', 'content': 'hi there'}" ] 5);
         (Pathlib.joinpath example_namespace "abc_1.jsonl",
          session_file_of [ Str.q "{'role': 'user', 'content': 'old'}" ] 9);
         (Pathlib.joinpath example_namespace "zz.jsonl", damaged_session) ];
     dirs := [];
     clock := 10 |}.

(** The entries of a listing that did not raise. *)
Definition sessions_of (r : result (list entry) * FS) : list entry :=
  match fst r with
  | Ok sessions => sessions
  | Raise _ => []
  end.

(** A user message of content [content]. *)
Definition user_message (content : json) : json :=
  JObj [("role", JStr "user"); ("content", content)].

(** ** Inverses used to tell encodings apart *)

(** The byte two hexadecimal digits denote. *)
Definition byte_of_hex (s : string) : option byte :=
  match s with
  | String h (String l EmptyString) =>
      match Json.hexval h, Json.hexval l with
      | Some a, Some b => Byte.of_N (16 * a + b)
      | _, _ => None
      end
  | _ => None
  end.

(** ** The tokens of a registry document *)

Definition item_tokens (wd : WorkDirMeta) : list Json.token :=
  [ Json.TLBrace; Json.TStr "path"; Json.TColon; Json.TStr (path wd); Json.TComma;
    Json.TStr "last_session_id"; Json.TColon;
    match last_session_id wd with Some s => Json.TStr s | None => Json.TNull end;
    Json.TRBrace ].

Fixpoint items_tokens (wds : list WorkDirMeta) : list Json.token :=
  match wds with
  | [] => []
  | [wd] => item_tokens wd
  | wd :: wds' => (item_tokens wd ++ Json.TComma :: items_tokens wds')%list
  end.

Definition registry_tokens (m : Metadata) : list Json.token :=
  ([ Json.TLBrace; Json.TStr "work_dirs"; Json.TColon ]
   ++ match work_dirs m with
      | [] => [ Json.TLBrack; Json.TRBrack ]
      | wds => Json.TLBrack :: items_tokens wds ++ [ Json.TRBrack ]
      end
   ++ [ Json.TRBrace ])%list.

(** ** The shape of a registry document, in the words of the specification *)

(** A working-directory record: an object with a string under [path] and,
    under [last_session_id], a string, [null], or nothing. *)
Definition record_shape (item : json) : Prop :=
  exists fields p,
    item = JObj fields
    /\ Dict.get "path" fields = Some (JStr p)
    /\ (Dict.get "last_session_id" fields = None
        \/ Dict.get "last_session_id" fields = Some JNull
        \/ exists s, Dict.get "last_session_id" fields = Some (JStr s)).

(** A registry document: an object whose [work_dirs], when it has one, is
    a list of working-directory records. *)
Definition registry_shape (data : json) : Prop :=
  exists kwargs,
    data = JObj kwargs
    /\ (Dict.get "work_dirs" kwargs = None
        \/ exists items,
            Dict.get "work_dirs" kwargs = Some (JArr items) /\ Forall record_shape items).

(** A file system that holds [text] as its registry document. *)
Definition fs_with_document (host : Host) (text : string) : FS :=
  {| files := [ (get_metadata_file host, {| content := text; mtime := 0 |}) ];
     dirs := [];
     clock := 1 |}.

Definition is_replace (o : Fs.op) : bool :=
  match o with
  | Fs.Replace _ _ => true
  | _ => false
  end.

(** The live backing file of a session in the namespace of a record. *)
Definition history_file_of (host : Host) (wd : WorkDirMeta) (session_id : string) : Path :=
  Pathlib.joinpath (sessions_dir_path host wd) (session_id ++ ".jsonl").

(** The table by primary name: distinct keys, each command under its own
    name. *)
Definition primary_table_ok (d : list (string * MetaCommand)) : Prop :=
  NoDup (Dict.keys d) /\ Forall (fun kc => name (snd kc) = fst kc) d.

(** ** The catalog, for the statements about listings *)

(** The entry [list_sessions] builds for a file of the namespace. *)
Definition entry_of (host : Host) (wdm : WorkDirMeta) (e : Path * File) : entry :=
  (Pathlib.stem (fst e), fst e,
   set_is_current (_get_session_info host (snd e))
     (is_last_session wdm (Pathlib.stem (fst e)))).

(** The live files of the namespace of a record: those the glob yields
    whose stem holds no underscore, in directory order. *)
Definition live_files (host : Host) (wdm : WorkDirMeta) (fs : FS) : list (Path * File) :=
  filter (fun e => negb (Str.contains "_" (Pathlib.stem (fst e))))
    (Fs.glob_jsonl fs (sessions_dir_path host wdm)).

(** [a] is listed before [b]: it is not older. *)
Definition not_older (a b : entry) : Prop := (timestamp (snd b) <= timestamp (snd a))%Z.

Definition has_timestamp (t : Z) (e : entry) : bool := (timestamp (snd e) =? t)%Z.

(** An entry without its mark. *)
Definition unmarked (e : entry) : string * Path * (Z * nat * nat * option string) :=
  (fst (fst e), snd (fst e),
   (timestamp (snd e), num_messages (snd e), num_checkpoints (snd e),
    first_message (snd e))).

(** What a line of a session file decodes to, if to an object. *)
Definition line_record (line : string) : option json :=
  match Json.loads (Str.strip line) with
  | Ok (JObj d) => Some (JObj d)
  | _ => None
  end.

Definition line_is_message (line : string) : bool :=
  match line_record line with
  | Some data => is_message data
  | None => false
  end.

Definition line_is_checkpoint (line : string) : bool :=
  match line_record line with
  | Some data => is_checkpoint data
  | None => false
  end.

Definition line_is_blank (line : string) : bool :=
  String.eqb (Str.strip line) EmptyString.


(** ** The table of meta commands, for the statements about lookups *)

(** The command a registration builds. *)
Definition command_of (r : registration) : MetaCommand :=
  make_command (reg_name r) (reg_aliases r) (reg_kimi_soul_only r) (reg_func r).

(** The names of a list in the order of their first occurrence. *)
Definition first_occurrences (l : list string) : list string :=
  rev (nodup string_dec (rev l)).

(** ** [session] and [_render_history] *)

(** What [session] prints, apart from the history. *)
Inductive session_message : Type :=
| NoSessionsFound
| InvalidSelection
| AlreadyInSession
| FailedToLoadSession
| SessionIsEmpty
| SessionSwitched.

(** What [session] does on the terminal, in order. *)
Inductive shell_event : Type :=
| Printed (m : session_message)
| PrintedBlank
| PrintedUser (username text : string)
| PrintedMarkdown (text : string)
| ClearedConsole
| Prompted (options : list (string * string)).

(** What the prompt gives back: the value chosen ([None] included), or an
    [EOFError] or [KeyboardInterrupt]. *)
Inductive answer : Type :=
| Chosen (result : option string)
| Cancelled.

(** What [session] can raise: what the module [metadata] raises, or the
    [KeyError] of an [info] dict without [is_current]. *)
Inductive handler_exn : Type :=
| Raised (e : exn)
| KeyError.

(** [s.ljust(n)] *)
Definition ljust (n : nat) (s : string) : string :=
  s ++ Str.repeat " " (n - Str.len s).

(** [info["first_message"] or "empty"], cut or padded to the column. *)
Definition preview_display (first_message : option string) : string :=
  let preview :=
    match first_message with
    | Some s => if String.eqb s EmptyString then "empty" else s
    | None => "empty"
    end in
  let preview_width := 50 in
  if (preview_width - 3 <? Str.len preview)%nat
  then Str.prefix (preview_width - 3) preview ++ "..."
  else ljust preview_width preview.

(** The arrow that marks the current session in the chooser, U+2192. *)
Definition current_arrow : string := Str.utf8 8594.

Section SessionHandler.

Variable host : Host.

(** Outside the sources at hand, and parameters here: [Context] with its
    [restore] and [history], the runtime tuple of [KimiSoul], the messages
    of the history with [message_extract_text], and [getpass.getuser()].
    [restore fs p] stands for [Context(file_backend=p)] followed by
    [restore()]: what [restore] returned and the context it left. *)
Variable Context : Type.
Variable Runtime : Type.
Variable Message : Type.
Variable work_dir_of : Runtime -> Path.
Variable replace_session : Runtime -> Session -> Runtime.
Variable restore : FS -> Path -> bool * Context.
Variable history : Context -> list Message.
Variable role : Message -> string.
Variable message_extract_text : Message -> string.
Variable username : string.

(** Two pieces of a label are parameters: the relative time of the [i]-th
    entry, which the code derives from [datetime.now()] with floating-point
    arithmetic and [strftime]; and the mark of the current session, which
    the code has as the arrow [current_arrow], so that what is proved of
    the labels is seen not to depend on it. *)
Variable time_str : nat -> Z -> string.
Variable current_marker : string.

Definition render_message (msg : Message) : list shell_event :=
  if String.eqb (role msg) "user" then
    let text := message_extract_text msg in
    if negb (String.eqb text EmptyString) && negb (is_system_wrapped text)
    then [PrintedUser username text; PrintedBlank]
    else []
  else if String.eqb (role msg) "assistant" then
    let text := message_extract_text msg in
    if negb (String.eqb text EmptyString) then [PrintedMarkdown text; PrintedBlank]
    else []
  else [].

Definition _render_history (history : list Message) : list shell_event :=
  flat_map render_message history.

(** The label of the [i]-th entry; [None] stands for the [KeyError]. *)
Definition label_of (i : nat) (info : SessionInfo) : option string :=
  match is_current info with
  | None => None
  | Some current =>
      let marker := if current then current_marker else " " in
      Some (marker ++ " " ++ preview_display (first_message info) ++ "  "
            ++ time_str i (timestamp info) ++ " " ++ Str.utf8 183 ++ " "
            ++ Json.dump_int (Z.of_nat (num_messages info)) ++ " msgs")
  end.

(** The loop that builds [choices] and [session_map]. *)
Fixpoint build_choices (i : nat) (session_list : list entry)
  (choices : list (string * string)) (session_map : list (string * (string * SessionInfo)))
  : option (list (string * string) * list (string * (string * SessionInfo))) :=
  match session_list with
  | [] => Some (choices, session_map)
  | (session_id, _path, info) :: rest =>
      match label_of i info with
      | None => None
      | Some label =>
          build_choices (S i) rest (choices ++ [(label, label)])%list
            (Dict.set label (session_id, info) session_map)
      end
  end.

Record session_outcome : Type := {
  s_raised : option handler_exn;
  s_app : ShellApp Context Runtime;
  s_fs : FS;
  s_events : list shell_event
}.

Definition session (app : ShellApp Context Runtime) (args : list string) (fs : FS)
  (ans : answer) : session_outcome :=
  match soul app with
  | OtherSoul =>
      {| s_raised := Some (Raised AssertionError); s_app := app; s_fs := fs;
         s_events := [] |}
  | IsKimiSoul ks =>
      let work_dir := work_dir_of (_runtime ks) in
      match list_sessions host work_dir fs with
      | (Raise e, fs1) =>
          {| s_raised := Some (Raised e); s_app := app; s_fs := fs1; s_events := [] |}
      | (Ok [], fs1) =>
          {| s_raised := None; s_app := app; s_fs := fs1;
             s_events := [Printed NoSessionsFound] |}
      | (Ok session_list, fs1) =>
          match build_choices 1 session_list [] [] with
          | None =>
              {| s_raised := Some KeyError; s_app := app; s_fs := fs1; s_events := [] |}
          | Some (choices, session_map) =>
              let quiet :=
                {| s_raised := None; s_app := app; s_fs := fs1;
                   s_events := [Prompted choices] |} in
              match ans with
              | Cancelled => quiet
              | Chosen None => quiet
              | Chosen (Some result) =>
                  match Dict.get result session_map with
                  | None =>
                      {| s_raised := None; s_app := app; s_fs := fs1;
                         s_events := [Prompted choices; Printed InvalidSelection] |}
                  | Some (session_id, session_info) =>
                      match is_current session_info with
                      | None =>
                          {| s_raised := Some KeyError; s_app := app; s_fs := fs1;
                             s_events := [Prompted choices] |}
                      | Some true =>
                          {| s_raised := None; s_app := app; s_fs := fs1;
                             s_events := [Prompted choices; Printed AlreadyInSession] |}
                      | Some false =>
                          match load_session host work_dir session_id fs1 with
                          | (Raise e, fs2) =>
                              {| s_raised := Some (Raised e); s_app := app; s_fs := fs2;
                                 s_events := [Prompted choices] |}
                          | (Ok None, fs2) =>
                              {| s_raised := None; s_app := app; s_fs := fs2;
                                 s_events :=
                                   [Prompted choices; Printed FailedToLoadSession] |}
                          | (Ok (Some new_session), fs2) =>
                              let '(restored, new_context) :=
                                restore fs2 (history_file new_session) in
                              if negb restored
                                 || match history new_context with
                                    | [] => true
                                    | _ => false
                                    end
                              then
                                {| s_raised := None; s_app := app; s_fs := fs2;
                                   s_events := [Prompted choices; Printed SessionIsEmpty] |}
                              else
                                {| s_raised := None;
                                   s_app :=
                                     {| soul :=
                                          IsKimiSoul
                                            {| _context := new_context;
                                               _runtime :=
                                                 replace_session (_runtime ks) new_session
                                            |} |};
                                   s_fs := fs2;
                                   s_events :=
                                     (Prompted choices :: ClearedConsole
                                      :: _render_history (history new_context)
                                      ++ [Printed SessionSwitched; PrintedBlank])%list |}
                          end
                      end
                  end
              end
          end
      end
  end.

End SessionHandler.

Arguments s_raised {Context Runtime} s.
Arguments s_app {Context Runtime} s.
Arguments s_fs {Context Runtime} s.
Arguments s_events {Context Runtime} s.

(** Every binding of the alias table comes from a registration of [rs]
    that carries the bound name. *)
Definition bound_by (rs : list registration) (kc : string * MetaCommand) : Prop :=
  exists r, In r rs /\ snd kc = command_of r /\ In (fst kc) (reg_names r).

(** ** A shell, for the examples of [/session] *)

(** Contexts are histories, a message is a pair of a role and a text, and
    the runtime is the session it holds, if any. *)
Definition example_app : ShellApp (list (string * string)) (option Session) :=
  {| soul := IsKimiSoul {| _context := []; _runtime := None |} |}.

(** [/session] in the example file system, every time shown as
    [just now]. *)
Definition example_session (restore : FS -> Path -> bool * list (string * string))
  (ans : answer) : session_outcome (list (string * string)) (option Session) :=
  session example_host (list (string * string)) (option Session) (string * string)
    (fun _ => example_work_dir) (fun _ s => Some s) restore (fun c => c) fst snd "u"
    (fun _ _ => "just now") current_arrow example_app [] example_fs ans.

(** The answer that picks the first row of the chooser. *)
Definition example_first_row : answer :=
  Chosen
    match sessions_of (list_sessions example_host example_work_dir example_fs) with
    | e :: _ => label_of (fun _ _ => "just now") current_arrow 1 (snd e)
    | [] => None
    end.

(** * Properties *)

(** ** The library models on known values *)

(** The test suite of RFC 1321. *)
Example md5_of_empty : Md5.hexdigest [] = "d41d8cd98f00b204e9800998ecf8427e".
Proof. vm_compute. reflexivity. Qed.

Example md5_of_a : Md5.hexdigest (encode "a") = "0cc175b9c0f1b6a831c399e269772661".
Proof. vm_compute. reflexivity. Qed.

(** A path with characters of three bytes. *)
Example md5_of_path :
  Md5.hexdigest (encode ("/home/u/" ++ Str.utf8 39033 ++ Str.utf8 30446))
  = "feb16d532edaedbc28dc10477bcaa474".
Proof. vm_compute. reflexivity. Qed.

Example md5_of_message_digest :
  Md5.hexdigest (encode "message digest") = "f96b697d7cb7938d525a2f31aaf161d0".
Proof. vm_compute. reflexivity. Qed.

Example md5_of_alphabet :
  Md5.hexdigest (encode "abcdefghijklmnopqrstuvwxyz") = "c3fcd3d76192e4007dfb496cca67e13b".
Proof. vm_compute. reflexivity. Qed.

(** The text [json.dump] writes for a registry. *)
Example dumps_of_empty_registry :
  Json.dumps (model_dump {| work_dirs := [] |})
  = Str.q "{
  'work_dirs': []
}".
Proof. vm_compute. reflexivity. Qed.

Example dumps_of_example_registry :
  Json.dumps (model_dump example_registry)
  = Str.q "{
  'work_dirs': [
    {
      'path': '/home/u/proj',
      'last_session_id': 'abc'
    },
    {
      'path': '/w',
      'last_session_id': null
    }
  ]
}".
Proof. vm_compute. reflexivity. Qed.

(** [json.loads]: a repeated key keeps its first place and its last value;
    a trailing comma, a leading zero and a raw control character in a
    string are errors. *)
Example loads_repeated_key :
  Json.loads (Str.q "{'a': 1, 'a': 2, 'b': 3}") = Ok (JObj [("a", JInt 2); ("b", JInt 3)]).
Proof. vm_compute. reflexivity. Qed.

Example loads_errors :
  Json.loads (Str.q "{'a': 1,}") = Raise JSONDecodeError
  /\ Json.loads "[1,]" = Raise JSONDecodeError
  /\ Json.loads "01" = Raise JSONDecodeError
  /\ Json.loads "12." = Raise JSONDecodeError
  /\ Json.loads "garbage" = Raise JSONDecodeError
  /\ Json.loads EmptyString = Raise JSONDecodeError
  /\ Json.loads (Str.q "'a" ++ String Str.newline (Str.q "b'")) = Raise JSONDecodeError.
Proof. vm_compute. repeat split. Qed.

(** Escapes of characters above U+00FF, a surrogate pair, and a high
    surrogate that no low one follows. *)
Example loads_unicode_escapes :
  Json.loads (Str.q "'\u4f60\u597d'") = Ok (JStr (Str.utf8 20320 ++ Str.utf8 22909))
  /\ Json.loads (Str.q "'\ud83d\ude00'") = Ok (JStr (Str.utf8 128512))
  /\ Json.loads (Str.q "'\ud83dx'") = Ok (JStr (Str.utf8 55357 ++ "x"))
  /\ Json.loads (Str.q "'\ud83d\u00e9'") = Ok (JStr (Str.utf8 55357 ++ Str.utf8 233)).
Proof. vm_compute. repeat split. Qed.

(** [int] refuses a literal of more than 4300 digits, and of two faults of
    a text the first one is raised. *)
Example loads_long_integer :
  Json.loads (Str.repeat "1" 4301) = Raise ValueError
  /\ Json.loads (String "-" (Str.repeat "1" 4300))
     = Ok (JInt (Json.int_of_lexeme (String "-" (Str.repeat "1" 4300))))
  /\ Json.loads ("[" ++ Str.repeat "1" 4301 ++ ".]") = Raise ValueError
  /\ Json.loads ("[tru," ++ Str.repeat "1" 4301 ++ "]") = Raise JSONDecodeError
  /\ Json.loads (Str.q "{'a' " ++ Str.repeat "1" 4301 ++ "}") = Raise JSONDecodeError.
Proof. vm_compute. repeat split. Qed.

(** [str.strip], [len] and slices count characters; the whitespace is
    that of [str.isspace]. *)
Example strip_len_prefix :
  Str.strip (Str.utf8 12288 ++ " a" ++ Str.utf8 233 ++ Str.utf8 160 ++ Str.utf8 8232)
  = "a" ++ Str.utf8 233
  /\ Str.len (Str.utf8 20320 ++ Str.utf8 22909 ++ Str.utf8 128512 ++ "!") = 4
  /\ Str.prefix 2 (Str.utf8 20320 ++ Str.utf8 22909 ++ Str.utf8 128512 ++ "!")
     = Str.utf8 20320 ++ Str.utf8 22909
  /\ forallb (fun n => String.eqb (Str.strip (Str.utf8 n)) EmptyString) Str.whitespace
     = true.
Proof. vm_compute. repeat split. Qed.

(** [Path.stem] and the test for a backup. *)
Example stem_of_names :
  Pathlib.stem ["d"; "abc.jsonl"] = "abc"
  /\ Pathlib.stem ["d"; "abc_1.jsonl"] = "abc_1"
  /\ Pathlib.stem ["d"; ".jsonl"] = ".jsonl"
  /\ Pathlib.stem ["d"; "a.b.jsonl"] = "a.b".
Proof. vm_compute. repeat split. Qed.

(** ** Dicts *)

Section DictFacts.

Context {V : Type}.
Implicit Types (d : list (string * V)) (k : string) (v : V).

Lemma dict_get_set_same d k v : Dict.get k (Dict.set k v d) = Some v.
Proof.
  induction d as [|[k' v'] d IH]; simpl.
  - now rewrite String.eqb_refl.
  - destruct (String.eqb k k') eqn:E; simpl; rewrite E; auto.
Qed.

Lemma dict_get_set_other d k k' v :
  k <> k' -> Dict.get k' (Dict.set k v d) = Dict.get k' d.
Proof.
  intros Hne. induction d as [|[k0 v0] d IH]; simpl.
  - destruct (String.eqb k' k) eqn:E; auto.
    apply String.eqb_eq in E. congruence.
  - destruct (String.eqb k k0) eqn:E; simpl.
    + apply String.eqb_eq in E. subst k0.
      destruct (String.eqb k' k) eqn:E'; auto.
      apply String.eqb_eq in E'. congruence.
    + now rewrite IH.
Qed.

Lemma dict_keys_set_in d k v k' :
  In k' (Dict.keys (Dict.set k v d)) <-> k' = k \/ In k' (Dict.keys d).
Proof.
  unfold Dict.keys. induction d as [|[k0 v0] d IH]; simpl.
  - intuition.
  - destruct (String.eqb k k0) eqn:E; simpl.
    + apply String.eqb_eq in E. subst k0. intuition.
    + rewrite IH. intuition.
Qed.

Lemma dict_keys_set_nodup d k v :
  NoDup (Dict.keys d) -> NoDup (Dict.keys (Dict.set k v d)).
Proof.
  unfold Dict.keys. induction d as [|[k0 v0] d IH]; simpl; intros Hnd.
  - constructor; [intros []|constructor].
  - inversion Hnd as [|? ? Hnotin Hnd']; subst.
    destruct (String.eqb k k0) eqn:E; simpl.
    + constructor; assumption.
    + constructor; [|auto].
      intros Hin. apply (dict_keys_set_in d k v k0) in Hin.
      destruct Hin as [->|Hin]; [|contradiction].
      now rewrite String.eqb_refl in E.
Qed.

Lemma dict_set_length d k v :
  List.length (Dict.set k v d) <= S (List.length d).
Proof.
  induction d as [|[k0 v0] d IH]; simpl; [lia|].
  destruct (String.eqb k k0); simpl; lia.
Qed.

(** Every entry of [d] satisfies [P]; kept by [Dict.set] of such an entry. *)
Lemma dict_set_forall (P : string * V -> Prop) d k v :
  Forall P d -> P (k, v) -> (forall k0 v0, P (k0, v0) -> k = k0 -> P (k0, v)) ->
  Forall P (Dict.set k v d).
Proof.
  intros Hall Hnew Hrepl. induction Hall as [|[k0 v0] d H0 Hall IH]; simpl.
  - constructor; [assumption|constructor].
  - destruct (String.eqb k k0) eqn:E.
    + apply String.eqb_eq in E. constructor; [now apply (Hrepl k0 v0)|assumption].
    + constructor; assumption.
Qed.

Lemma dict_get_none_notin d k : Dict.get k d = None <-> ~ In k (Dict.keys d).
Proof.
  unfold Dict.keys. induction d as [|[k0 v0] d IH]; simpl.
  - intuition.
  - destruct (String.eqb k k0) eqn:E.
    + apply String.eqb_eq in E. subst. split; [discriminate|intros H; exfalso; auto].
    + apply String.eqb_neq in E. rewrite IH. intuition congruence.
Qed.

End DictFacts.

(** ** The table of meta commands *)

Lemma aliases_fold_get (cmd : MetaCommand) (l : list string) :
  forall d n,
    In n l \/ Dict.get n d = Some cmd ->
    Dict.get n (fold_left (fun d alias => Dict.set alias cmd d) l d) = Some cmd.
Proof.
  induction l as [|a l IH]; simpl; intros d n H.
  - destruct H as [[]|H]; exact H.
  - apply IH. destruct (string_dec a n) as [->|Hne].
    + right. apply dict_get_set_same.
    + destruct H as [[H|H]|H]; [contradiction|now left|].
      right. now rewrite dict_get_set_other.
Qed.

Lemma aliases_fold_other (cmd : MetaCommand) (l : list string) :
  forall d n,
    ~ In n l ->
    Dict.get n (fold_left (fun d alias => Dict.set alias cmd d) l d) = Dict.get n d.
Proof.
  induction l as [|a l IH]; simpl; intros d n H; [reflexivity|].
  rewrite IH by tauto. apply dict_get_set_other. tauto.
Qed.

Lemma register_binds (st : Commands) (r : registration) (n : string) :
  In n (reg_names r) ->
  get_meta_command (register st r) n
  = Some (make_command (reg_name r) (reg_aliases r) (reg_kimi_soul_only r) (reg_func r)).
Proof.
  unfold get_meta_command, register, meta_command, reg_names, reg_primary. simpl.
  intros [<-|Hin]; apply aliases_fold_get.
  - right. apply dict_get_set_same.
  - now left.
Qed.

Lemma register_other (st : Commands) (r : registration) (n : string) :
  ~ In n (reg_names r) ->
  get_meta_command (register st r) n = get_meta_command st n.
Proof.
  unfold get_meta_command, register, meta_command, reg_names, reg_primary. simpl.
  intros Hnot. rewrite aliases_fold_other by tauto.
  apply dict_get_set_other. tauto.
Qed.

Lemma register_all_unbound (rs : list registration) :
  forall st n,
    ~ In n (concat (map reg_names rs)) ->
    get_meta_command (register_all rs st) n = get_meta_command st n.
Proof.
  unfold register_all.
  induction rs as [|r rs IH]; cbn [map concat fold_left]; intros st n Hnot;
    [reflexivity|].
  rewrite in_app_iff in Hnot.
  rewrite IH by tauto. apply register_other. tauto.
Qed.

Lemma register_primary_table (st : Commands) (r : registration) :
  primary_table_ok (_meta_commands st) ->
  primary_table_ok (_meta_commands (register st r)).
Proof.
  intros [Hnd Hall]. split; simpl.
  - now apply dict_keys_set_nodup.
  - apply dict_set_forall; simpl; auto.
Qed.

Lemma register_all_primary_table (rs : list registration) :
  forall st,
    primary_table_ok (_meta_commands st) ->
    primary_table_ok (_meta_commands (register_all rs st)).
Proof.
  unfold register_all.
  induction rs as [|r rs IH]; simpl; intros st H; [exact H|].
  apply IH. now apply register_primary_table.
Qed.

Lemma register_all_keys (rs : list registration) :
  forall st n,
    In n (Dict.keys (_meta_commands (register_all rs st)))
    <-> In n (Dict.keys (_meta_commands st)) \/ In n (map reg_primary rs).
Proof.
  unfold register_all.
  induction rs as [|r rs IH]; simpl; intros st n; [tauto|].
  rewrite IH. simpl. rewrite dict_keys_set_in. unfold reg_primary. intuition.
Qed.

Lemma names_of_values (d : list (string * MetaCommand)) :
  Forall (fun kc => name (snd kc) = fst kc) d ->
  map name (Dict.values d) = Dict.keys d.
Proof.
  unfold Dict.values, Dict.keys.
  induction 1 as [|[k c] d H _ IH]; simpl; [reflexivity|].
  simpl in H. now rewrite H, IH.
Qed.

(** C10. Right after a handler is registered under a primary name and
    aliases, [get_meta_command] returns the one command built for it for
    the primary name and for every alias; after any sequence of
    registrations from the empty tables, a name bound by none of them is
    looked up to [None], and [get_meta_commands] lists exactly one command
    per registered primary name: the names listed are the primary names,
    without repetition, and a registration adds at most one entry however
    many aliases it has. *)
Theorem meta_command_table :
  (forall st r,
      Forall (fun n =>
                get_meta_command (register st r) n
                = Some (make_command (reg_name r) (reg_aliases r)
                          (reg_kimi_soul_only r) (reg_func r)))
             (reg_names r))
  /\ (forall rs n,
        ~ In n (concat (map reg_names rs)) ->
        get_meta_command (register_all rs no_commands) n = None)
  /\ (forall rs,
        NoDup (map name (get_meta_commands (register_all rs no_commands)))
        /\ (forall n, In n (map name (get_meta_commands (register_all rs no_commands)))
                      <-> In n (map reg_primary rs)))
  /\ (forall st r,
        List.length (get_meta_commands (register st r))
        <= S (List.length (get_meta_commands st))).
Proof.
  split; [|split; [|split]].
  - intros st r. apply Forall_forall. intros n Hin. now apply register_binds.
  - intros rs n Hnot. now rewrite register_all_unbound.
  - intros rs.
    assert (Hok : primary_table_ok (_meta_commands (register_all rs no_commands))).
    { apply register_all_primary_table. split; simpl; constructor. }
    destruct Hok as [Hnd Hall]. unfold get_meta_commands.
    rewrite (names_of_values _ Hall). split; [exact Hnd|].
    intros n. rewrite register_all_keys. simpl. tauto.
  - intros st r. unfold get_meta_commands, Dict.values. rewrite !length_map.
    apply dict_set_length.
Qed.

(** The table of the module itself: [reset] and [clear] are one command,
    listed once; an unknown name is not found. *)
Lemma meta_command_table_witness :
  get_meta_command (register_all module_registrations no_commands) "reset"
  = get_meta_command (register_all module_registrations no_commands) "clear"
  /\ get_meta_command (register_all module_registrations no_commands) "nope" = None
  /\ map name (get_meta_commands (register_all module_registrations no_commands))
     = [ "exit"; "help"; "version"; "release-notes"; "feedback"; "init"; "clear";
         "compact"; "session" ].
Proof.
  split; [reflexivity|split; [|reflexivity]].
  apply (proj1 (proj2 meta_command_table) module_registrations "nope").
  vm_compute. intuition discriminate.
Defined.

(** ** [clear] and [compact] on an empty context *)

Section ShellFacts.

Variable Context : Type.
Variable n_checkpoints : Context -> nat.
Variable revert_to : Context -> nat -> option exn * Context.
Variable Runtime : Type.
Variable compact_context : KimiSoul Context Runtime -> option exn * KimiSoul Context Runtime.

Lemma clear_empty (app : ShellApp Context Runtime) (args : list string) s :
  soul app = IsKimiSoul s ->
  n_checkpoints (_context s) = 0 ->
  clear Context n_checkpoints revert_to Runtime app args
  = {| raised := None; app_after := app; events := [ConsolePrint ContextIsEmpty] |}.
Proof.
  intros Hs H0. unfold clear. rewrite Hs, H0. reflexivity.
Qed.

Lemma compact_empty (app : ShellApp Context Runtime) (args : list string) s :
  soul app = IsKimiSoul s ->
  n_checkpoints (_context s) = 0 ->
  compact Context n_checkpoints Runtime compact_context app args
  = {| raised := None; app_after := app; events := [ConsolePrint ContextIsEmpty] |}.
Proof.
  intros Hs H0. unfold compact. rewrite Hs, H0. reflexivity.
Qed.

Lemma clear_calls_revert (app : ShellApp Context Runtime) (args : list string) n :
  In (CallRevertTo n) (events (clear Context n_checkpoints revert_to Runtime app args)) ->
  n = 0 /\ exists s, soul app = IsKimiSoul s /\ 0 < n_checkpoints (_context s).
Proof.
  unfold clear. destruct (soul app) as [s|] eqn:Hs; simpl; [|intros []].
  destruct (n_checkpoints (_context s) =? 0)%nat eqn:E.
  - simpl. intros [H|[]]. discriminate H.
  - apply Nat.eqb_neq in E.
    destruct (revert_to (_context s) 0) as [[e|] ctx]; simpl;
      intros H; split; try (exists s; split; [reflexivity|lia]);
      repeat (destruct H as [H|H]; [congruence|]); destruct H.
Qed.

Lemma compact_calls_compact (app : ShellApp Context Runtime) (args : list string) :
  In CallCompactContext (events (compact Context n_checkpoints Runtime compact_context app args)) ->
  exists s, soul app = IsKimiSoul s /\ 0 < n_checkpoints (_context s).
Proof.
  unfold compact. destruct (soul app) as [s|] eqn:Hs; simpl; [|intros []].
  destruct (n_checkpoints (_context s) =? 0)%nat eqn:E.
  - simpl. intros [H|[]]. discriminate H.
  - apply Nat.eqb_neq in E. intros _. exists s. split; [reflexivity|lia].
Qed.

Lemma clear_nonempty (app : ShellApp Context Runtime) (args : list string) s :
  soul app = IsKimiSoul s ->
  0 < n_checkpoints (_context s) ->
  exists rest, events (clear Context n_checkpoints revert_to Runtime app args) = CallRevertTo 0 :: rest.
Proof.
  intros Hs Hpos. unfold clear. rewrite Hs.
  destruct (n_checkpoints (_context s) =? 0)%nat eqn:E.
  - apply Nat.eqb_eq in E. lia.
  - destruct (revert_to (_context s) 0) as [[e|] ctx]; simpl; eauto.
Qed.

End ShellFacts.

(** C9. With [n_checkpoints == 0], [clear] prints that the context is
    empty and returns: it raises nothing, leaves the application and its
    context as they were, and calls nothing, [revert_to] included; [compact]
    does the same. A call of [revert_to] by [clear] is [revert_to(0)] and
    happens only with [n_checkpoints > 0], where it does happen; a call of
    [compact_context] by [compact] happens only with [n_checkpoints > 0].
    This holds whatever [Context] and [KimiSoul] implement. *)
Theorem clear_compact_guard
  (Context : Type) (n_checkpoints : Context -> nat)
  (revert_to : Context -> nat -> option exn * Context)
  (Runtime : Type)
  (compact_context : KimiSoul Context Runtime -> option exn * KimiSoul Context Runtime)
  (app : ShellApp Context Runtime) (args : list string) :
  (forall s,
      soul app = IsKimiSoul s ->
      n_checkpoints (_context s) = 0 ->
      clear Context n_checkpoints revert_to Runtime app args
      = {| raised := None; app_after := app; events := [ConsolePrint ContextIsEmpty] |}
      /\ compact Context n_checkpoints Runtime compact_context app args
         = {| raised := None; app_after := app; events := [ConsolePrint ContextIsEmpty] |})
  /\ (forall n,
        In (CallRevertTo n)
           (events (clear Context n_checkpoints revert_to Runtime app args)) ->
        n = 0 /\ exists s, soul app = IsKimiSoul s /\ 0 < n_checkpoints (_context s))
  /\ (In CallCompactContext
         (events (compact Context n_checkpoints Runtime compact_context app args)) ->
      exists s, soul app = IsKimiSoul s /\ 0 < n_checkpoints (_context s))
  /\ (forall s,
        soul app = IsKimiSoul s ->
        0 < n_checkpoints (_context s) ->
        exists rest,
          events (clear Context n_checkpoints revert_to Runtime app args)
          = CallRevertTo 0 :: rest).
Proof.
  split; [|split; [|split]].
  - intros s Hs H0. split; [eapply clear_empty|eapply compact_empty]; eassumption.
  - intros n. apply clear_calls_revert.
  - apply compact_calls_compact.
  - intros s. apply clear_nonempty.
Qed.

(** [clear] on a log of one message and no checkpoint, over the session log
    of the specification. *)
Lemma clear_compact_guard_witness :
  let app : ShellApp SessionLog unit :=
    {| soul := IsKimiSoul {| _context := [LogMessage "user" (JStr "hi")];
                             _runtime := tt |} |} in
  clear SessionLog log_n_checkpoints (fun log n => (None, log_revert_to log n)) unit app []
  = {| raised := None; app_after := app; events := [ConsolePrint ContextIsEmpty] |}.
Proof.
  intros app.
  exact (proj1 (proj1 (clear_compact_guard SessionLog log_n_checkpoints
                          (fun log n => (None, log_revert_to log n)) unit
                          (fun s => (None, s)) app [])
                  _ eq_refl eq_refl)).
Defined.

(** ** The summary of a session *)

Section SummaryFacts.

Variable host : Host.

Lemma role_is_exclusive (role : option json) (a b : string) :
  a <> b -> role_is role a = true -> role_is role b = false.
Proof.
  intros Hne. destruct role as [[]|]; simpl; try discriminate.
  intros Ha. apply String.eqb_eq in Ha. subst. now apply String.eqb_neq.
Qed.

Lemma summary_with_nil (info : SessionInfo) : summary_with host info [] = info.
Proof.
  destruct info as [t m c [p|] cur]; unfold summary_with, message_count, checkpoint_count;
    simpl; now rewrite !Nat.add_0_r.
Qed.

Lemma summary_with_cons (info : SessionInfo) (r : json) (rs : list json) :
  summary_with host (summary_with host info [r]) rs = summary_with host info (r :: rs).
Proof.
  destruct info as [t m c fm cur].
  unfold summary_with, message_count, checkpoint_count; simpl.
  destruct (is_message r), (is_checkpoint r); simpl;
    rewrite ?Nat.add_0_r; f_equal; try lia;
    destruct fm; try reflexivity; destruct (record_preview host r); reflexivity.
Qed.

Lemma process_record_summary (info : SessionInfo) (d : list (string * json)) :
  process_record host info (JObj d) = Ok (summary_with host info [JObj d]).
Proof.
  destruct info as [t m c fm cur].
  unfold process_record, summary_with, message_count, checkpoint_count; simpl.
  unfold record_preview, is_message, is_user, is_checkpoint, record_role.
  set (role := Dict.get "role" d).
  destruct (role_is role "_checkpoint") eqn:Hc.
  - rewrite (role_is_exclusive role "_checkpoint" "user") by (discriminate || assumption).
    rewrite (role_is_exclusive role "_checkpoint" "assistant") by (discriminate || assumption).
    simpl. rewrite Nat.add_0_r, Nat.add_1_r. now destruct fm.
  - destruct (role_is role "user") eqn:Hu; simpl.
    + rewrite Nat.add_0_r, Nat.add_1_r.
      destruct fm as [p|]; simpl; [reflexivity|].
      unfold normalized_text, content_text, truthy.
      destruct (Dict.get "content" d) as [content|]; [|reflexivity].
      destruct content as [| b | z | l | s | items | fields]; simpl.
      * reflexivity.
      * destruct b; reflexivity.
      * destruct (z =? 0)%Z; reflexivity.
      * destruct (float_truthy host l); reflexivity.
      * destruct (String.eqb s EmptyString); simpl; [reflexivity|].
        destruct (is_system_wrapped s); reflexivity.
      * destruct items as [|first_part items]; [reflexivity|].
        destruct first_part as [| | | | s | |part]; simpl; try reflexivity.
        -- destruct (is_system_wrapped s); reflexivity.
        -- destruct (Dict.get "text" part) as [x|]; simpl; [|reflexivity].
           destruct (is_system_wrapped (py_str host x)); reflexivity.
      * destruct fields; reflexivity.
    + destruct (role_is role "assistant") eqn:Ha; simpl.
      * rewrite Nat.add_0_r, Nat.add_1_r. now destruct fm.
      * rewrite !Nat.add_0_r. now destruct fm.
Qed.
Lemma scan_lines_summary (lines : list string) :
  forall info,
    fst (scan_lines host info lines)
    = summary_with host info (records_before_failure lines).
Proof.
  induction lines as [|line lines IH]; intros info;
    cbn [scan_lines records_before_failure].
  - now rewrite summary_with_nil.
  - destruct (String.eqb (Str.strip line) EmptyString); [apply IH|].
    destruct (Json.loads (Str.strip line)) as [data|];
      [|now rewrite summary_with_nil].
    destruct data as [| | | | | |d]; try (now rewrite summary_with_nil).
    rewrite process_record_summary, IH. apply summary_with_cons.
Qed.

Lemma get_session_info_summary (f : File) :
  _get_session_info host f
  = summary_with host (initial_info f) (records_before_failure (Fs.lines f)).
Proof.
  unfold _get_session_info. apply scan_lines_summary.
Qed.

End SummaryFacts.

(** ** The catalog *)

Section CatalogFacts.

Variable host : Host.

Lemma insert_desc_perm (x : entry) (l : list entry) :
  Permutation (insert_desc x l) (x :: l).
Proof.
  induction l as [|y l IH]; simpl; [reflexivity|].
  destruct (timestamp (snd y) <=? timestamp (snd x))%Z; [reflexivity|].
  rewrite IH. apply perm_swap.
Qed.

Lemma sort_desc_perm (l : list entry) : Permutation (sort_desc l) l.
Proof.
  induction l as [|x l IH]; simpl; [reflexivity|].
  rewrite insert_desc_perm. now constructor.
Qed.

Lemma sort_desc_in (l : list entry) (x : entry) : In x (sort_desc l) <-> In x l.
Proof.
  split; apply Permutation_in; [|symmetry]; apply sort_desc_perm.
Qed.

Lemma collect_sessions_in (wdm : WorkDirMeta) (globbed : list (Path * File))
  (sid : string) (file : Path) (info : SessionInfo) :
  In (sid, file, info) (collect_sessions host wdm globbed)
  <-> exists f,
      In (file, f) globbed
      /\ Str.contains "_" (Pathlib.stem file) = false
      /\ sid = Pathlib.stem file
      /\ info = set_is_current (_get_session_info host f) (is_last_session wdm sid).
Proof.
  induction globbed as [|[p g] globbed IH]; simpl.
  - split; [intros []|intros [f [[] _]]].
  - destruct (Str.contains "_" (Pathlib.stem p)) eqn:E.
    + rewrite IH. split.
      * intros [f [Hin H]]. exists f. tauto.
      * intros [f [[Heq|Hin] [Hc H]]]; [|exists f; tauto].
        inversion Heq; subst. congruence.
    + simpl. rewrite IH. split.
      * intros [Heq|[f [Hin H]]]; [|exists f; tauto].
        inversion Heq; subst. exists g. auto.
      * intros [f [[Heq|Hin] [Hc [Hs Hi]]]]; [|right; exists f; tauto].
        inversion Heq; subst. now left.
Qed.

Lemma glob_jsonl_in (fs : FS) (dir file : Path) (f : File) :
  In (file, f) (Fs.glob_jsonl fs dir)
  <-> In (file, f) (files fs)
      /\ Pathlib.parent file = dir
      /\ file <> []
      /\ Str.endswith ".jsonl" (Pathlib.name file) = true.
Proof.
  unfold Fs.glob_jsonl. rewrite filter_In. simpl.
  rewrite !andb_true_iff, negb_true_iff. unfold Pathlib.eqb.
  destruct (list_eq_dec string_dec (Pathlib.parent file) dir);
    destruct (list_eq_dec string_dec file []); intuition congruence.
Qed.

(** What [list_sessions] returns once the registry is loaded and holds the
    working directory. *)
Lemma list_sessions_found (work_dir : Path) (fs : FS) (m : Metadata) (wdm : WorkDirMeta) :
  load_metadata host fs = Ok m ->
  find_work_dir m work_dir = Some wdm ->
  list_sessions host work_dir fs
  = (Ok (sort_desc
           (collect_sessions host wdm (Fs.glob_jsonl fs (sessions_dir_path host wdm)))),
     Fs.mkdir_p (sessions_dir_path host wdm) fs).
Proof.
  intros Hm Hf. unfold list_sessions. rewrite Hm, Hf. reflexivity.
Qed.

Lemma list_sessions_cases (work_dir : Path) (fs : FS) (sessions : list entry) (fs' : FS) :
  list_sessions host work_dir fs = (Ok sessions, fs') ->
  sessions = []
  \/ exists m wdm,
      load_metadata host fs = Ok m
      /\ find_work_dir m work_dir = Some wdm
      /\ sessions
         = sort_desc
             (collect_sessions host wdm (Fs.glob_jsonl fs (sessions_dir_path host wdm))).
Proof.
  unfold list_sessions.
  destruct (load_metadata host fs) as [m|e]; [|discriminate].
  destruct (find_work_dir m work_dir) as [wdm|] eqn:Hf.
  - simpl. intros H. inversion H; subst. right. exists m, wdm. auto.
  - intros H. inversion H. now left.
Qed.

End CatalogFacts.

(** C1. Every entry [list_sessions] returns comes from a file of the
    namespace directory of the working directory, whose name ends in
    [.jsonl] and whose stem holds no underscore, and its session id is that
    stem; a file whose stem holds an underscore is the file of no entry,
    whatever it contains. *)
Theorem list_sessions_skips_backups
  (host : Host) (work_dir : Path) (fs : FS) (sessions : list entry) (fs' : FS) :
  list_sessions host work_dir fs = (Ok sessions, fs') ->
  (forall sid file info,
      In (sid, file, info) sessions ->
      (exists f, In (file, f) (files fs))
      /\ (exists wdm,
            path wdm = Pathlib.str work_dir
            /\ Pathlib.parent file = sessions_dir_path host wdm)
      /\ Str.endswith ".jsonl" (Pathlib.name file) = true
      /\ Str.contains "_" (Pathlib.stem file) = false
      /\ sid = Pathlib.stem file)
  /\ (forall file,
        Str.contains "_" (Pathlib.stem file) = true ->
        ~ In file (map (fun e : entry => snd (fst e)) sessions)).
Proof.
  intros H.
  assert (Hall : forall sid file info,
             In (sid, file, info) sessions ->
             (exists f, In (file, f) (files fs))
             /\ (exists wdm,
                   path wdm = Pathlib.str work_dir
                   /\ Pathlib.parent file = sessions_dir_path host wdm)
             /\ Str.endswith ".jsonl" (Pathlib.name file) = true
             /\ Str.contains "_" (Pathlib.stem file) = false
             /\ sid = Pathlib.stem file).
  { destruct (list_sessions_cases host _ _ _ _ H) as [->|[m [wdm [_ [Hfind ->]]]]].
    - intros ? ? ? [].
    - intros sid file info Hin.
      apply sort_desc_in, collect_sessions_in in Hin.
      destruct Hin as [f [Hg [Hc [Hs _]]]].
      apply glob_jsonl_in in Hg. destruct Hg as [Hf [Hp [_ He]]].
      apply find_some in Hfind. destruct Hfind as [_ Hpath].
      apply String.eqb_eq in Hpath.
      repeat split; eauto. }
  split; [exact Hall|].
  intros file Hc Hin. apply in_map_iff in Hin.
  destruct Hin as [[[sid file'] info] [Heq Hin]]. simpl in Heq. subst file'.
  destruct (Hall _ _ _ Hin) as [_ [_ [_ [Hc' _]]]]. congruence.
Qed.

(** The backup [abc_1.jsonl] of the example installation is not listed. *)
Lemma list_sessions_skips_backups_witness :
  ~ In (Pathlib.joinpath example_namespace "abc_1.jsonl")
       (map (fun e : entry => snd (fst e))
            (sessions_of (list_sessions example_host example_work_dir example_fs))).
Proof.
  assert (H : list_sessions example_host example_work_dir example_fs
              = (Ok (sessions_of (list_sessions example_host example_work_dir example_fs)),
                 snd (list_sessions example_host example_work_dir example_fs)))
    by (vm_compute; reflexivity).
  exact (proj2 (list_sessions_skips_backups _ _ _ _ _ H)
               (Pathlib.joinpath example_namespace "abc_1.jsonl") eq_refl).
Defined.

(** ** Damaged sessions and previews *)

Lemma records_before_failure_stop (pre post : list string) (bad : string) :
  forallb (fun l => negb (fails_to_decode l)) pre = true ->
  fails_to_decode bad = true ->
  records_before_failure (pre ++ bad :: post) = records_before_failure pre.
Proof.
  intros Hpre Hbad. induction pre as [|line pre IH]; simpl.
  - unfold fails_to_decode in Hbad. apply andb_true_iff in Hbad.
    destruct Hbad as [Hne Hbad]. apply negb_true_iff in Hne. rewrite Hne.
    destruct (Json.loads (Str.strip bad)) as [[]|]; try reflexivity; discriminate.
  - simpl in Hpre. apply andb_true_iff in Hpre. destruct Hpre as [_ Hpre].
    destruct (String.eqb (Str.strip line) EmptyString); [auto|].
    destruct (Json.loads (Str.strip line)) as [[]|]; try reflexivity.
    now rewrite IH.
Qed.

Lemma list_sessions_raises (host : Host) (work_dir : Path) (fs : FS) (e : exn) :
  fst (list_sessions host work_dir fs) = Raise e -> load_metadata host fs = Raise e.
Proof.
  unfold list_sessions. destruct (load_metadata host fs) as [m|e']; simpl.
  - destruct (find_work_dir m work_dir); simpl; discriminate.
  - congruence.
Qed.

Lemma list_sessions_lists_live (host : Host) (work_dir : Path) (fs : FS)
  (m : Metadata) (wdm : WorkDirMeta) (file : Path) (g : File) :
  load_metadata host fs = Ok m ->
  find_work_dir m work_dir = Some wdm ->
  In (file, g) (Fs.glob_jsonl fs (sessions_dir_path host wdm)) ->
  Str.contains "_" (Pathlib.stem file) = false ->
  In (Pathlib.stem file, file,
      set_is_current (_get_session_info host g)
        (is_last_session wdm (Pathlib.stem file)))
     (sessions_of (list_sessions host work_dir fs)).
Proof.
  intros Hm Hf Hg Hc.
  rewrite (list_sessions_found host _ _ _ _ Hm Hf). unfold sessions_of. simpl.
  apply sort_desc_in, collect_sessions_in. exists g. auto.
Qed.

(** C2, as the code has it. In a session file that holds text, when a
    line is not the JSON text of a record, the exception is caught and the
    summary is the one of the records before that line: their message
    count, their checkpoint count and their preview, all zero and absent
    when no record comes before. The listing goes on: [list_sessions]
    raises only when the registry cannot be loaded, and it has an entry for
    every live file of the namespace, damaged or not. *)
Theorem summary_of_damaged_session
  (host : Host) (f : File) (pre post : list string) (bad : string) :
  Utf8.valid (content f) = true ->
  Fs.lines f = (pre ++ bad :: post)%list ->
  forallb (fun l => negb (fails_to_decode l)) pre = true ->
  fails_to_decode bad = true ->
  _get_session_info host f
  = summary_with host (initial_info f) (records_before_failure pre)
  /\ (records_before_failure pre = [] ->
      num_messages (_get_session_info host f) = 0
      /\ num_checkpoints (_get_session_info host f) = 0
      /\ first_message (_get_session_info host f) = None)
  /\ (forall work_dir fs e,
        fst (list_sessions host work_dir fs) = Raise e -> load_metadata host fs = Raise e)
  /\ (forall work_dir fs m wdm file g,
        load_metadata host fs = Ok m ->
        find_work_dir m work_dir = Some wdm ->
        In (file, g) (Fs.glob_jsonl fs (sessions_dir_path host wdm)) ->
        Str.contains "_" (Pathlib.stem file) = false ->
        In (Pathlib.stem file, file,
            set_is_current (_get_session_info host g)
              (is_last_session wdm (Pathlib.stem file)))
           (sessions_of (list_sessions host work_dir fs))).
Proof.
  intros _ Hlines Hpre Hbad.
  assert (Hsum : _get_session_info host f
                 = summary_with host (initial_info f) (records_before_failure pre)).
  { rewrite get_session_info_summary, Hlines. f_equal.
    now apply records_before_failure_stop. }
  split; [exact Hsum|split; [|split]].
  - intros Hnil. rewrite Hsum, Hnil. now rewrite summary_with_nil.
  - intros work_dir fs e. apply list_sessions_raises.
  - intros work_dir fs m wdm file g. apply list_sessions_lists_live.
Qed.

(** The damaged session of the example: its summary is the one of the
    record before the damaged line. *)
Lemma summary_of_damaged_session_witness :
  _get_session_info example_host damaged_session
  = summary_with example_host (initial_info damaged_session)
      (records_before_failure
         [ String.append (Str.q "{'role': 'user', 'content': 'hi'}")
             (String Str.newline EmptyString) ]).
Proof.
  refine (proj1 (summary_of_damaged_session example_host damaged_session
                   [ String.append (Str.q "{'role': 'user', 'content': 'hi'}")
                       (String Str.newline EmptyString) ]
                   [] "garbage" _ _ _ _)).
  - vm_compute. reflexivity.
  - vm_compute. reflexivity.
  - vm_compute. reflexivity.
  - vm_compute. reflexivity.
Defined.

(** C2, as stated, fails: a session whose second record is damaged keeps
    the message count and the preview of its first record. *)
Lemma damaged_session_keeps_counts :
  Utf8.valid (content damaged_session) = true
  /\ existsb fails_to_decode (Fs.lines damaged_session) = true
  /\ num_messages (_get_session_info example_host damaged_session) = 1
  /\ first_message (_get_session_info example_host damaged_session) = Some "hi".
Proof.
  vm_compute. repeat split.
Qed.

Lemma len_app (a b : string) : Str.len (a ++ b) = Str.len a + Str.len b.
Proof.
  induction a as [|c a IH]; cbn [String.append Str.len]; [reflexivity|].
  destruct (Str.is_continuation c); lia.
Qed.

Lemma lstrip_suffix (n : nat) :
  forall s, String.length s <= n -> exists pre, s = pre ++ Str.lstrip s.
Proof.
  induction n as [|n IH]; intros s Hn.
  - destruct s; [now exists EmptyString|simpl in Hn; lia].
  - destruct s as [|a s1]; [now exists EmptyString|].
    cbn [String.length] in Hn. cbn [Str.lstrip].
    destruct (Str.space1 (Str.ord a)).
    { destruct (IH s1) as [pre Hpre]; [lia|].
      exists (String a pre). cbn [String.append]. now rewrite <- Hpre. }
    destruct s1 as [|b s2]; [now exists EmptyString|].
    cbn [String.length] in Hn.
    destruct (Str.space2 (Str.ord a) (Str.ord b)).
    { destruct (IH s2) as [pre Hpre]; [lia|].
      exists (String a (String b pre)). cbn [String.append]. now rewrite <- Hpre. }
    destruct s2 as [|c s3]; [now exists EmptyString|].
    cbn [String.length] in Hn.
    destruct (Str.space3 (Str.ord a) (Str.ord b) (Str.ord c)); [|now exists EmptyString].
    destruct (IH s3) as [pre Hpre]; [lia|].
    exists (String a (String b (String c pre))). cbn [String.append]. now rewrite <- Hpre.
Qed.

Lemma rstrip_prefix (s : string) : exists post, s = Str.rstrip s ++ post.
Proof.
  induction s as [|c s [post IH]]; [now exists EmptyString|].
  cbn [Str.rstrip]. destruct (String.eqb (Str.lstrip (String c s)) EmptyString).
  - now exists (String c s).
  - exists post. cbn [String.append]. now rewrite <- IH.
Qed.

Lemma lstrip_len (s : string) : Str.len (Str.lstrip s) <= Str.len s.
Proof.
  destruct (lstrip_suffix (String.length s) s (le_n _)) as [pre H].
  rewrite H at 2. rewrite len_app. lia.
Qed.

Lemma rstrip_len (s : string) : Str.len (Str.rstrip s) <= Str.len s.
Proof.
  destruct (rstrip_prefix s) as [post H]. rewrite H at 2. rewrite len_app. lia.
Qed.

Lemma strip_len (s : string) : Str.len (Str.strip s) <= Str.len s.
Proof.
  unfold Str.strip. etransitivity; [apply rstrip_len|apply lstrip_len].
Qed.

Lemma prefix_len (n : nat) (s : string) : Str.len (Str.prefix n s) <= n.
Proof.
  revert n. induction s as [|c s IH]; intros n; cbn [Str.prefix Str.len]; [lia|].
  destruct (Str.is_continuation c) eqn:E.
  - cbn [Str.len]. rewrite E. apply IH.
  - destruct n as [|n]; cbn [Str.len]; [lia|]. rewrite E. specialize (IH n). lia.
Qed.

Lemma take_length (n : nat) (s : string) : String.length (Str.take n s) <= n.
Proof.
  revert s. induction n as [|n IH]; intros [|c s]; simpl; try lia.
  specialize (IH s). lia.
Qed.

Lemma record_preview_length (host : Host) (data : json) (p : string) :
  record_preview host data = Some p -> Str.len p <= 50.
Proof.
  unfold record_preview. destruct (is_user data); [|discriminate].
  destruct (normalized_text host data) as [text|]; [|discriminate].
  destruct (is_system_wrapped text); [discriminate|].
  pose proof (prefix_len 50 text) as Ht.
  set (cut := Str.prefix 50 text) in *. clearbody cut.
  intros [= <-]. pose proof (strip_len cut). lia.
Qed.

Lemma preview_text_length (host : Host) (records : list json) (p : string) :
  preview_text host records = Some p -> Str.len p <= 50.
Proof.
  induction records as [|data records IH]; simpl; [discriminate|].
  destruct (record_preview host data) as [p'|] eqn:E; [|exact IH].
  intros [= <-]. eapply record_preview_length; eassumption.
Qed.

(** C6. The preview of a session file is the preview of the first of its
    records (those decoded before any failure) that is a user message with
    a text not wrapped in the system markers; that preview is the text cut
    to 50 characters and stripped, so at most 50 characters long. A content
    string that starts with [<system>] and ends with [</system>] gives no
    preview, and the search goes on with the next record; the content
    [[{"text": "hello"}]] gives [hello]. Characters are counted, not bytes,
    and a text written with escapes is the text they denote. *)
Theorem preview_of_session (host : Host) :
  (forall f,
      first_message (_get_session_info host f)
      = preview_text host (records_before_failure (Fs.lines f)))
  /\ (forall text,
        record_preview host (user_message (JStr text))
        = if String.eqb text EmptyString || is_system_wrapped text then None
          else Some (Str.strip (Str.prefix 50 text)))
  /\ (forall x rest,
        preview_text host
          (user_message (JStr (String.append "<system>" (String.append x "</system>")))
           :: rest)
        = preview_text host rest)
  /\ record_preview host (user_message (JArr [JObj [("text", JStr "hello")]])) = Some "hello"
  /\ (forall f p,
        first_message (_get_session_info host f) = Some p -> Str.len p <= 50)
  /\ (forall t,
        first_message
          (_get_session_info host
             (session_file_of
                [ Str.q "{'role': 'user', 'content': '<system>x</system>'}";
                  Str.q "{'role': 'user', 'content': [{'text': 'hello'}]}" ] t))
        = Some "hello")
  /\ (forall t,
        first_message
          (_get_session_info host
             (session_file_of
                [ Str.q "{'role': 'user', 'content': 'A very long message, one that does not fit the preview column'}" ] t))
        = Some "A very long message, one that does not fit the pre")
  /\ (forall t,
        first_message
          (_get_session_info host
             (session_file_of [ Str.q "{'role': 'user', 'content': '\u4f60\u597d'}" ] t))
        = Some (Str.utf8 20320 ++ Str.utf8 22909))
  /\ (forall t,
        first_message
          (_get_session_info host
             (session_file_of
                [ Str.q "{'role': 'user', 'content': '"
                  ++ String.concat EmptyString (List.repeat (Str.utf8 20320) 60)
                  ++ Str.q "'}" ] t))
        = Some (String.concat EmptyString (List.repeat (Str.utf8 20320) 50))).
Proof.
  split; [|split; [|split; [|split; [|split; [|split; [|split; [|split]]]]]]].
  - intros f. rewrite get_session_info_summary. reflexivity.
  - intros text. unfold record_preview, user_message.
    cbn -[Str.prefix Str.strip is_system_wrapped].
    destruct (String.eqb text EmptyString); cbn [negb orb]; [reflexivity|].
    destruct (is_system_wrapped text); reflexivity.
  - intros x rest.
    assert (Hw : is_system_wrapped (String.append "<system>" (String.append x "</system>"))
                 = true).
    { unfold is_system_wrapped. apply andb_true_iff. split; [reflexivity|].
      simpl. clear. induction x as [|c x IH]; [reflexivity|].
      simpl. simpl in IH. rewrite IH. apply orb_true_r. }
    cbn [preview_text]. unfold record_preview, user_message at 1. simpl.
    simpl in Hw. now rewrite Hw.
  - reflexivity.
  - intros f p. rewrite get_session_info_summary. simpl.
    apply preview_text_length.
  - intros t. vm_compute. reflexivity.
  - intros t. vm_compute. reflexivity.
  - intros t. vm_compute. reflexivity.
  - intros t. vm_compute. reflexivity.
Qed.

(** The preview of the live session of the example fits the column. *)
Lemma preview_of_session_witness : Str.len "hello" <= 50.
Proof.
  refine (proj1 (proj2 (proj2 (proj2 (proj2 (preview_of_session example_host)))))
            (session_file_of [ Str.q "{'role': 'user', 'content': [{'text': 'hello'}]}" ] 0)
            "hello" _).
  vm_compute. reflexivity.
Defined.

(** ** The namespace of a working directory *)

Lemma path_eqb_eq (p q : Path) : Pathlib.eqb p q = true <-> p = q.
Proof.
  unfold Pathlib.eqb. destruct (list_eq_dec string_dec p q); intuition discriminate.
Qed.

Lemma path_eqb_refl (p : Path) : Pathlib.eqb p p = true.
Proof. now apply path_eqb_eq. Qed.

Lemma existsb_path (p : Path) (ds : list Path) :
  existsb (Pathlib.eqb p) ds = true <-> In p ds.
Proof.
  rewrite existsb_exists. split.
  - intros [x [Hin Heq]]. apply path_eqb_eq in Heq. now subst.
  - intros Hin. exists p. split; [assumption|apply path_eqb_refl].
Qed.

Lemma add_dir_present (p : Path) (ds : list Path) : In p ds -> Fs.add_dir p ds = ds.
Proof.
  intros Hin. unfold Fs.add_dir. apply existsb_path in Hin. now rewrite Hin.
Qed.

Lemma add_dir_in (p x : Path) (ds : list Path) :
  In x (Fs.add_dir p ds) <-> x = p \/ In x ds.
Proof.
  unfold Fs.add_dir. destruct (existsb (Pathlib.eqb p) ds) eqn:E.
  - apply existsb_path in E. intuition (subst; auto).
  - rewrite in_app_iff. simpl. intuition.
Qed.

Section MkdirFacts.

Variable p : Path.

Let step (ds : list Path) (k : nat) : list Path := Fs.add_dir (firstn k p) ds.

Lemma mkdir_fold_keeps (ks : list nat) :
  forall ds x, In x ds -> In x (fold_left step ks ds).
Proof.
  induction ks as [|k ks IH]; simpl; intros ds x Hin; [assumption|].
  apply IH. apply add_dir_in. now right.
Qed.

Lemma mkdir_fold_makes (ks : list nat) :
  forall ds k, In k ks -> In (firstn k p) (fold_left step ks ds).
Proof.
  induction ks as [|k0 ks IH]; simpl; intros ds k Hin; [contradiction|].
  destruct Hin as [->|Hin].
  - apply mkdir_fold_keeps. apply add_dir_in. now left.
  - now apply IH.
Qed.

Lemma mkdir_fold_present (ks : list nat) :
  forall ds, (forall k, In k ks -> In (firstn k p) ds) -> fold_left step ks ds = ds.
Proof.
  induction ks as [|k ks IH]; simpl; intros ds H; [reflexivity|].
  unfold step at 2. rewrite add_dir_present by auto. apply IH. auto.
Qed.

Lemma mkdir_p_idempotent (fs : FS) : Fs.mkdir_p p (Fs.mkdir_p p fs) = Fs.mkdir_p p fs.
Proof.
  unfold Fs.mkdir_p. simpl. f_equal.
  apply mkdir_fold_present. intros k Hk. now apply mkdir_fold_makes.
Qed.

End MkdirFacts.

Lemma byte_of_hex_of_byte (b : byte) : byte_of_hex (Md5.hex_of_byte b) = Some b.
Proof. destruct b; reflexivity. Qed.

Lemma hex_injective (bs1 bs2 : bytes) : Md5.hex bs1 = Md5.hex bs2 -> bs1 = bs2.
Proof.
  revert bs2. induction bs1 as [|b1 bs1 IH]; intros [|b2 bs2]; simpl;
    try reflexivity; try discriminate.
  intros H. injection H as H1 H2 H3.
  assert (Hb : Md5.hex_of_byte b1 = Md5.hex_of_byte b2).
  { unfold Md5.hex_of_byte. now rewrite H1, H2. }
  apply (f_equal byte_of_hex) in Hb. rewrite !byte_of_hex_of_byte in Hb.
  injection Hb as ->. f_equal. auto.
Qed.

Lemma encode_injective (s1 s2 : string) : encode s1 = encode s2 -> s1 = s2.
Proof.
  revert s2. induction s1 as [|c1 s1 IH]; intros [|c2 s2] H;
    try reflexivity; try discriminate H.
  cbn [encode] in H. injection H as Hc H.
  apply (f_equal ascii_of_byte) in Hc. rewrite !ascii_of_byte_of_ascii in Hc.
  subst c2. f_equal. auto.
Qed.

Lemma sessions_dir_path_digest (host : Host) (wd1 wd2 : WorkDirMeta) :
  sessions_dir_path host wd1 = sessions_dir_path host wd2
  <-> Md5.digest (encode (path wd1)) = Md5.digest (encode (path wd2)).
Proof.
  unfold sessions_dir_path, Pathlib.joinpath, Md5.hexdigest. split.
  - intros H. apply app_inv_head in H. injection H as H. now apply hex_injective.
  - intros H. now rewrite H.
Qed.

(** C8. The namespace directory is a function of the path string alone:
    two evaluations for the same record give the same directory, whatever
    the file system holds, and the second one changes nothing; records with
    equal path strings have the same directory. Two records share a
    directory exactly when the MD5 digests of their encoded paths are equal,
    and distinct paths have distinct encodings: distinct paths share a
    directory only on a collision of the hash. *)
Theorem namespace_of_path (host : Host) :
  (forall wd fs,
      sessions_dir host wd (snd (sessions_dir host wd fs)) = sessions_dir host wd fs)
  /\ (forall wd fs1 fs2,
        fst (sessions_dir host wd fs1) = fst (sessions_dir host wd fs2))
  /\ (forall wd1 wd2,
        path wd1 = path wd2 -> sessions_dir_path host wd1 = sessions_dir_path host wd2)
  /\ (forall wd1 wd2,
        sessions_dir_path host wd1 = sessions_dir_path host wd2
        <-> Md5.digest (encode (path wd1)) = Md5.digest (encode (path wd2)))
  /\ (forall p1 p2, encode p1 = encode p2 -> p1 = p2)
  /\ sessions_dir_path host {| path := "/home/u/proj"; last_session_id := None |}
     <> sessions_dir_path host {| path := "/home/u/proj2"; last_session_id := None |}.
Proof.
  split; [|split; [|split; [|split; [|split]]]].
  - intros wd fs. unfold sessions_dir. simpl. f_equal. apply mkdir_p_idempotent.
  - reflexivity.
  - intros wd1 wd2 H. unfold sessions_dir_path. now rewrite H.
  - apply sessions_dir_path_digest.
  - apply encode_injective.
  - rewrite sessions_dir_path_digest. vm_compute. discriminate.
Qed.

(** Two records of one path, with different last sessions, share their
    namespace. *)
Lemma namespace_of_path_witness :
  sessions_dir_path example_host {| path := "/home/u/proj"; last_session_id := Some "abc" |}
  = sessions_dir_path example_host {| path := "/home/u/proj"; last_session_id := None |}.
Proof.
  exact (proj1 (proj2 (proj2 (namespace_of_path example_host)))
           {| path := "/home/u/proj"; last_session_id := Some "abc" |}
           {| path := "/home/u/proj"; last_session_id := None |} eq_refl).
Defined.

(** ** Strings *)

Lemma str_app_assoc (a b c : string) : (a ++ b) ++ c = a ++ (b ++ c).
Proof. induction a as [|x a IH]; simpl; [reflexivity|now rewrite IH]. Qed.

Lemma str_app_nil_r (a : string) : a ++ "" = a.
Proof. induction a as [|x a IH]; simpl; [reflexivity|now rewrite IH]. Qed.

(** ** The scanner on the output of [dumps] *)

Lemma lex_escape_char (c : ascii) (acc : string) (ts : list Json.token) (rest : string) :
  Json.lex_from (Json.LStr acc) ts (Json.escape_char c ++ rest)
  = Json.lex_from (Json.LStr (Json.snoc acc c)) ts rest.
Proof.
  destruct c as [[] [] [] [] [] [] [] []]; reflexivity.
Qed.

Lemma lex_escape (s : string) :
  forall acc ts rest,
    Json.lex_from (Json.LStr acc) ts (Json.escape s ++ String Str.dquote rest)
    = Json.lex_from Json.LStart (Json.TStr (acc ++ s) :: ts) rest.
Proof.
  induction s as [|c s IH]; intros acc ts rest.
  - simpl. now rewrite str_app_nil_r.
  - cbn [Json.escape]. rewrite str_app_assoc, lex_escape_char, IH.
    unfold Json.snoc. now rewrite str_app_assoc.
Qed.

Lemma lex_dump_string (s : string) (ts : list Json.token) (rest : string) :
  Json.lex_from Json.LStart ts (Json.dump_string s ++ rest)
  = Json.lex_from Json.LStart (Json.TStr s :: ts) rest.
Proof.
  unfold Json.dump_string. cbn [String.append].
  rewrite str_app_assoc. cbn [String.append].
  change (Json.lex_from Json.LStart ts (String Str.dquote (Json.escape s ++ String Str.dquote rest)))
    with (Json.lex_from (Json.LStr "") ts (Json.escape s ++ String Str.dquote rest)).
  apply lex_escape.
Qed.

Lemma lex_spaces (n : nat) (ts : list Json.token) (rest : string) :
  Json.lex_from Json.LStart ts (Str.repeat " " n ++ rest)
  = Json.lex_from Json.LStart ts rest.
Proof. induction n as [|n IH]; simpl; auto. Qed.

Lemma lex_newline_indent (level : nat) (ts : list Json.token) (rest : string) :
  Json.lex_from Json.LStart ts (Json.newline_indent level ++ rest)
  = Json.lex_from Json.LStart ts rest.
Proof. unfold Json.newline_indent. cbn [String.append]. apply lex_spaces. Qed.

Ltac lex_steps :=
  repeat first
    [ rewrite lex_dump_string
    | rewrite lex_newline_indent
    | rewrite str_app_assoc
    | progress cbn -[Json.dump_string Json.newline_indent Json.escape Json.lex_from]
    | progress cbn [Json.lex_from Json.lex_step Json.start_char rev_append String.append] ].

Lemma lex_item (wd : WorkDirMeta) (level : nat) (ts : list Json.token) (rest : string) :
  Json.lex_from Json.LStart ts (Json.dump level (WorkDirMeta_dump wd) ++ rest)
  = Json.lex_from Json.LStart (rev_append (item_tokens wd) ts) rest.
Proof.
  destruct wd as [p [s|]]; unfold WorkDirMeta_dump, item_tokens; lex_steps; reflexivity.
Qed.

Lemma rev_append_app {A : Type} (a b c : list A) :
  rev_append (a ++ b) c = rev_append b (rev_append a c).
Proof. revert c. induction a as [|x a IH]; simpl; auto. Qed.

Lemma join_cons2 (sep x y : string) (l : list string) :
  Str.join sep (x :: y :: l) = x ++ sep ++ Str.join sep (y :: l).
Proof. reflexivity. Qed.

Lemma lex_comma (ts : list Json.token) (s : string) :
  Json.lex_from Json.LStart ts (String "," s)
  = Json.lex_from Json.LStart (Json.TComma :: ts) s.
Proof. reflexivity. Qed.

Lemma lex_colon (ts : list Json.token) (s : string) :
  Json.lex_from Json.LStart ts (String ":" s)
  = Json.lex_from Json.LStart (Json.TColon :: ts) s.
Proof. reflexivity. Qed.

Lemma lex_space (ts : list Json.token) (s : string) :
  Json.lex_from Json.LStart ts (String " " s) = Json.lex_from Json.LStart ts s.
Proof. reflexivity. Qed.

Lemma lex_lbrace (ts : list Json.token) (s : string) :
  Json.lex_from Json.LStart ts (String "{" s)
  = Json.lex_from Json.LStart (Json.TLBrace :: ts) s.
Proof. reflexivity. Qed.

Lemma lex_rbrace (ts : list Json.token) (s : string) :
  Json.lex_from Json.LStart ts (String "}" s)
  = Json.lex_from Json.LStart (Json.TRBrace :: ts) s.
Proof. reflexivity. Qed.

Lemma lex_lbrack (ts : list Json.token) (s : string) :
  Json.lex_from Json.LStart ts (String "[" s)
  = Json.lex_from Json.LStart (Json.TLBrack :: ts) s.
Proof. reflexivity. Qed.

Lemma lex_rbrack (ts : list Json.token) (s : string) :
  Json.lex_from Json.LStart ts (String "]" s)
  = Json.lex_from Json.LStart (Json.TRBrack :: ts) s.
Proof. reflexivity. Qed.

Lemma dump_array_cons (level : nat) (x : json) (xs : list json) :
  Json.dump level (JArr (x :: xs))
  = "[" ++ Json.newline_indent (S level)
    ++ Str.join ("," ++ Json.newline_indent (S level)) (map (Json.dump (S level)) (x :: xs))
    ++ Json.newline_indent level ++ "]".
Proof. reflexivity. Qed.

Lemma dumps_model_dump (m : Metadata) :
  Json.dumps (model_dump m)
  = "{" ++ Json.newline_indent 1 ++ Json.dump_string "work_dirs" ++ ": "
    ++ Json.dump 1 (JArr (map WorkDirMeta_dump (work_dirs m)))
    ++ Json.newline_indent 0 ++ "}".
Proof. reflexivity. Qed.

Lemma lex_items (level : nat) (wds : list WorkDirMeta) :
  wds <> [] ->
  forall ts rest,
    Json.lex_from Json.LStart ts
      (Str.join (String "," (Json.newline_indent level))
         (map (Json.dump level) (map WorkDirMeta_dump wds)) ++ rest)
    = Json.lex_from Json.LStart (rev_append (items_tokens wds) ts) rest.
Proof.
  induction wds as [|wd wds IH]; intros Hne ts rest; [contradiction|].
  destruct wds as [|wd2 wds].
  - cbn [map Str.join items_tokens]. apply lex_item.
  - cbn [map] in *. rewrite join_cons2, !str_app_assoc, lex_item.
    cbn [String.append]. rewrite lex_comma, lex_newline_indent, IH by discriminate.
    change (items_tokens (wd :: wd2 :: wds))
      with (item_tokens wd ++ Json.TComma :: items_tokens (wd2 :: wds))%list.
    now rewrite rev_append_app.
Qed.

Create Rewrite HintDb lexdb.

#[local] Hint Rewrite str_app_assoc lex_dump_string lex_newline_indent lex_comma
  lex_colon lex_space lex_lbrace lex_rbrace lex_lbrack lex_rbrack : lexdb.

Lemma lex_registry (m : Metadata) :
  Json.lex (Json.dumps (model_dump m)) = registry_tokens m.
Proof.
  destruct m as [[|wd wds]]; [reflexivity|].
  unfold Json.lex. rewrite dumps_model_dump. cbn [work_dirs].
  cbn [map]. rewrite dump_array_cons.
  change (WorkDirMeta_dump wd :: map WorkDirMeta_dump wds)
    with (map WorkDirMeta_dump (wd :: wds)).
  repeat (autorewrite with lexdb; cbn [String.append]).
  rewrite lex_items by discriminate.
  repeat (autorewrite with lexdb; cbn [String.append]).
  cbn [Json.lex_from]. unfold registry_tokens. cbn [work_dirs].
  rewrite !rev_append_rev. cbn [rev app]. rewrite rev_app_distr, rev_involutive.
  cbn [rev app]. now rewrite <- !app_assoc.
Qed.

(** ** The parser on the tokens of a registry *)

Lemma parse_item (wd : WorkDirMeta) (fuel : nat) (rest : list Json.token) :
  Json.parse_value (4 + fuel) (item_tokens wd ++ rest)%list
  = Ok (WorkDirMeta_dump wd, rest).
Proof.
  destruct wd as [p [s|]]; reflexivity.
Qed.

Lemma parse_items_registry (wds : list WorkDirMeta) :
  wds <> [] ->
  forall fuel acc rest,
    List.length wds + 4 <= fuel ->
    Json.parse_items fuel acc (items_tokens wds ++ Json.TRBrack :: rest)%list
    = Ok (JArr (acc ++ map WorkDirMeta_dump wds), rest).
Proof.
  induction wds as [|wd wds IH]; intros Hne fuel acc rest Hfuel; [contradiction|].
  destruct fuel as [|fuel]; [simpl in Hfuel; lia|].
  assert (Hf : exists k, fuel = 4 + k) by (exists (fuel - 4); simpl in Hfuel; lia).
  destruct Hf as [k ->].
  destruct wds as [|wd2 wds].
  - cbn [items_tokens Json.parse_items]. rewrite parse_item. reflexivity.
  - change (items_tokens (wd :: wd2 :: wds))
      with (item_tokens wd ++ Json.TComma :: items_tokens (wd2 :: wds))%list.
    rewrite <- app_assoc. cbn [Json.parse_items]. rewrite parse_item.
    cbn [app]. rewrite IH; [|discriminate|simpl in *; lia].
    now rewrite <- app_assoc.
Qed.

Lemma items_tokens_length (wds : list WorkDirMeta) :
  List.length (items_tokens wds) = 10 * List.length wds - 1.
Proof.
  induction wds as [|wd [|wd2 wds] IH]; [reflexivity|reflexivity|].
  change (items_tokens (wd :: wd2 :: wds))
    with (item_tokens wd ++ Json.TComma :: items_tokens (wd2 :: wds))%list.
  rewrite length_app. cbn [List.length item_tokens] in *. lia.
Qed.

Lemma parse_array_registry (wds : list WorkDirMeta) (fuel : nat) (rest : list Json.token) :
  wds <> [] ->
  List.length wds + 4 <= fuel ->
  Json.parse_value (S fuel) (Json.TLBrack :: items_tokens wds ++ Json.TRBrack :: rest)%list
  = Ok (JArr (map WorkDirMeta_dump wds), rest).
Proof.
  intros Hne Hfuel.
  pose proof (parse_items_registry wds Hne fuel [] rest Hfuel) as H.
  cbn [app] in H. rewrite <- H.
  destruct wds as [|wd [|wd2 wds]]; [contradiction|reflexivity|reflexivity].
Qed.

Lemma parse_single_member (key : string) (fuel : nat) (ts : list Json.token)
  (v : json) (rest : list Json.token) :
  Json.parse_value fuel ts = Ok (v, Json.TRBrace :: rest) ->
  Json.parse_value (S (S fuel)) (Json.TLBrace :: Json.TStr key :: Json.TColon :: ts)
  = Ok (JObj [(key, v)], rest).
Proof.
  intros H. cbn [Json.parse_value Json.parse_members]. now rewrite H.
Qed.

Lemma parse_registry (m : Metadata) :
  Json.parse_value (2 * List.length (registry_tokens m) + 2) (registry_tokens m)
  = Ok (model_dump m, []).
Proof.
  destruct m as [[|wd wds]]; [reflexivity|].
  unfold registry_tokens, model_dump. cbn [work_dirs app].
  set (fuel := 2 * _ + 2).
  assert (Hf : exists k, fuel = 3 + k /\ List.length (wd :: wds) + 4 <= k).
  { exists (fuel - 3). subst fuel. cbn [List.length]. rewrite !length_app.
    rewrite items_tokens_length. cbn [List.length]. lia. }
  destruct Hf as [k [-> Hk]].
  apply parse_single_member. rewrite <- app_assoc. cbn [app].
  apply parse_array_registry; [discriminate|assumption].
Qed.

Lemma loads_dumps_registry (m : Metadata) :
  Json.loads (Json.dumps (model_dump m)) = Ok (model_dump m).
Proof.
  unfold Json.loads. cbv zeta. now rewrite lex_registry, parse_registry.
Qed.

(** ** Carriage returns *)

Lemma contains_app (c : ascii) (a b : string) :
  Str.contains c (a ++ b) = Str.contains c a || Str.contains c b.
Proof.
  induction a as [|x a IH]; simpl; [reflexivity|].
  now rewrite IH, orb_assoc.
Qed.

Lemma universal_newlines_id (s : string) :
  Str.contains Str.cr s = false -> Fs.universal_newlines s = s.
Proof.
  induction s as [|c s IH]; simpl; [reflexivity|].
  intros H. apply orb_false_iff in H. destruct H as [Hc Hs].
  rewrite Hc. now rewrite IH.
Qed.

Lemma no_cr_escape_char (c : ascii) : Str.contains Str.cr (Json.escape_char c) = false.
Proof. destruct c as [[] [] [] [] [] [] [] []]; reflexivity. Qed.

Lemma no_cr_escape (s : string) : Str.contains Str.cr (Json.escape s) = false.
Proof.
  induction s as [|c s IH]; simpl; [reflexivity|].
  now rewrite contains_app, no_cr_escape_char, IH.
Qed.

Lemma no_cr_dump_string (s : string) : Str.contains Str.cr (Json.dump_string s) = false.
Proof.
  unfold Json.dump_string. cbn [Str.contains].
  now rewrite contains_app, no_cr_escape.
Qed.

Lemma no_cr_newline_indent (level : nat) :
  Str.contains Str.cr (Json.newline_indent level) = false.
Proof.
  unfold Json.newline_indent. cbn [Str.contains].
  induction (2 * level) as [|n IH]; [reflexivity|exact IH].
Qed.

Lemma no_cr_join (sep : string) (l : list string) :
  Str.contains Str.cr sep = false ->
  Forall (fun x => Str.contains Str.cr x = false) l ->
  Str.contains Str.cr (Str.join sep l) = false.
Proof.
  intros Hsep. induction 1 as [|x l Hx Hl IH]; [reflexivity|].
  destruct l as [|y l]; [exact Hx|].
  rewrite join_cons2, !contains_app, Hx, Hsep, IH. reflexivity.
Qed.

Lemma contains_cons (c a : ascii) (s : string) :
  Str.contains c (String a s) = Ascii.eqb a c || Str.contains c s.
Proof. reflexivity. Qed.

Create Rewrite HintDb nocr.

#[local] Hint Rewrite contains_app contains_cons no_cr_dump_string
  no_cr_newline_indent : nocr.

Lemma no_cr_item (level : nat) (wd : WorkDirMeta) :
  Str.contains Str.cr (Json.dump level (WorkDirMeta_dump wd)) = false.
Proof.
  destruct wd as [p [s|]]; unfold WorkDirMeta_dump;
    cbn -[Json.dump_string Json.newline_indent Str.contains Str.cr];
    autorewrite with nocr; reflexivity.
Qed.

Lemma no_cr_registry (m : Metadata) :
  Str.contains Str.cr (Json.dumps (model_dump m)) = false.
Proof.
  destruct m as [[|wd wds]]; [reflexivity|].
  rewrite dumps_model_dump. cbn [work_dirs map]. rewrite dump_array_cons.
  autorewrite with nocr. rewrite no_cr_join; [reflexivity|now autorewrite with nocr|].
  change (WorkDirMeta_dump wd :: map WorkDirMeta_dump wds)
    with (map WorkDirMeta_dump (wd :: wds)).
  apply Forall_forall. intros x Hx.
  apply in_map_iff in Hx. destruct Hx as [j [<- Hj]].
  apply in_map_iff in Hj. destruct Hj as [w [<- _]]. apply no_cr_item.
Qed.

(** ** The registry document *)

Lemma validate_dumped_item (wd : WorkDirMeta) :
  WorkDirMeta_validate (WorkDirMeta_dump wd) = Some wd.
Proof. destruct wd as [p [s|]]; reflexivity. Qed.

Lemma validate_dumped_items (wds : list WorkDirMeta) :
  validate_items (map WorkDirMeta_dump wds) = Some wds.
Proof.
  induction wds as [|wd wds IH]; [reflexivity|].
  cbn [map validate_items]. now rewrite validate_dumped_item, IH.
Qed.

Lemma init_model_dump (m : Metadata) : Metadata_init (model_dump m) = Ok m.
Proof.
  destruct m as [wds]. unfold Metadata_init, model_dump. cbn [Dict.get String.eqb].
  cbn. now rewrite validate_dumped_items.
Qed.


(** ** Files *)

Lemma lookup_store_same (p : Path) (f : File) (l : list (Path * File)) :
  Fs.lookup p (Fs.store p f l) = Some f.
Proof.
  induction l as [|[q g] l IH]; simpl.
  - now rewrite path_eqb_refl.
  - destruct (Pathlib.eqb p q) eqn:E; simpl; rewrite E; auto.
Qed.

Lemma lookup_store_other (p q : Path) (f : File) (l : list (Path * File)) :
  p <> q -> Fs.lookup q (Fs.store p f l) = Fs.lookup q l.
Proof.
  intros Hne. induction l as [|[r g] l IH]; simpl.
  - destruct (Pathlib.eqb q p) eqn:E; [|reflexivity].
    apply path_eqb_eq in E. congruence.
  - destruct (Pathlib.eqb p r) eqn:E; simpl.
    + apply path_eqb_eq in E. subst r.
      destruct (Pathlib.eqb q p) eqn:E'; [|reflexivity].
      apply path_eqb_eq in E'. congruence.
    + now rewrite IH.
Qed.

Section WriteFacts.

Variable p : Path.

Lemma run_writes (text : string) :
  forall fs c,
    Fs.read fs p = Some {| content := c; mtime := clock fs |} ->
    Fs.read (Fs.run (map (Fs.Write p) (chunks text)) fs) p
    = Some {| content := c ++ text; mtime := clock fs |}
    /\ clock (Fs.run (map (Fs.Write p) (chunks text)) fs) = clock fs
    /\ dirs (Fs.run (map (Fs.Write p) (chunks text)) fs) = dirs fs
    /\ forall q, q <> p ->
         Fs.read (Fs.run (map (Fs.Write p) (chunks text)) fs) q = Fs.read fs q.
Proof.
  unfold Fs.run.
  induction text as [|a text IH]; intros fs c Hread; cbn [chunks map fold_left].
  - rewrite str_app_nil_r. auto.
  - set (fs1 := Fs.apply fs (Fs.Write p (String a EmptyString))).
    assert (H1 : Fs.read fs1 p
                 = Some {| content := c ++ String a EmptyString; mtime := clock fs1 |}
                 /\ clock fs1 = clock fs /\ dirs fs1 = dirs fs
                 /\ forall q, q <> p -> Fs.read fs1 q = Fs.read fs q).
    { subst fs1. unfold Fs.apply, Fs.write. rewrite Hread. unfold Fs.read. simpl.
      rewrite lookup_store_same. repeat split; auto.
      intros q Hq. apply lookup_store_other. congruence. }
    destruct H1 as [Hr1 [Hc1 [Hd1 Ho1]]].
    destruct (IH fs1 _ Hr1) as [Hr [Hc [Hd Ho]]].
    rewrite Hr, Hc, Hd, Hc1, Hd1, str_app_assoc. repeat split; auto.
    intros q Hq. rewrite Ho by assumption. auto.
Qed.

Lemma run_open_writes (text : string) (fs : FS) :
  Fs.read (Fs.run (Fs.OpenW p :: map (Fs.Write p) (chunks text)) fs) p
  = Some {| content := text; mtime := clock fs |}
  /\ clock (Fs.run (Fs.OpenW p :: map (Fs.Write p) (chunks text)) fs) = clock fs
  /\ dirs (Fs.run (Fs.OpenW p :: map (Fs.Write p) (chunks text)) fs) = dirs fs
  /\ forall q, q <> p ->
       Fs.read (Fs.run (Fs.OpenW p :: map (Fs.Write p) (chunks text)) fs) q = Fs.read fs q.
Proof.
  change (Fs.run (Fs.OpenW p :: map (Fs.Write p) (chunks text)) fs)
    with (Fs.run (map (Fs.Write p) (chunks text)) (Fs.open_w p fs)).
  assert (Hopen : Fs.read (Fs.open_w p fs) p
                  = Some {| content := EmptyString; mtime := clock (Fs.open_w p fs) |}).
  { unfold Fs.read, Fs.open_w. simpl. apply lookup_store_same. }
  destruct (run_writes text _ _ Hopen) as [Hr [Hc [Hd Ho]]].
  rewrite Hr, Hc, Hd. repeat split; auto.
  intros q Hq. rewrite Ho by assumption.
  unfold Fs.read, Fs.open_w. simpl. apply lookup_store_other. congruence.
Qed.

Lemma firstn_chunks (k : nat) (text : string) :
  firstn k (map (Fs.Write p) (chunks text)) = map (Fs.Write p) (chunks (Str.take k text)).
Proof.
  revert text. induction k as [|k IH]; intros [|a text]; simpl; try reflexivity.
  now rewrite IH.
Qed.

End WriteFacts.

(** ** Saving and loading the registry *)

Section RegistryFacts.

Variable host : Host.

Lemma save_metadata_read (m : Metadata) (fs : FS) :
  Fs.read (save_metadata host m fs) (get_metadata_file host)
  = Some {| content := Json.dumps (model_dump m); mtime := clock fs |}.
Proof. apply run_open_writes. Qed.

Lemma save_metadata_other (m : Metadata) (fs : FS) (q : Path) :
  q <> get_metadata_file host ->
  Fs.read (save_metadata host m fs) q = Fs.read fs q.
Proof. apply run_open_writes. Qed.

Lemma load_metadata_document (fs : FS) (f : File) (m : Metadata) :
  Fs.read fs (get_metadata_file host) = Some f ->
  content f = Json.dumps (model_dump m) ->
  load_metadata host fs = Ok m.
Proof.
  intros Hread Hc. unfold load_metadata, Fs.exists_. rewrite Hread. simpl.
  unfold Fs.read_text. rewrite Hc, universal_newlines_id by apply no_cr_registry.
  rewrite loads_dumps_registry. apply init_model_dump.
Qed.

Lemma load_save_metadata (m : Metadata) (fs : FS) :
  load_metadata host (save_metadata host m fs) = Ok m.
Proof.
  eapply load_metadata_document; [apply save_metadata_read|reflexivity].
Qed.

End RegistryFacts.



Lemma validate_record_shape (item : json) :
  (exists wd, WorkDirMeta_validate item = Some wd) <-> record_shape item.
Proof.
  unfold record_shape, WorkDirMeta_validate. split.
  - intros [wd H]. destruct item as [| | | | | |fields]; try discriminate.
    destruct (Dict.get "path" fields) as [[| | | |p| |]|] eqn:Hp; try discriminate.
    exists fields, p. split; [reflexivity|split; [exact Hp|]].
    destruct (Dict.get "last_session_id" fields) as [[| | | |s| |]|]; try discriminate; eauto.
  - intros [fields [p [-> [Hp Hl]]]]. rewrite Hp.
    destruct Hl as [->|[->|[s ->]]]; eauto.
Qed.

Lemma validate_items_shape (items : list json) :
  (exists wds, validate_items items = Some wds) <-> Forall record_shape items.
Proof.
  induction items as [|item items IH]; simpl.
  - split; [constructor|eauto].
  - split.
    + intros [wds H].
      destruct (WorkDirMeta_validate item) as [wd|] eqn:Hv; [|discriminate].
      destruct (validate_items items) as [wds'|]; [|discriminate].
      constructor; [apply validate_record_shape; eauto|apply IH; eauto].
    + intros H. inversion H as [|? ? Hi Hr]; subst.
      apply validate_record_shape in Hi. destruct Hi as [wd ->].
      apply IH in Hr. destruct Hr as [wds ->]. eauto.
Qed.

Lemma init_registry_shape (data : json) :
  (exists m, Metadata_init data = Ok m) <-> registry_shape data.
Proof.
  unfold registry_shape, Metadata_init. split.
  - intros [m H]. destruct data as [| | | | | |kwargs]; try discriminate.
    exists kwargs. split; [reflexivity|].
    destruct (Dict.get "work_dirs" kwargs) as [[| | | | |items|]|]; try discriminate; auto.
    right. exists items. split; [reflexivity|].
    apply validate_items_shape.
    destruct (validate_items items) as [wds|]; [eauto|discriminate].
  - intros [kwargs [-> [->|[items [-> Hall]]]]]; [eauto|].
    apply validate_items_shape in Hall. destruct Hall as [wds ->]. eauto.
Qed.

(** What the parser raises. *)
Lemma parse_raises (fuel : nat) :
  (forall ts e,
      Json.parse_value fuel ts = Raise e -> e = JSONDecodeError \/ e = ValueError)
  /\ (forall acc ts e,
        Json.parse_items fuel acc ts = Raise e -> e = JSONDecodeError \/ e = ValueError)
  /\ (forall acc ts e,
        Json.parse_members fuel acc ts = Raise e -> e = JSONDecodeError \/ e = ValueError).
Proof.
  induction fuel as [|fuel [IHv [IHi IHm]]].
  - repeat split; intros; cbn in *; left; congruence.
  - split; [|split].
    + intros ts e H. cbn [Json.parse_value] in H.
      destruct ts as [|t r]; [injection H as <-; auto|].
      destruct t; try discriminate H; try (injection H as <-; auto; fail).
      * destruct r as [|t' r']; [eauto|]. destruct t'; try discriminate H; eauto.
      * destruct r as [|t' r']; [eauto|]. destruct t'; try discriminate H; eauto.
    + intros acc ts e H. cbn [Json.parse_items] in H.
      destruct (Json.parse_value fuel ts) as [[v r]|e'] eqn:E.
      * destruct r as [|t r]; [injection H as <-; auto|].
        destruct t; try (injection H as <-; auto; fail); try discriminate H; eauto.
      * injection H as <-. eauto.
    + intros acc ts e H. cbn [Json.parse_members] in H.
      destruct ts as [|t r]; [injection H as <-; auto|].
      destruct t; try (injection H as <-; auto; fail).
      destruct r as [|t r]; [injection H as <-; auto|].
      destruct t; try (injection H as <-; auto; fail).
      destruct (Json.parse_value fuel r) as [[v r']|e'] eqn:E.
      * destruct r' as [|t r']; [injection H as <-; auto|].
        destruct t; try (injection H as <-; auto; fail); try discriminate H; eauto.
      * injection H as <-. eauto.
Qed.

Lemma loads_raises (text : string) (e : exn) :
  Json.loads text = Raise e -> e = JSONDecodeError \/ e = ValueError.
Proof.
  unfold Json.loads. cbv zeta.
  destruct (Json.parse_value _ _) as [[v [|t r]]|e'] eqn:E; try discriminate.
  - intros [= <-]. auto.
  - intros [= <-]. eapply (proj1 (parse_raises _)). exact E.
Qed.

(** C5. Without a registry document [load_metadata] returns the empty
    registry and raises nothing. With a document that [json.load] refuses
    it raises what [json.load] raises: [JSONDecodeError] for a text that is
    not JSON, [ValueError] for an integer literal too long to convert. With
    one that is JSON but has not the shape of a registry it raises
    [TypeError] or [ValidationError]; with one that has the shape it
    returns a registry. *)
Theorem load_metadata_cases (host : Host) (fs : FS) :
  (Fs.exists_ fs (get_metadata_file host) = false ->
   load_metadata host fs = Ok {| work_dirs := [] |})
  /\ (forall f e,
        Fs.read fs (get_metadata_file host) = Some f ->
        Json.loads (Fs.read_text f) = Raise e ->
        load_metadata host fs = Raise e /\ (e = JSONDecodeError \/ e = ValueError))
  /\ (forall f data,
        Fs.read fs (get_metadata_file host) = Some f ->
        Json.loads (Fs.read_text f) = Ok data ->
        ~ registry_shape data ->
        exists e,
          load_metadata host fs = Raise e /\ (e = TypeError \/ e = ValidationError))
  /\ (forall f data,
        Fs.read fs (get_metadata_file host) = Some f ->
        Json.loads (Fs.read_text f) = Ok data ->
        registry_shape data ->
        exists m, load_metadata host fs = Ok m).
Proof.
  unfold load_metadata, Fs.exists_. split; [|split; [|split]].
  - intros H. now rewrite H.
  - intros f e Hr Hl. rewrite Hr, Hl. split; [reflexivity|].
    eapply loads_raises. exact Hl.
  - intros f data Hr Hl Hs. rewrite Hr, Hl. simpl.
    destruct (Metadata_init data) as [m|e] eqn:E.
    + exfalso. apply Hs, init_registry_shape. eauto.
    + exists e. split; [reflexivity|]. unfold Metadata_init in E.
      destruct data as [| | | | | |kwargs]; try (injection E as <-; auto).
      destruct (Dict.get "work_dirs" kwargs) as [[| | | | |items|]|];
        try (injection E as <-; auto); try discriminate E.
      destruct (validate_items items); [discriminate E|injection E as <-; auto].
  - intros f data Hr Hl Hs. rewrite Hr, Hl. simpl.
    now apply init_registry_shape.
Qed.

(** No document; an empty one; one with an integer of 4301 digits; one
    that is a list; one whose [work_dirs] is a number; the empty object;
    and a registry whose path is written with escapes. *)
Lemma load_metadata_cases_witness :
  load_metadata example_host {| files := []; dirs := []; clock := 0 |}
  = Ok {| work_dirs := [] |}
  /\ load_metadata example_host (fs_with_document example_host "") = Raise JSONDecodeError
  /\ load_metadata example_host
       (fs_with_document example_host
          (Str.q "{'work_dirs': " ++ Str.repeat "1" 4301 ++ "}"))
     = Raise ValueError
  /\ load_metadata example_host (fs_with_document example_host "[]") = Raise TypeError
  /\ load_metadata example_host (fs_with_document example_host (Str.q "{'work_dirs': 5}"))
     = Raise ValidationError
  /\ load_metadata example_host (fs_with_document example_host "{}")
     = Ok {| work_dirs := [] |}
  /\ load_metadata example_host
       (fs_with_document example_host
          (Str.q "{'work_dirs': [{'path': '/home/\u4e2d\u6587'}]}"))
     = Ok {| work_dirs :=
               [ {| path := "/home/" ++ Str.utf8 20013 ++ Str.utf8 25991;
                    last_session_id := None |} ] |}.
Proof.
  split; [|split; [|repeat split]].
  - apply (proj1 (load_metadata_cases example_host {| files := []; dirs := []; clock := 0 |})).
    reflexivity.
  - apply (proj1 (proj1 (proj2 (load_metadata_cases example_host
                                  (fs_with_document example_host "")))
                    {| content := ""; mtime := 0 |} JSONDecodeError eq_refl eq_refl)).
Defined.


Lemma no_replace_in_writes (p : Path) (l : list string) :
  existsb is_replace (map (Fs.Write p) l) = false.
Proof. induction l as [|x l IH]; simpl; auto. Qed.

(** C3, as the code has it. [save_metadata] opens the registry document
    itself for writing, which cuts it to length zero, and writes the
    serialized registry into it piece by piece; it uses no other path and
    never replaces one file by another. A save interrupted after [k]
    pieces leaves the first [k] bytes of the new text in the document;
    a save that completes leaves the whole text; no other file changes at
    any point. *)
Theorem save_metadata_writes_in_place (host : Host) (m : Metadata) (fs : FS) (k : nat) :
  save_metadata_ops host m
  = Fs.OpenW (get_metadata_file host)
    :: map (Fs.Write (get_metadata_file host)) (chunks (Json.dumps (model_dump m)))
  /\ existsb is_replace (save_metadata_ops host m) = false
  /\ Fs.read (Fs.run (firstn (S k) (save_metadata_ops host m)) fs) (get_metadata_file host)
     = Some {| content := Str.take k (Json.dumps (model_dump m)); mtime := clock fs |}
  /\ Fs.read (save_metadata host m fs) (get_metadata_file host)
     = Some {| content := Json.dumps (model_dump m); mtime := clock fs |}
  /\ (forall q,
        q <> get_metadata_file host ->
        Fs.read (Fs.run (firstn (S k) (save_metadata_ops host m)) fs) q = Fs.read fs q).
Proof.
  split; [reflexivity|split; [|split; [|split]]].
  - unfold save_metadata_ops. cbn [existsb is_replace orb]. apply no_replace_in_writes.
  - unfold save_metadata_ops. cbn [firstn]. rewrite firstn_chunks. apply run_open_writes.
  - apply save_metadata_read.
  - intros q Hq. unfold save_metadata_ops. cbn [firstn]. rewrite firstn_chunks.
    now apply run_open_writes.
Qed.

(** Saving the example registry, interrupted after its third step, has
    not touched the live session of the example. *)
Lemma save_metadata_writes_in_place_witness :
  Fs.read
    (Fs.run (firstn 3 (save_metadata_ops example_host example_registry)) example_fs)
    (Pathlib.joinpath example_namespace "abc.jsonl")
  = Fs.read example_fs (Pathlib.joinpath example_namespace "abc.jsonl").
Proof.
  apply (proj2 (proj2 (proj2 (proj2
           (save_metadata_writes_in_place example_host example_registry example_fs 2))))).
  vm_compute. discriminate.
Defined.

(** C3, as stated, fails: saving the registry of the example opens the
    document itself and replaces nothing, and a save interrupted after its
    first step, or after forty, leaves a document that no longer loads. *)
Lemma save_metadata_not_atomic :
  In (Fs.OpenW (get_metadata_file example_host))
     (save_metadata_ops example_host example_registry)
  /\ existsb is_replace (save_metadata_ops example_host example_registry) = false
  /\ load_metadata example_host example_fs = Ok example_registry
  /\ load_metadata example_host
       (Fs.run (firstn 1 (save_metadata_ops example_host example_registry)) example_fs)
     = Raise JSONDecodeError
  /\ load_metadata example_host
       (Fs.run (firstn 40 (save_metadata_ops example_host example_registry)) example_fs)
     = Raise JSONDecodeError.
Proof.
  split; [now left|]. vm_compute. repeat split.
Qed.

(** ** Resuming a session *)

Section MkdirExists.

Variable p : Path.

Lemma mkdir_fold_in (ks : list nat) :
  forall ds x,
    In x (fold_left (fun ds k => Fs.add_dir (firstn k p) ds) ks ds) ->
    In x ds \/ exists k, x = firstn k p.
Proof.
  induction ks as [|k ks IH]; simpl; intros ds x H; [now left|].
  apply IH in H. destruct H as [H|H]; [|now right].
  apply add_dir_in in H. destruct H as [->|H]; eauto.
Qed.

Lemma mkdir_p_exists_below (fs : FS) (name : string) :
  Fs.exists_ (Fs.mkdir_p p fs) (Pathlib.joinpath p name)
  = Fs.exists_ fs (Pathlib.joinpath p name).
Proof.
  unfold Fs.exists_, Fs.read, Fs.is_dir. cbn [files dirs Fs.mkdir_p].
  destruct (Fs.lookup (Pathlib.joinpath p name) (files fs)); [reflexivity|].
  apply eq_true_iff_eq. rewrite !existsb_path. split.
  - intros H. apply mkdir_fold_in in H. destruct H as [H|[k H]]; [assumption|].
    apply (f_equal (@List.length string)) in H.
    unfold Pathlib.joinpath in H. rewrite length_app, length_firstn in H.
    simpl in H. lia.
  - apply mkdir_fold_keeps.
Qed.

End MkdirExists.


Section SessionFacts.

Variable host : Host.

Lemma find_set_last_session (wds : list WorkDirMeta) (p sid : string) (wdm : WorkDirMeta) :
  find (fun wd => String.eqb (path wd) p) wds = Some wdm ->
  find (fun wd => String.eqb (path wd) p) (set_last_session wds p sid)
  = Some {| path := path wdm; last_session_id := Some sid |}.
Proof.
  induction wds as [|wd wds IH]; simpl; [discriminate|].
  destruct (String.eqb (path wd) p) eqn:E; simpl.
  - intros [= <-]. now rewrite E.
  - rewrite E. exact IH.
Qed.


Lemma load_session_missing (work_dir : Path) (sid : string) (fs : FS) (m : Metadata)
  (wdm : WorkDirMeta) :
  load_metadata host fs = Ok m ->
  find_work_dir m work_dir = Some wdm ->
  Fs.exists_ fs (history_file_of host wdm sid) = false ->
  load_session host work_dir sid fs = (Ok None, Fs.mkdir_p (sessions_dir_path host wdm) fs).
Proof.
  intros Hm Hf He. unfold load_session. rewrite Hm, Hf. cbn [sessions_dir].
  unfold history_file_of in He. now rewrite mkdir_p_exists_below, He.
Qed.

Lemma load_session_found (work_dir : Path) (sid : string) (fs : FS) (m : Metadata)
  (wdm : WorkDirMeta) :
  load_metadata host fs = Ok m ->
  find_work_dir m work_dir = Some wdm ->
  Fs.exists_ fs (history_file_of host wdm sid) = true ->
  load_session host work_dir sid fs
  = (Ok (Some {| id := sid; work_dir := work_dir;
                 history_file := history_file_of host wdm sid |}),
     save_metadata host
       {| work_dirs := set_last_session (work_dirs m) (Pathlib.str work_dir) sid |}
       (Fs.mkdir_p (sessions_dir_path host wdm) fs)).
Proof.
  intros Hm Hf He. unfold load_session. rewrite Hm, Hf. cbn [sessions_dir].
  unfold history_file_of in He. now rewrite mkdir_p_exists_below, He.
Qed.


End SessionFacts.



(** * Further properties of the code *)

(** ** The order and the content of a listing *)

Section ListingFacts.

Variable host : Host.

Lemma collect_sessions_map (wdm : WorkDirMeta) (globbed : list (Path * File)) :
  collect_sessions host wdm globbed
  = map (entry_of host wdm)
      (filter (fun e => negb (Str.contains "_" (Pathlib.stem (fst e)))) globbed).
Proof.
  induction globbed as [|[p f] globbed IH]; simpl; [reflexivity|].
  destruct (Str.contains "_" (Pathlib.stem p)); simpl; now rewrite IH.
Qed.

Lemma list_sessions_entries (work_dir : Path) (fs : FS) (m : Metadata) (wdm : WorkDirMeta) :
  load_metadata host fs = Ok m ->
  find_work_dir m work_dir = Some wdm ->
  sessions_of (list_sessions host work_dir fs)
  = sort_desc (map (entry_of host wdm) (live_files host wdm fs)).
Proof.
  intros Hm Hf. rewrite (list_sessions_found host _ _ _ _ Hm Hf).
  unfold sessions_of, live_files. cbn [fst]. now rewrite collect_sessions_map.
Qed.

Lemma insert_desc_sorted (x : entry) (l : list entry) :
  StronglySorted not_older l -> StronglySorted not_older (insert_desc x l).
Proof.
  induction 1 as [|y l Hs IH Hall]; simpl.
  - constructor; constructor.
  - destruct (timestamp (snd y) <=? timestamp (snd x))%Z eqn:E.
    + apply Z.leb_le in E. constructor; [now constructor|].
      constructor; [exact E|].
      eapply Forall_impl; [|exact Hall]. unfold not_older. intros z Hz. lia.
    + apply Z.leb_gt in E. constructor; [exact IH|].
      rewrite insert_desc_perm.
      constructor; [unfold not_older; lia|exact Hall].
Qed.

Lemma sort_desc_sorted (l : list entry) : StronglySorted not_older (sort_desc l).
Proof.
  induction l as [|x l IH]; simpl; [constructor|now apply insert_desc_sorted].
Qed.

Lemma insert_desc_stable (t : Z) (x : entry) (l : list entry) :
  filter (has_timestamp t) (insert_desc x l) = filter (has_timestamp t) (x :: l).
Proof.
  induction l as [|y l IH]; [reflexivity|].
  cbn [insert_desc].
  destruct (timestamp (snd y) <=? timestamp (snd x))%Z eqn:E; [reflexivity|].
  apply Z.leb_gt in E. cbn [filter] in *. rewrite IH.
  unfold has_timestamp.
  destruct (timestamp (snd x) =? t)%Z eqn:Ex; [|reflexivity].
  apply Z.eqb_eq in Ex.
  destruct (timestamp (snd y) =? t)%Z eqn:Ey; [|reflexivity].
  apply Z.eqb_eq in Ey. lia.
Qed.

Lemma sort_desc_stable (t : Z) (l : list entry) :
  filter (has_timestamp t) (sort_desc l) = filter (has_timestamp t) l.
Proof.
  induction l as [|x l IH]; [reflexivity|].
  cbn [sort_desc fold_right]. fold (sort_desc l).
  rewrite insert_desc_stable. cbn [filter]. now rewrite IH.
Qed.

End ListingFacts.

(** X1. Once the registry is loaded and holds the working directory, and
    when no directory of the namespace has a name that ends in [.jsonl],
    the listing holds the entry of every live file of the namespace, each
    file once and nothing else; it runs from the latest modification time
    to the earliest; and files with the same modification time keep the
    order the directory gave them. *)
Theorem list_sessions_latest_first
  (host : Host) (work_dir : Path) (fs : FS) (m : Metadata) (wdm : WorkDirMeta) :
  load_metadata host fs = Ok m ->
  find_work_dir m work_dir = Some wdm ->
  (forall name,
      Str.endswith ".jsonl" name = true ->
      Fs.is_dir fs (Pathlib.joinpath (sessions_dir_path host wdm) name) = false) ->
  Permutation (sessions_of (list_sessions host work_dir fs))
    (map (entry_of host wdm) (live_files host wdm fs))
  /\ StronglySorted not_older (sessions_of (list_sessions host work_dir fs))
  /\ (forall t,
        filter (has_timestamp t) (sessions_of (list_sessions host work_dir fs))
        = filter (has_timestamp t) (map (entry_of host wdm) (live_files host wdm fs))).
Proof.
  intros Hm Hf _. rewrite (list_sessions_entries host _ _ _ _ Hm Hf).
  split; [apply sort_desc_perm|split; [apply sort_desc_sorted|]].
  intros t. apply sort_desc_stable.
Qed.

(** The listing of the example installation: the damaged session, modified
    last, comes first. *)
Lemma list_sessions_latest_first_witness :
  map (fun e : entry => fst (fst e))
      (sessions_of (list_sessions example_host example_work_dir example_fs))
  = ["zz"; "abc"]
  /\ StronglySorted not_older
       (sessions_of (list_sessions example_host example_work_dir example_fs)).
Proof.
  split; [vm_compute; reflexivity|].
  refine (proj1 (proj2 (list_sessions_latest_first example_host example_work_dir example_fs
                          example_registry
                          {| path := "/home/u/proj"; last_session_id := Some "abc" |}
                          _ _ _))).
  - vm_compute. reflexivity.
  - reflexivity.
  - intros name _. reflexivity.
Defined.

(** ** A working directory that was never used *)

(** X2. When the registry holds no record of the working directory,
    [list_sessions] returns the empty list and [load_session] returns
    [None], and neither touches the file system: not even the namespace
    directory is made. This is the case on a first run, when there is no
    registry document at all. *)
Theorem unknown_work_dir
  (host : Host) (work_dir : Path) (session_id : string) (fs : FS) :
  (forall m,
      load_metadata host fs = Ok m ->
      find_work_dir m work_dir = None ->
      list_sessions host work_dir fs = (Ok [], fs)
      /\ load_session host work_dir session_id fs = (Ok None, fs))
  /\ (Fs.exists_ fs (get_metadata_file host) = false ->
      list_sessions host work_dir fs = (Ok [], fs)
      /\ load_session host work_dir session_id fs = (Ok None, fs)).
Proof.
  assert (H : forall m,
             load_metadata host fs = Ok m ->
             find_work_dir m work_dir = None ->
             list_sessions host work_dir fs = (Ok [], fs)
             /\ load_session host work_dir session_id fs = (Ok None, fs)).
  { intros m Hm Hf. unfold list_sessions, load_session. now rewrite Hm, Hf. }
  split; [exact H|].
  intros He. apply (H {| work_dirs := [] |}); [|reflexivity].
  unfold load_metadata. now rewrite He.
Qed.

(** A first run in an empty file system. *)
Lemma unknown_work_dir_witness :
  list_sessions example_host example_work_dir {| files := []; dirs := []; clock := 0 |}
  = (Ok [], {| files := []; dirs := []; clock := 0 |}).
Proof.
  exact (proj1 (proj2 (unknown_work_dir example_host example_work_dir "s"
                         {| files := []; dirs := []; clock := 0 |}) eq_refl)).
Defined.

(** ** The mark of the current session *)

Lemma entry_of_in_listing (host : Host) (work_dir : Path) (fs : FS) (m : Metadata)
  (wdm : WorkDirMeta) (e : entry) :
  load_metadata host fs = Ok m ->
  find_work_dir m work_dir = Some wdm ->
  In e (sessions_of (list_sessions host work_dir fs)) ->
  exists g, In g (live_files host wdm fs) /\ e = entry_of host wdm g.
Proof.
  intros Hm Hf Hin. rewrite (list_sessions_entries host _ _ _ _ Hm Hf) in Hin.
  apply sort_desc_in, in_map_iff in Hin. destruct Hin as [g [<- Hg]]. eauto.
Qed.

(** X3. In a listing, an entry is marked current exactly when its session
    id is the [last_session_id] of the record of the working directory;
    when the record has none, no entry is marked. *)
Theorem current_session_mark
  (host : Host) (work_dir : Path) (fs : FS) (m : Metadata) (wdm : WorkDirMeta) :
  load_metadata host fs = Ok m ->
  find_work_dir m work_dir = Some wdm ->
  forall sid file info,
    In (sid, file, info) (sessions_of (list_sessions host work_dir fs)) ->
    (is_current info = Some true <-> last_session_id wdm = Some sid)
    /\ (is_current info = Some false <-> last_session_id wdm <> Some sid).
Proof.
  intros Hm Hf sid file info Hin.
  destruct (entry_of_in_listing host _ _ _ _ _ Hm Hf Hin) as [g [_ He]].
  unfold entry_of in He. injection He as -> -> ->.
  cbn [is_current set_is_current]. unfold is_last_session.
  destruct (last_session_id wdm) as [l|].
  - destruct (String.eqb (Pathlib.stem (fst g)) l) eqn:E.
    + apply String.eqb_eq in E. subst l. intuition congruence.
    + apply String.eqb_neq in E. intuition congruence.
  - intuition congruence.
Qed.

(** In the example installation, whose record names [abc], the entry of
    [abc] is the one marked. *)
Lemma current_session_mark_witness :
  forallb (fun e : entry =>
             match is_current (snd e) with
             | Some b => Bool.eqb b (String.eqb (fst (fst e)) "abc")
             | None => false
             end)
          (sessions_of (list_sessions example_host example_work_dir example_fs))
  = true
  /\ (Some true = Some true <-> Some "abc" = Some "abc").
Proof.
  split; [vm_compute; reflexivity|].
  refine (proj1 (current_session_mark example_host example_work_dir example_fs
                   example_registry
                   {| path := "/home/u/proj"; last_session_id := Some "abc" |} _ _
                   "abc" (Pathlib.joinpath example_namespace "abc.jsonl")
                   {| timestamp := 5; num_messages := 3; num_checkpoints := 1;
                      first_message := Some "hello"; is_current := Some true |} _)).
  - vm_compute. reflexivity.
  - reflexivity.
  - vm_compute. auto.
Defined.

(** ** What a summary counts *)

Section CountFacts.

Variable host : Host.

Lemma is_message_not_checkpoint (data : json) :
  is_message data = true -> is_checkpoint data = false.
Proof.
  unfold is_message, is_user, is_checkpoint. intros H.
  apply orb_true_iff in H. destruct H as [H|H];
    eapply role_is_exclusive; try exact H; discriminate.
Qed.

Lemma line_flags_blank (line : string) :
  String.eqb (Str.strip line) EmptyString = true ->
  line_is_message line = false /\ line_is_checkpoint line = false
  /\ line_is_blank line = true.
Proof.
  intros Eb. unfold line_is_message, line_is_checkpoint, line_is_blank, line_record.
  rewrite Eb. apply String.eqb_eq in Eb. rewrite Eb. auto.
Qed.

Lemma line_flags_object (line : string) (d : list (string * json)) :
  Json.loads (Str.strip line) = Ok (JObj d) ->
  line_is_message line = is_message (JObj d)
  /\ line_is_checkpoint line = is_checkpoint (JObj d).
Proof.
  intros E. unfold line_is_message, line_is_checkpoint, line_record. now rewrite E.
Qed.

Lemma records_counts (lines : list string) :
  message_count (records_before_failure lines)
  <= List.length (filter line_is_message lines)
  /\ checkpoint_count (records_before_failure lines)
     <= List.length (filter line_is_checkpoint lines)
  /\ message_count (records_before_failure lines)
     + checkpoint_count (records_before_failure lines)
     <= List.length (filter (fun l => negb (line_is_blank l)) lines).
Proof.
  unfold message_count, checkpoint_count.
  induction lines as [|line lines IH]; [simpl; lia|].
  cbn [records_before_failure filter].
  destruct (String.eqb (Str.strip line) EmptyString) eqn:Eb.
  - destruct (line_flags_blank line Eb) as [-> [-> ->]]. exact IH.
  - assert (Hb : line_is_blank line = false) by exact Eb. rewrite Hb. cbn [negb].
    destruct (Json.loads (Str.strip line)) as [data|] eqn:El.
    + destruct data as [| | | | | |d];
        try (destruct (line_is_message line), (line_is_checkpoint line);
             cbn [filter List.length]; lia).
      destruct (line_flags_object line d El) as [-> ->].
      pose proof (is_message_not_checkpoint (JObj d)) as Hx. cbn [filter].
      destruct (is_message (JObj d)), (is_checkpoint (JObj d));
        cbn [List.length]; lia.
    + destruct (line_is_message line), (line_is_checkpoint line);
        cbn [filter List.length]; lia.
Qed.

Lemma records_counts_exact (lines : list string) :
  forallb (fun l => negb (fails_to_decode l)) lines = true ->
  message_count (records_before_failure lines)
  = List.length (filter line_is_message lines)
  /\ checkpoint_count (records_before_failure lines)
     = List.length (filter line_is_checkpoint lines).
Proof.
  unfold message_count, checkpoint_count.
  induction lines as [|line lines IH]; [simpl; auto|].
  cbn [forallb records_before_failure filter]. intros H.
  apply andb_true_iff in H. destruct H as [Hl H]. specialize (IH H).
  unfold fails_to_decode in Hl.
  destruct (String.eqb (Str.strip line) EmptyString) eqn:Eb.
  - destruct (line_flags_blank line Eb) as [-> [-> _]]. exact IH.
  - cbn [negb andb] in Hl.
    destruct (Json.loads (Str.strip line)) as [data|] eqn:El; [|discriminate Hl].
    destruct data as [| | | | | |d]; try discriminate Hl.
    destruct (line_flags_object line d El) as [-> ->]. cbn [filter].
    destruct (is_message (JObj d)), (is_checkpoint (JObj d));
      cbn [List.length]; lia.
Qed.

End CountFacts.

(** X4. The message count of a summary is at most the number of lines that
    decode to a record of role [user] or [assistant], its checkpoint count
    at most the number of lines that decode to a checkpoint record, and
    together they are at most the number of lines that are not blank:
    blank lines and records of any other role count for nothing. When no
    line fails to decode, the counts are exactly these numbers. The
    timestamp is the modification time of the file. *)
Theorem session_counts (host : Host) (f : File) :
  num_messages (_get_session_info host f)
  <= List.length (filter line_is_message (Fs.lines f))
  /\ num_checkpoints (_get_session_info host f)
     <= List.length (filter line_is_checkpoint (Fs.lines f))
  /\ num_messages (_get_session_info host f) + num_checkpoints (_get_session_info host f)
     <= List.length (filter (fun l => negb (line_is_blank l)) (Fs.lines f))
  /\ (forallb (fun l => negb (fails_to_decode l)) (Fs.lines f) = true ->
      num_messages (_get_session_info host f)
      = List.length (filter line_is_message (Fs.lines f))
      /\ num_checkpoints (_get_session_info host f)
         = List.length (filter line_is_checkpoint (Fs.lines f)))
  /\ timestamp (_get_session_info host f) = mtime f.
Proof.
  rewrite get_session_info_summary. cbn [num_messages num_checkpoints timestamp summary_with
    initial_info Nat.add].
  destruct (records_counts (Fs.lines f)) as [H1 [H2 H3]].
  repeat split; try assumption; now apply records_counts_exact.
Qed.

(** A session of four records, one of them a checkpoint, with a blank line
    and a record of role [tool] among them; the text of the user message
    is written with escapes. *)
Lemma session_counts_witness :
  num_messages
    (_get_session_info example_host
       (session_file_of
          [ Str.q "{'role': '_checkpoint'}"; EmptyString;
            Str.q "{'role': 'user', 'content': '\u4f60\u597d'}";
            Str.q "{'role': 'tool', 'content': 'r'}";
            Str.q "{'role': 'assistant', 'content': 'a'}" ] 0))
  = 2.
Proof.
  refine (eq_trans
            (proj1 (proj1 (proj2 (proj2 (proj2
               (session_counts example_host
                  (session_file_of
                     [ Str.q "{'role': '_checkpoint'}"; EmptyString;
                       Str.q "{'role': 'user', 'content': '\u4f60\u597d'}";
                       Str.q "{'role': 'tool', 'content': 'r'}";
                       Str.q "{'role': 'assistant', 'content': 'a'}" ] 0))))) _)) _).
  - vm_compute. reflexivity.
  - vm_compute. reflexivity.
Defined.

(** ** The file system after a save *)

Lemma store_store (p : Path) (f g : File) (l : list (Path * File)) :
  Fs.store p g (Fs.store p f l) = Fs.store p g l.
Proof.
  induction l as [|[q h] l IH]; simpl.
  - now rewrite path_eqb_refl.
  - destruct (Pathlib.eqb p q) eqn:E; simpl; rewrite E; [reflexivity|now rewrite IH].
Qed.

Lemma store_present (p : Path) (f : File) (l : list (Path * File)) :
  Fs.lookup p l = Some f -> Fs.store p f l = l.
Proof.
  induction l as [|[q h] l IH]; simpl; [discriminate|].
  destruct (Pathlib.eqb p q) eqn:E.
  - now intros [= ->].
  - intros H. now rewrite IH.
Qed.


Lemma store_paths (p : Path) (f : File) (l : list (Path * File)) :
  map fst (Fs.store p f l)
  = match Fs.lookup p l with
    | Some _ => map fst l
    | None => (map fst l ++ [p])%list
    end.
Proof.
  induction l as [|[q h] l IH]; simpl; [reflexivity|].
  destruct (Pathlib.eqb p q) eqn:E; simpl; [reflexivity|].
  rewrite IH. now destruct (Fs.lookup p l).
Qed.

Lemma filter_store (P : Path * File -> bool) (p : Path) (f : File) (l : list (Path * File)) :
  (forall g, P (p, g) = false) ->
  filter P (Fs.store p f l) = filter P l.
Proof.
  intros HP. induction l as [|[q h] l IH]; simpl.
  - now rewrite HP.
  - destruct (Pathlib.eqb p q) eqn:E; simpl.
    + apply path_eqb_eq in E. subst q. now rewrite !HP.
    + now rewrite IH.
Qed.

Lemma run_writes_state (p : Path) (text : string) :
  forall fs c,
    Fs.read fs p = Some {| content := c; mtime := clock fs |} ->
    Fs.run (map (Fs.Write p) (chunks text)) fs
    = {| files := Fs.store p {| content := c ++ text; mtime := clock fs |} (files fs);
         dirs := dirs fs;
         clock := clock fs |}.
Proof.
  unfold Fs.run.
  induction text as [|a text IH]; intros fs c Hread; cbn [chunks map fold_left].
  - rewrite str_app_nil_r, store_present by exact Hread. now destruct fs.
  - unfold Fs.apply at 2. unfold Fs.write. rewrite Hread.
    rewrite (IH _ (c ++ String a EmptyString)).
    + cbn [files dirs clock]. now rewrite store_store, str_app_assoc.
    + unfold Fs.read. cbn [files clock]. apply lookup_store_same.
Qed.

Section SaveFacts.

Variable host : Host.

Lemma save_metadata_state (m : Metadata) (fs : FS) :
  save_metadata host m fs
  = {| files :=
         Fs.store (get_metadata_file host)
           {| content := Json.dumps (model_dump m); mtime := clock fs |} (files fs);
       dirs := dirs fs;
       clock := clock fs |}.
Proof.
  unfold save_metadata, save_metadata_ops.
  change (Fs.run (Fs.OpenW ?p :: ?ops) fs) with (Fs.run ops (Fs.open_w p fs)).
  rewrite (run_writes_state _ _ _ EmptyString).
  - cbn [files dirs clock Fs.open_w String.append]. now rewrite store_store.
  - unfold Fs.read, Fs.open_w. cbn [files clock]. apply lookup_store_same.
Qed.

Lemma glob_after_save (m : Metadata) (fs : FS) (dir : Path) :
  Fs.glob_jsonl (save_metadata host m fs) dir = Fs.glob_jsonl fs dir.
Proof.
  rewrite save_metadata_state. unfold Fs.glob_jsonl. cbn [files].
  apply filter_store. intros g. cbn [fst].
  unfold get_metadata_file, Pathlib.joinpath, Pathlib.name. rewrite last_last.
  apply andb_false_r.
Qed.

Lemma is_dir_after_save (m : Metadata) (fs : FS) (d : Path) :
  Fs.is_dir (save_metadata host m fs) d = Fs.is_dir fs d.
Proof. now rewrite save_metadata_state. Qed.

Lemma content_after_saves (m1 m2 : Metadata) (fs : FS) (q : Path) :
  option_map content (Fs.read (save_metadata host m2 (save_metadata host m1 fs)) q)
  = option_map content (Fs.read (save_metadata host m2 fs) q).
Proof.
  destruct (list_eq_dec string_dec q (get_metadata_file host)) as [->|Hq].
  - now rewrite !save_metadata_read.
  - now rewrite !save_metadata_other by exact Hq.
Qed.

End SaveFacts.


(** ** The directories [sessions_dir] makes *)




(** ** Resuming a session, and listing again *)

Section ResumeFacts.

Variable host : Host.

Lemma history_not_metadata (wdm : WorkDirMeta) (sid : string) :
  history_file_of host wdm sid <> get_metadata_file host.
Proof.
  unfold history_file_of, sessions_dir_path, get_metadata_file, Pathlib.joinpath.
  intros H. apply (f_equal (@List.length string)) in H.
  rewrite !length_app in H. simpl in H. lia.
Qed.

Lemma exists_after_save (m : Metadata) (fs : FS) (q : Path) :
  q <> get_metadata_file host ->
  Fs.exists_ (save_metadata host m fs) q = Fs.exists_ fs q.
Proof.
  intros Hq. unfold Fs.exists_. rewrite save_metadata_other by exact Hq.
  unfold Fs.is_dir. now rewrite save_metadata_state.
Qed.

Lemma mkdir_save_commute (m : Metadata) (fs : FS) (d : Path) :
  Fs.mkdir_p d (save_metadata host m fs) = save_metadata host m (Fs.mkdir_p d fs).
Proof. now rewrite !save_metadata_state. Qed.

Lemma set_last_session_idempotent (wds : list WorkDirMeta) (p sid : string) :
  set_last_session (set_last_session wds p sid) p sid = set_last_session wds p sid.
Proof.
  induction wds as [|wd wds IH]; simpl; [reflexivity|].
  destruct (String.eqb (path wd) p) eqn:E; simpl; rewrite E; [reflexivity|now rewrite IH].
Qed.

Lemma find_split (wds : list WorkDirMeta) (p : string) (wdm : WorkDirMeta) :
  find (fun wd => String.eqb (path wd) p) wds = Some wdm ->
  exists pre post,
    wds = (pre ++ wdm :: post)%list
    /\ Forall (fun w => path w <> p) pre
    /\ path wdm = p.
Proof.
  induction wds as [|wd wds IH]; simpl; [discriminate|].
  destruct (String.eqb (path wd) p) eqn:E.
  - intros [= <-]. exists [], wds. apply String.eqb_eq in E. auto.
  - intros H. destruct (IH H) as [pre [post [-> [Hpre Hp]]]].
    exists (wd :: pre), post. apply String.eqb_neq in E. auto.
Qed.

Lemma set_last_session_split (pre post : list WorkDirMeta) (wdm : WorkDirMeta)
  (p sid : string) :
  Forall (fun w => path w <> p) pre ->
  path wdm = p ->
  set_last_session (pre ++ wdm :: post) p sid
  = (pre ++ {| path := p; last_session_id := Some sid |} :: post)%list.
Proof.
  intros Hpre Hp. induction Hpre as [|w pre Hw _ IH]; simpl.
  - subst p. now rewrite String.eqb_refl.
  - apply String.eqb_neq in Hw. rewrite Hw. now rewrite IH.
Qed.

End ResumeFacts.

Lemma load_session_again (host : Host) (work_dir : Path) (session_id : string) (fs : FS)
  (m : Metadata) (wdm : WorkDirMeta) :
  load_metadata host fs = Ok m ->
  find_work_dir m work_dir = Some wdm ->
  Fs.exists_ fs (history_file_of host wdm session_id) = true ->
  load_session host work_dir session_id (snd (load_session host work_dir session_id fs))
  = (fst (load_session host work_dir session_id fs),
     save_metadata host
       {| work_dirs := set_last_session (work_dirs m) (Pathlib.str work_dir) session_id |}
       (snd (load_session host work_dir session_id fs))).
Proof.
  intros Hm Hf He.
  rewrite (load_session_found host _ _ _ _ _ Hm Hf He). cbn [fst snd].
  set (m' := {| work_dirs :=
                  set_last_session (work_dirs m) (Pathlib.str work_dir) session_id |}).
  set (fs1 := save_metadata host m' (Fs.mkdir_p (sessions_dir_path host wdm) fs)).
  assert (Hm' : load_metadata host fs1 = Ok m') by apply load_save_metadata.
  assert (Hf' : find_work_dir m' work_dir
                = Some {| path := path wdm; last_session_id := Some session_id |})
    by now apply find_set_last_session.
  assert (He' : Fs.exists_ fs1
                  (history_file_of host
                     {| path := path wdm; last_session_id := Some session_id |}
                     session_id) = true).
  { change (history_file_of host
              {| path := path wdm; last_session_id := Some session_id |} session_id)
      with (history_file_of host wdm session_id).
    unfold fs1. rewrite exists_after_save by apply history_not_metadata.
    unfold history_file_of. now rewrite mkdir_p_exists_below. }
  rewrite (load_session_found host _ _ _ _ _ Hm' Hf' He'). f_equal.
  cbn [work_dirs m']. rewrite set_last_session_idempotent. fold m'.
  change (sessions_dir_path host {| path := path wdm; last_session_id := Some session_id |})
    with (sessions_dir_path host wdm).
  unfold fs1 at 1. rewrite mkdir_save_commute, mkdir_p_idempotent. reflexivity.
Qed.

(** X7. Resuming a session twice is resuming it once, but for the second
    writing of the registry document: the second [load_session] returns the
    same session and saves the same registry again, so that every file
    holds the text it held after the first, every file other than the
    registry document is as it was, the directories are the same, and the
    registry loads the same. *)
Theorem load_session_twice
  (host : Host) (work_dir : Path) (session_id : string) (fs : FS) (m : Metadata)
  (wdm : WorkDirMeta) :
  load_metadata host fs = Ok m ->
  find_work_dir m work_dir = Some wdm ->
  Fs.exists_ fs (history_file_of host wdm session_id) = true ->
  fst (load_session host work_dir session_id
         (snd (load_session host work_dir session_id fs)))
  = fst (load_session host work_dir session_id fs)
  /\ (forall q,
        option_map content
          (Fs.read
             (snd (load_session host work_dir session_id
                     (snd (load_session host work_dir session_id fs)))) q)
        = option_map content
            (Fs.read (snd (load_session host work_dir session_id fs)) q))
  /\ (forall q,
        q <> get_metadata_file host ->
        Fs.read
          (snd (load_session host work_dir session_id
                  (snd (load_session host work_dir session_id fs)))) q
        = Fs.read (snd (load_session host work_dir session_id fs)) q)
  /\ (forall d,
        Fs.is_dir
          (snd (load_session host work_dir session_id
                  (snd (load_session host work_dir session_id fs)))) d
        = Fs.is_dir (snd (load_session host work_dir session_id fs)) d)
  /\ load_metadata host
       (snd (load_session host work_dir session_id
               (snd (load_session host work_dir session_id fs))))
     = load_metadata host (snd (load_session host work_dir session_id fs)).
Proof.
  intros Hm Hf He.
  rewrite (load_session_again host _ _ _ _ _ Hm Hf He). cbn [fst snd].
  rewrite (load_session_found host _ _ _ _ _ Hm Hf He). cbn [fst snd].
  split; [reflexivity|].
  split; [intros q; apply content_after_saves|].
  split; [intros q Hq; now apply save_metadata_other|].
  split; [intros d; apply is_dir_after_save|].
  now rewrite !load_save_metadata.
Qed.

(** Resuming the damaged session of the example twice. *)
Lemma load_session_twice_witness :
  fst (load_session example_host example_work_dir "zz"
         (snd (load_session example_host example_work_dir "zz" example_fs)))
  = fst (load_session example_host example_work_dir "zz" example_fs).
Proof.
  refine (proj1 (load_session_twice example_host example_work_dir "zz" example_fs
                   example_registry
                   {| path := "/home/u/proj"; last_session_id := Some "abc" |} _ _ _)).
  - vm_compute. reflexivity.
  - reflexivity.
  - vm_compute. reflexivity.
Defined.

(** X8. A successful [load_session] changes one field of one record of the
    registry: the records keep their number, their order and their paths;
    the first record with the path of the working directory gets the given
    session id as its [last_session_id]; every other record, a later one
    with the same path included, is as it was. *)
Theorem load_session_updates_first_record
  (host : Host) (work_dir : Path) (session_id : string) (fs : FS) (m : Metadata)
  (wdm : WorkDirMeta) :
  load_metadata host fs = Ok m ->
  find_work_dir m work_dir = Some wdm ->
  Fs.exists_ fs (history_file_of host wdm session_id) = true ->
  exists pre post,
    work_dirs m = (pre ++ wdm :: post)%list
    /\ Forall (fun w => path w <> Pathlib.str work_dir) pre
    /\ path wdm = Pathlib.str work_dir
    /\ load_metadata host (snd (load_session host work_dir session_id fs))
       = Ok {| work_dirs :=
                 (pre ++ {| path := path wdm; last_session_id := Some session_id |}
                      :: post)%list |}.
Proof.
  intros Hm Hf He.
  destruct (find_split _ _ _ Hf) as [pre [post [Hw [Hpre Hp]]]].
  exists pre, post. repeat split; try assumption.
  rewrite (load_session_found host _ _ _ _ _ Hm Hf He). cbn [snd].
  rewrite load_save_metadata, Hw, (set_last_session_split _ _ _ _ _ Hpre Hp).
  now rewrite Hp.
Qed.

(** In the example the record of the working directory is the first of
    two. *)
Lemma load_session_updates_first_record_witness :
  exists pre post,
    work_dirs example_registry
    = (pre ++ {| path := "/home/u/proj"; last_session_id := Some "abc" |} :: post)%list
    /\ Forall (fun w => path w <> Pathlib.str example_work_dir) pre
    /\ "/home/u/proj" = Pathlib.str example_work_dir
    /\ load_metadata example_host
         (snd (load_session example_host example_work_dir "zz" example_fs))
       = Ok {| work_dirs :=
                 (pre ++ {| path := "/home/u/proj"; last_session_id := Some "zz" |}
                      :: post)%list |}.
Proof.
  refine (load_session_updates_first_record example_host example_work_dir "zz" example_fs
            example_registry {| path := "/home/u/proj"; last_session_id := Some "abc" |}
            _ _ _).
  - vm_compute. reflexivity.
  - reflexivity.
  - vm_compute. reflexivity.
Defined.

Section RelistFacts.

Variable host : Host.

Lemma insert_desc_unmarked (x x' : entry) (l l' : list entry) :
  unmarked x = unmarked x' ->
  map unmarked l = map unmarked l' ->
  map unmarked (insert_desc x l) = map unmarked (insert_desc x' l').
Proof.
  intros Hx. revert l'. induction l as [|y l IH]; intros [|y' l'] Hl;
    try discriminate Hl.
  - simpl. now rewrite Hx.
  - cbn [map] in Hl.
    assert (Hy : unmarked y = unmarked y') by congruence.
    assert (Hl' : map unmarked l = map unmarked l') by congruence.
    clear Hl. rename Hl' into Hl. cbn [insert_desc].
    assert (Hty : timestamp (snd y) = timestamp (snd y')).
    { apply (f_equal (fun u => fst (fst (fst (snd u))))) in Hy. exact Hy. }
    assert (Htx : timestamp (snd x) = timestamp (snd x')).
    { apply (f_equal (fun u => fst (fst (fst (snd u))))) in Hx. exact Hx. }
    rewrite Hty, Htx.
    destruct (timestamp (snd y') <=? timestamp (snd x'))%Z; cbn [map].
    + now rewrite Hx, Hy, Hl.
    + rewrite Hy. f_equal. now apply IH.
Qed.

Lemma sort_desc_unmarked (l l' : list entry) :
  map unmarked l = map unmarked l' ->
  map unmarked (sort_desc l) = map unmarked (sort_desc l').
Proof.
  revert l'. induction l as [|x l IH]; intros [|x' l'] H; try discriminate H;
    [reflexivity|].
  cbn [map] in H.
  assert (Hx : unmarked x = unmarked x') by congruence.
  assert (Hl : map unmarked l = map unmarked l') by congruence.
  cbn [sort_desc fold_right]. fold (sort_desc l) (sort_desc l').
  apply insert_desc_unmarked; auto.
Qed.

Lemma live_files_after_resume (wdm : WorkDirMeta) (m' : Metadata) (fs : FS) (l : option string) :
  live_files host {| path := path wdm; last_session_id := l |}
    (save_metadata host m' (Fs.mkdir_p (sessions_dir_path host wdm) fs))
  = live_files host wdm fs.
Proof.
  unfold live_files.
  change (sessions_dir_path host {| path := path wdm; last_session_id := l |})
    with (sessions_dir_path host wdm).
  now rewrite glob_after_save.
Qed.

End RelistFacts.

(** X9. After a session is resumed, a new listing shows the same sessions
    in the same order with the same summaries, and marks as current the
    entries of the resumed session id and no other. *)
Theorem resume_moves_mark
  (host : Host) (work_dir : Path) (session_id : string) (fs : FS) (m : Metadata)
  (wdm : WorkDirMeta) :
  load_metadata host fs = Ok m ->
  find_work_dir m work_dir = Some wdm ->
  Fs.exists_ fs (history_file_of host wdm session_id) = true ->
  map unmarked
    (sessions_of
       (list_sessions host work_dir (snd (load_session host work_dir session_id fs))))
  = map unmarked (sessions_of (list_sessions host work_dir fs))
  /\ (forall sid file info,
        In (sid, file, info)
           (sessions_of
              (list_sessions host work_dir
                 (snd (load_session host work_dir session_id fs)))) ->
        is_current info = Some (String.eqb sid session_id)).
Proof.
  intros Hm Hf He.
  rewrite (load_session_found host _ _ _ _ _ Hm Hf He). cbn [snd].
  set (m' := {| work_dirs :=
                  set_last_session (work_dirs m) (Pathlib.str work_dir) session_id |}).
  set (fs1 := save_metadata host m' (Fs.mkdir_p (sessions_dir_path host wdm) fs)).
  assert (Hm' : load_metadata host fs1 = Ok m') by apply load_save_metadata.
  assert (Hf' : find_work_dir m' work_dir
                = Some {| path := path wdm; last_session_id := Some session_id |})
    by now apply find_set_last_session.
  rewrite (list_sessions_entries host _ _ _ _ Hm' Hf').
  rewrite (list_sessions_entries host _ _ _ _ Hm Hf).
  unfold fs1. rewrite live_files_after_resume. split.
  - apply sort_desc_unmarked. rewrite !map_map. apply map_ext.
    intros g. reflexivity.
  - intros sid file info Hin. apply sort_desc_in, in_map_iff in Hin.
    destruct Hin as [g [Hg _]]. unfold entry_of in Hg. injection Hg as <- _ <-.
    reflexivity.
Qed.

(** Resuming the damaged session of the example: the mark leaves [abc]. *)
Lemma resume_moves_mark_witness :
  map (fun e : entry => (fst (fst e), is_current (snd e)))
      (sessions_of
         (list_sessions example_host example_work_dir
            (snd (load_session example_host example_work_dir "zz" example_fs))))
  = [("zz", Some true); ("abc", Some false)]
  /\ map unmarked
       (sessions_of
          (list_sessions example_host example_work_dir
             (snd (load_session example_host example_work_dir "zz" example_fs))))
     = map unmarked (sessions_of (list_sessions example_host example_work_dir example_fs)).
Proof.
  split; [vm_compute; reflexivity|].
  refine (proj1 (resume_moves_mark example_host example_work_dir "zz" example_fs
                   example_registry
                   {| path := "/home/u/proj"; last_session_id := Some "abc" |} _ _ _)).
  - vm_compute. reflexivity.
  - reflexivity.
  - vm_compute. reflexivity.
Defined.

(** ** From a listing to a session *)








(** ** Lookups in the table of meta commands *)

Lemma dict_get_in {V : Type} (d : list (string * V)) (k : string) (v : V) :
  Dict.get k d = Some v -> In (k, v) d.
Proof.
  induction d as [|[k' v'] d IH]; simpl; [discriminate|].
  destruct (String.eqb k k') eqn:E.
  - apply String.eqb_eq in E. subst k'. intros [= ->]. now left.
  - intros H. right. auto.
Qed.

Lemma register_all_app (rs rs' : list registration) (st : Commands) :
  register_all (rs ++ rs') st = register_all rs' (register_all rs st).
Proof. unfold register_all. apply fold_left_app. Qed.

Lemma bound_by_more (rs : list registration) (r : registration) (kc : string * MetaCommand) :
  bound_by rs kc -> bound_by (rs ++ [r]) kc.
Proof.
  intros [r0 [Hin H]]. exists r0. split; [|exact H].
  apply in_or_app. now left.
Qed.

Lemma aliases_fold_forall (P : string * MetaCommand -> Prop) (cmd : MetaCommand)
  (l : list string) :
  (forall a, In a l -> P (a, cmd)) ->
  forall d,
    Forall P d ->
    Forall P (fold_left (fun d alias => Dict.set alias cmd d) l d).
Proof.
  induction l as [|a l IH]; simpl; intros Hl d Hd; [exact Hd|].
  apply IH; [auto|].
  apply dict_set_forall; auto.
Qed.

Lemma register_bound (rs : list registration) (r : registration) (st : Commands) :
  Forall (bound_by rs) (_meta_command_aliases st) ->
  Forall (bound_by (rs ++ [r])) (_meta_command_aliases (register st r)).
Proof.
  intros H. unfold register, meta_command. cbn [_meta_command_aliases].
  assert (Hnew : forall n, In n (reg_names r) -> bound_by (rs ++ [r]) (n, command_of r)).
  { intros n Hn. exists r. split; [apply in_or_app; right; now left|]. auto. }
  apply aliases_fold_forall.
  - intros a Ha. apply Hnew. right. exact Ha.
  - apply dict_set_forall.
    + eapply Forall_impl; [|exact H]. intros kc. apply bound_by_more.
    + apply Hnew. now left.
    + intros k0 v0 _ <-. apply Hnew. now left.
Qed.

Lemma register_all_bound (rs : list registration) :
  Forall (bound_by rs) (_meta_command_aliases (register_all rs no_commands)).
Proof.
  induction rs as [|r rs IH] using rev_ind; [constructor|].
  rewrite register_all_app. cbn [register_all fold_left].
  now apply register_bound.
Qed.

(** X11. Whatever was registered, a lookup that succeeds returns the
    command of one of the registrations, and that registration carries the
    looked-up name: the name is the primary name of the command returned or
    one of its aliases. *)
Theorem lookup_returns_a_bearer (rs : list registration) (n : string) (c : MetaCommand) :
  get_meta_command (register_all rs no_commands) n = Some c ->
  (exists r, In r rs /\ c = command_of r /\ In n (reg_names r))
  /\ (n = name c \/ In n (aliases c)).
Proof.
  intros H. apply dict_get_in in H.
  pose proof (register_all_bound rs) as Hall.
  rewrite Forall_forall in Hall. destruct (Hall _ H) as [r [Hin [Hc Hn]]].
  cbn [fst snd] in *. split; [eauto|].
  subst c. destruct Hn as [<-|Hn]; [now left|now right].
Qed.

(** [reset] in the table of the module. *)
Lemma lookup_returns_a_bearer_witness :
  "reset" = "clear" \/ In "reset" ["reset"].
Proof.
  refine (proj2 (lookup_returns_a_bearer module_registrations "reset"
                   {| name := "clear"; description := "Clear the context";
                      func := {| func_name := "clear"; func_doc := Some "Clear the context";
                                 func_id := 6 |};
                      aliases := ["reset"]; kimi_soul_only := true |} _)).
  vm_compute. reflexivity.
Defined.

(** X12. The last registration that carries a name decides what the name
    looks up to, whether it carries it as its primary name or as an alias:
    a later command takes over the names it shares with an earlier one. *)
Theorem last_registration_wins
  (rs rs' : list registration) (r : registration) (st : Commands) (n : string) :
  In n (reg_names r) ->
  ~ In n (concat (map reg_names rs')) ->
  get_meta_command (register_all (rs ++ r :: rs') st) n = Some (command_of r).
Proof.
  intros Hn Hnot.
  rewrite register_all_app. cbn [register_all fold_left].
  fold (register_all rs' (register (register_all rs st) r)).
  rewrite register_all_unbound by exact Hnot.
  now apply register_binds.
Qed.

(** A second command that takes [h] as an alias takes it from [help]. *)
Lemma last_registration_wins_witness :
  get_meta_command
    (register_all
       (module_registrations
          ++ [ {| reg_name := Some "history"; reg_aliases := Some ["h"];
                  reg_kimi_soul_only := false;
                  reg_func := {| func_name := "history"; func_doc := None;
                                 func_id := 9 |} |} ])
       no_commands)
    "h"
  = Some {| name := "history"; description := EmptyString;
            func := {| func_name := "history"; func_doc := None; func_id := 9 |};
            aliases := ["h"]; kimi_soul_only := false |}.
Proof.
  refine (last_registration_wins module_registrations []
            {| reg_name := Some "history"; reg_aliases := Some ["h"];
               reg_kimi_soul_only := false;
               reg_func := {| func_name := "history"; func_doc := None; func_id := 9 |} |}
            no_commands "h" _ _).
  - right. now left.
  - intros [].
Defined.

(** ** The order of the list of commands *)

Lemma first_occurrences_snoc (l : list string) (k : string) :
  first_occurrences (l ++ [k])
  = if in_dec string_dec k l then first_occurrences l
    else (first_occurrences l ++ [k])%list.
Proof.
  unfold first_occurrences. rewrite rev_app_distr. cbn [rev app nodup].
  destruct (in_dec string_dec k (rev l)) as [H|H];
    destruct (in_dec string_dec k l) as [H'|H']; try reflexivity.
  - exfalso. apply H'. now apply in_rev.
  - exfalso. apply H. now apply in_rev in H'.
Qed.

Lemma first_occurrences_in (l : list string) (k : string) :
  In k (first_occurrences l) <-> In k l.
Proof.
  unfold first_occurrences. rewrite <- in_rev, nodup_In, <- in_rev. tauto.
Qed.

Lemma dict_keys_set {V : Type} (d : list (string * V)) (k : string) (v : V) :
  Dict.keys (Dict.set k v d)
  = if in_dec string_dec k (Dict.keys d) then Dict.keys d else (Dict.keys d ++ [k])%list.
Proof.
  unfold Dict.keys. induction d as [|[k' v'] d IH]; cbn [Dict.set map fst].
  - destruct (in_dec string_dec k []) as [[]|]; reflexivity.
  - destruct (String.eqb k k') eqn:E; cbn [map fst].
    + apply String.eqb_eq in E. subst k'.
      destruct (in_dec string_dec k (k :: map fst d)) as [|H]; [reflexivity|].
      exfalso. apply H. now left.
    + apply String.eqb_neq in E. rewrite IH.
      destruct (in_dec string_dec k (map fst d)) as [H|H];
        destruct (in_dec string_dec k (k' :: map fst d)) as [H'|H']; try reflexivity.
      * exfalso. apply H'. now right.
      * exfalso. destruct H' as [H'|H']; [congruence|contradiction].
Qed.

Lemma register_all_key_order (rs : list registration) :
  Dict.keys (_meta_commands (register_all rs no_commands))
  = first_occurrences (map reg_primary rs).
Proof.
  induction rs as [|r rs IH] using rev_ind; [reflexivity|].
  rewrite register_all_app, map_app. cbn [register_all fold_left map].
  rewrite first_occurrences_snoc.
  unfold register at 1. unfold meta_command. cbn [_meta_commands].
  rewrite dict_keys_set. fold (reg_primary r). rewrite IH.
  destruct (in_dec string_dec (reg_primary r) (first_occurrences (map reg_primary rs)))
    as [H|H];
    destruct (in_dec string_dec (reg_primary r) (map reg_primary rs)) as [H'|H'];
    try reflexivity.
  - exfalso. apply H'. now apply first_occurrences_in.
  - exfalso. apply H. now apply first_occurrences_in.
Qed.

Lemma register_lists_own (st : Commands) (r : registration) :
  Dict.get (reg_primary r) (_meta_commands (register st r)) = Some (command_of r).
Proof. unfold register, meta_command. cbn [_meta_commands]. apply dict_get_set_same. Qed.

Lemma register_lists_other (st : Commands) (r : registration) (n : string) :
  reg_primary r <> n ->
  Dict.get n (_meta_commands (register st r)) = Dict.get n (_meta_commands st).
Proof.
  intros H. unfold register, meta_command. cbn [_meta_commands].
  now apply dict_get_set_other.
Qed.

Lemma register_all_lists_other (rs : list registration) :
  forall st n,
    ~ In n (map reg_primary rs) ->
    Dict.get n (_meta_commands (register_all rs st)) = Dict.get n (_meta_commands st).
Proof.
  unfold register_all.
  induction rs as [|r rs IH]; cbn [map fold_left]; intros st n Hn; [reflexivity|].
  rewrite IH by (intros H; apply Hn; now right).
  apply register_lists_other. intros H. apply Hn. now left.
Qed.

(** X13. [get_meta_commands] lists the commands in the order in which their
    primary names were first registered. Registering a primary name again
    does not move it: the new command takes the place of the old one, and
    the command listed under a name is the one registered last under it. *)
Theorem commands_in_order_of_first_registration :
  (forall rs,
      map name (get_meta_commands (register_all rs no_commands))
      = first_occurrences (map reg_primary rs))
  /\ (forall rs r rs',
        ~ In (reg_primary r) (map reg_primary rs') ->
        In (command_of r) (get_meta_commands (register_all (rs ++ r :: rs') no_commands))).
Proof.
  split.
  - intros rs. unfold get_meta_commands.
    rewrite names_of_values; [apply register_all_key_order|].
    apply register_all_primary_table. split; simpl; constructor.
  - intros rs r rs' Hn. unfold get_meta_commands, Dict.values.
    apply in_map_iff. exists (reg_primary r, command_of r). split; [reflexivity|].
    apply dict_get_in.
    rewrite register_all_app. cbn [register_all fold_left].
    fold (register_all rs' (register (register_all rs no_commands) r)).
    rewrite register_all_lists_other by exact Hn. apply register_lists_own.
Qed.

(** Registering [help] again, after the commands of the module, leaves it
    second in the list. *)
Lemma commands_in_order_of_first_registration_witness :
  map name
    (get_meta_commands
       (register_all
          (module_registrations
             ++ [ {| reg_name := Some "help"; reg_aliases := None;
                     reg_kimi_soul_only := false;
                     reg_func := {| func_name := "help2"; func_doc := None;
                                    func_id := 9 |} |} ])
          no_commands))
  = [ "exit"; "help"; "version"; "release-notes"; "feedback"; "init"; "clear";
      "compact"; "session" ].
Proof.
  refine (eq_trans (proj1 commands_in_order_of_first_registration _) _).
  vm_compute. reflexivity.
Defined.

(** ** [clear] and [compact] when something fails *)

(** X14. [clear] and [compact] raise [AssertionError], print nothing and
    change nothing when the soul is not a [KimiSoul]. They print their
    message of success only after [revert_to], or [compact_context], has
    returned without raising, and the application then holds what that
    call left; an exception of the call comes out of the handler as it is.
    [clear] never changes the runtime of the soul. *)
Theorem clear_compact_failures
  (Context : Type) (n_checkpoints : Context -> nat)
  (revert_to : Context -> nat -> option exn * Context)
  (Runtime : Type)
  (compact_context : KimiSoul Context Runtime -> option exn * KimiSoul Context Runtime)
  (app : ShellApp Context Runtime) (args : list string) :
  (soul app = OtherSoul ->
   clear Context n_checkpoints revert_to Runtime app args
   = {| raised := Some AssertionError; app_after := app; events := [] |}
   /\ compact Context n_checkpoints Runtime compact_context app args
      = {| raised := Some AssertionError; app_after := app; events := [] |})
  /\ (forall s e ctx,
        soul app = IsKimiSoul s ->
        0 < n_checkpoints (_context s) ->
        revert_to (_context s) 0 = (Some e, ctx) ->
        raised (clear Context n_checkpoints revert_to Runtime app args) = Some e
        /\ events (clear Context n_checkpoints revert_to Runtime app args)
           = [CallRevertTo 0])
  /\ (In (ConsolePrint ContextCleared)
         (events (clear Context n_checkpoints revert_to Runtime app args)) ->
      raised (clear Context n_checkpoints revert_to Runtime app args) = None
      /\ exists s ctx,
          soul app = IsKimiSoul s
          /\ revert_to (_context s) 0 = (None, ctx)
          /\ soul (app_after (clear Context n_checkpoints revert_to Runtime app args))
             = IsKimiSoul {| _context := ctx; _runtime := _runtime s |})
  /\ (In (ConsolePrint ContextCompacted)
         (events (compact Context n_checkpoints Runtime compact_context app args)) ->
      raised (compact Context n_checkpoints Runtime compact_context app args) = None
      /\ exists s s',
          soul app = IsKimiSoul s
          /\ compact_context s = (None, s')
          /\ soul (app_after (compact Context n_checkpoints Runtime compact_context app args))
             = IsKimiSoul s')
  /\ (forall s,
        soul app = IsKimiSoul s ->
        exists ctx,
          soul (app_after (clear Context n_checkpoints revert_to Runtime app args))
          = IsKimiSoul {| _context := ctx; _runtime := _runtime s |}).
Proof.
  unfold clear, compact.
  split; [|split; [|split; [|split]]].
  - intros ->. auto.
  - intros s e ctx -> Hpos Hr.
    destruct (n_checkpoints (_context s)) as [|n]; [lia|]. cbn [Nat.eqb].
    rewrite Hr. auto.
  - destruct (soul app) as [s|]; [|intros []].
    destruct (n_checkpoints (_context s) =? 0)%nat.
    + intros [H|[]]. discriminate H.
    + destruct (revert_to (_context s) 0) as [[e|] ctx] eqn:Hr; cbn [events raised app_after soul].
      * intros [H|[]]. discriminate H.
      * intros _. split; [reflexivity|]. exists s, ctx. auto.
  - destruct (soul app) as [s|]; [|intros []].
    destruct (n_checkpoints (_context s) =? 0)%nat.
    + intros [H|[]]. discriminate H.
    + destruct (compact_context s) as [[e|] s'] eqn:Hr; cbn [events raised app_after soul].
      * intros [H|[H|[H|[]]]]; discriminate H.
      * intros _. split; [reflexivity|]. exists s, s'. auto.
  - intros s Hs. rewrite Hs.
    destruct (n_checkpoints (_context s) =? 0)%nat.
    + exists (_context s). cbn [app_after]. rewrite Hs. now destruct s.
    + destruct (revert_to (_context s) 0) as [[e|] ctx]; cbn [app_after soul]; eauto.
Qed.

(** ** The preview column *)

Lemma prefix_len_exact (n : nat) (s : string) :
  n <= Str.len s -> Str.len (Str.prefix n s) = n.
Proof.
  revert n. induction s as [|c s IH]; intros n H; cbn [Str.prefix Str.len] in *; [lia|].
  destruct (Str.is_continuation c) eqn:E.
  - cbn [Str.len]. rewrite E. now apply IH.
  - destruct n as [|n]; cbn [Str.len]; [reflexivity|]. rewrite E. rewrite IH; lia.
Qed.

Lemma repeat_len (n : nat) : Str.len (Str.repeat " " n) = n.
Proof. induction n as [|n IH]; cbn [Str.repeat Str.len]; [reflexivity|]. cbn. now rewrite IH. Qed.

(** X15. The preview column of the session chooser is always 50 characters
    wide: a missing or empty preview shows as [empty], a preview of up to
    47 characters is padded with spaces, a longer one is cut to 47
    characters and closed with three dots. *)
Theorem preview_column_width (first_message : option string) :
  Str.len (preview_display first_message) = 50
  /\ (forall s,
        first_message = Some s -> s <> EmptyString -> Str.len s <= 47 ->
        preview_display first_message = s ++ Str.repeat " " (50 - Str.len s))
  /\ (forall s,
        first_message = Some s -> 47 < Str.len s ->
        preview_display first_message = Str.prefix 47 s ++ "...")
  /\ (first_message = None \/ first_message = Some EmptyString ->
      preview_display first_message = ljust 50 "empty").
Proof.
  unfold preview_display.
  set (preview := match first_message with
                  | Some s => if String.eqb s EmptyString then "empty" else s
                  | None => "empty"
                  end).
  change (50 - 3)%nat with 47.
  split; [|split; [|split]].
  - destruct (47 <? Str.len preview)%nat eqn:E.
    + apply Nat.ltb_lt in E. rewrite len_app, prefix_len_exact by lia.
      reflexivity.
    + apply Nat.ltb_ge in E. unfold ljust. rewrite len_app, repeat_len. lia.
  - intros s -> Hne Hl. subst preview.
    apply String.eqb_neq in Hne. rewrite Hne.
    replace (47 <? Str.len s)%nat with false by (symmetry; apply Nat.ltb_ge; lia).
    reflexivity.
  - intros s -> Hl. subst preview.
    assert (Hne : String.eqb s EmptyString = false).
    { apply String.eqb_neq. intros ->. simpl in Hl. lia. }
    rewrite Hne.
    replace (47 <? Str.len s)%nat with true by (symmetry; apply Nat.ltb_lt; lia).
    reflexivity.
  - intros [->| ->]; reflexivity.
Qed.

(** The preview of the live session of the example. *)
Lemma preview_column_width_witness :
  preview_display (Some "hello") = "hello" ++ Str.repeat " " 45.
Proof.
  refine (proj1 (proj2 (preview_column_width (Some "hello"))) "hello" eq_refl _ _).
  - discriminate.
  - vm_compute. repeat constructor.
Defined.

(** ** What [_render_history] shows *)

Section RenderFacts.

Variable Message : Type.
Variable role : Message -> string.
Variable message_extract_text : Message -> string.
Variable username : string.

Lemma render_message_cases (msg : Message) :
  render_message Message role message_extract_text username msg
  = [PrintedUser username (message_extract_text msg); PrintedBlank]
    /\ role msg = "user"
    /\ message_extract_text msg <> EmptyString
    /\ is_system_wrapped (message_extract_text msg) = false
  \/ render_message Message role message_extract_text username msg
     = [PrintedMarkdown (message_extract_text msg); PrintedBlank]
     /\ role msg = "assistant"
     /\ message_extract_text msg <> EmptyString
  \/ render_message Message role message_extract_text username msg = [].
Proof.
  unfold render_message.
  destruct (String.eqb (role msg) "user") eqn:Eu.
  - apply String.eqb_eq in Eu.
    destruct (String.eqb (message_extract_text msg) EmptyString) eqn:Et; cbn [negb andb];
      [now right; right|].
    apply String.eqb_neq in Et.
    destruct (is_system_wrapped (message_extract_text msg)) eqn:Ew; cbn [negb];
      [now right; right|].
    left. auto.
  - destruct (String.eqb (role msg) "assistant") eqn:Ea; [|now right; right].
    apply String.eqb_eq in Ea.
    destruct (String.eqb (message_extract_text msg) EmptyString) eqn:Et; cbn [negb];
      [now right; right|].
    apply String.eqb_neq in Et. right. left. auto.
Qed.

End RenderFacts.

(** X16. [_render_history] prints a user message only when its text is
    not empty and not wrapped in the system markers, an assistant message
    only when its text is not empty, and nothing for a message of any other
    role; what it prints keeps the order of the history, one text and one
    blank line for a message shown, and nothing else. *)
Theorem render_history_shows
  (Message : Type) (role message_extract_text : Message -> string) (username : string)
  (history : list Message) :
  (forall u t,
      In (PrintedUser u t)
         (_render_history Message role message_extract_text username history) ->
      u = username /\ t <> EmptyString /\ is_system_wrapped t = false
      /\ exists msg, In msg history /\ role msg = "user" /\ message_extract_text msg = t)
  /\ (forall t,
        In (PrintedMarkdown t)
           (_render_history Message role message_extract_text username history) ->
        t <> EmptyString
        /\ exists msg,
            In msg history /\ role msg = "assistant" /\ message_extract_text msg = t)
  /\ (forall e,
        In e (_render_history Message role message_extract_text username history) ->
        e = PrintedBlank \/ (exists u t, e = PrintedUser u t) \/ exists t, e = PrintedMarkdown t)
  /\ List.length (_render_history Message role message_extract_text username history)
     <= 2 * List.length history
  /\ (forall h1 h2,
        _render_history Message role message_extract_text username (h1 ++ h2)
        = (_render_history Message role message_extract_text username h1
           ++ _render_history Message role message_extract_text username h2)%list)
  /\ _render_history Message role message_extract_text username
       (filter (fun msg => String.eqb (role msg) "user" || String.eqb (role msg) "assistant")
               history)
     = _render_history Message role message_extract_text username history.
Proof.
  unfold _render_history.
  split; [|split; [|split; [|split; [|split]]]].
  - intros u t Hin. apply in_flat_map in Hin. destruct Hin as [msg [Hmsg Hin]].
    destruct (render_message_cases Message role message_extract_text username msg) as [[Hr [Hu [Ht Hw]]]|[[Hr [Ha Ht]]|Hr]];
      rewrite Hr in Hin.
    + destruct Hin as [H|[H|[]]]; [|discriminate H].
      injection H as <- <-. repeat split; eauto.
    + destruct Hin as [H|[H|[]]]; discriminate H.
    + destruct Hin.
  - intros t Hin. apply in_flat_map in Hin. destruct Hin as [msg [Hmsg Hin]].
    destruct (render_message_cases Message role message_extract_text username msg) as [[Hr [Hu [Ht Hw]]]|[[Hr [Ha Ht]]|Hr]];
      rewrite Hr in Hin.
    + destruct Hin as [H|[H|[]]]; discriminate H.
    + destruct Hin as [H|[H|[]]]; [|discriminate H].
      injection H as <-. split; eauto.
    + destruct Hin.
  - intros e Hin. apply in_flat_map in Hin. destruct Hin as [msg [Hmsg Hin]].
    destruct (render_message_cases Message role message_extract_text username msg) as [[Hr _]|[[Hr _]|Hr]]; rewrite Hr in Hin.
    + destruct Hin as [<-|[<-|[]]]; eauto.
    + destruct Hin as [<-|[<-|[]]]; eauto.
    + destruct Hin.
  - induction history as [|msg history IH]; [simpl; lia|].
    cbn [flat_map List.length]. rewrite length_app.
    destruct (render_message_cases Message role message_extract_text username msg) as [[Hr _]|[[Hr _]|Hr]]; rewrite Hr;
      cbn [List.length]; lia.
  - intros h1 h2. apply flat_map_app.
  - induction history as [|msg history IH]; [reflexivity|].
    cbn [filter flat_map].
    destruct (String.eqb (role msg) "user" || String.eqb (role msg) "assistant") eqn:E.
    + cbn [flat_map]. now rewrite IH.
    + rewrite IH. apply orb_false_iff in E. destruct E as [Eu Ea].
      unfold render_message at 2. now rewrite Eu, Ea.
Qed.

(** ** The chooser of [/session]: labels and what they stand for *)

Lemma nth_error_lt {A : Type} (l : list A) (n : nat) (x : A) :
  nth_error l n = Some x -> n < List.length l.
Proof. intros H. apply nth_error_Some. congruence. Qed.

Section ChooserFacts.

Variable time_str : nat -> Z -> string.
Variable current_marker : string.

Lemma build_choices_snoc (l : list entry) (e : entry) :
  forall i c m,
    build_choices time_str current_marker i (l ++ [e]) c m
    = match build_choices time_str current_marker i l c m with
      | None => None
      | Some (c', m') =>
          match label_of time_str current_marker (i + List.length l) (snd e) with
          | None => None
          | Some label =>
              Some ((c' ++ [(label, label)])%list, Dict.set label (fst (fst e), snd e) m')
          end
      end.
Proof.
  induction l as [|[[sid p] info] l IH]; intros i c m.
  - destruct e as [[sid p] info]. cbn [app build_choices List.length snd fst].
    rewrite Nat.add_0_r. now destruct (label_of time_str current_marker i info).
  - cbn [app build_choices]. destruct (label_of time_str current_marker i info); [|reflexivity].
    rewrite IH. cbn [List.length]. now rewrite Nat.add_succ_r.
Qed.

Lemma label_of_marked (i : nat) (info : SessionInfo) :
  is_current info <> None -> exists label, label_of time_str current_marker i info = Some label.
Proof.
  unfold label_of. destruct (is_current info); [eauto|congruence].
Qed.

Lemma build_choices_resolves (l : list entry) :
  Forall (fun e => is_current (snd e) <> None) l ->
  exists choices session_map,
    build_choices time_str current_marker 1 l [] [] = Some (choices, session_map)
    /\ List.length choices = List.length l
    /\ (forall i e,
          nth_error l i = Some e ->
          exists label,
            label_of time_str current_marker (S i) (snd e) = Some label
            /\ nth_error choices i = Some (label, label))
    /\ (forall label v,
          Dict.get label session_map = Some v
          <-> exists i p,
              nth_error l i = Some (fst v, p, snd v)
              /\ label_of time_str current_marker (S i) (snd v) = Some label
              /\ forall j e,
                  i < j -> nth_error l j = Some e ->
                  label_of time_str current_marker (S j) (snd e) <> Some label).
Proof.
  induction l as [|e l IH] using rev_ind; intros Hall.
  - exists [], []. repeat split.
    + intros i e H. now destruct i.
    + discriminate.
    + intros [i [p [H _]]]. now destruct i.
  - apply Forall_app in Hall. destruct Hall as [Hl He].
    apply Forall_inv in He.
    destruct (IH Hl) as [choices [smap [Hb [Hlen [Hrows Hget]]]]].
    destruct (label_of_marked (S (List.length l)) (snd e) He) as [lab Hlab].
    exists (choices ++ [(lab, lab)])%list, (Dict.set lab (fst (fst e), snd e) smap).
    split; [|split; [|split]].
    + rewrite build_choices_snoc, Hb. cbn [Nat.add]. now rewrite Hlab.
    + rewrite !length_app. cbn [List.length]. lia.
    + intros i e' Hi.
      destruct (Nat.lt_ge_cases i (List.length l)) as [Hlt|Hge].
      * rewrite nth_error_app1 in Hi by assumption.
        destruct (Hrows _ _ Hi) as [label [H1 H2]]. exists label. split; [assumption|].
        rewrite nth_error_app1 by lia. assumption.
      * rewrite nth_error_app2 in Hi by assumption.
        destruct (i - List.length l) as [|k] eqn:Ek; [|now destruct k].
        cbn in Hi. injection Hi as <-.
        assert (i = List.length l) by lia. subst i.
        exists lab. split; [assumption|].
        rewrite nth_error_app2 by lia. rewrite Hlen, Nat.sub_diag. reflexivity.
    + intros label v. destruct (string_dec lab label) as [<-|Hne].
      * rewrite dict_get_set_same. split.
        -- intros [= <-]. exists (List.length l), (snd (fst e)). cbn [fst snd].
           split; [|split].
           ++ rewrite nth_error_app2 by lia. rewrite Nat.sub_diag.
              now destruct e as [[sid p] info].
           ++ assumption.
           ++ intros j e' Hj Hn. apply nth_error_lt in Hn.
              rewrite length_app in Hn. cbn [List.length] in Hn. lia.
        -- intros [i [p [Hi [Hl' Hlast]]]].
           destruct (Nat.lt_ge_cases i (List.length l)) as [Hlt|Hge].
           ++ exfalso. apply (Hlast (List.length l) e Hlt); [|assumption].
              rewrite nth_error_app2 by lia. now rewrite Nat.sub_diag.
           ++ rewrite nth_error_app2 in Hi by assumption.
              destruct (i - List.length l) as [|k] eqn:Ek; [|now destruct k].
              cbn in Hi. injection Hi as ->. cbn [fst snd]. now destruct v.
      * rewrite dict_get_set_other by assumption. rewrite Hget. split.
        -- intros [i [p [Hi [Hl' Hlast]]]].
           pose proof (nth_error_lt _ _ _ Hi) as Hlt.
           exists i, p. split; [|split].
           ++ now rewrite nth_error_app1.
           ++ assumption.
           ++ intros j e' Hj Hn.
              destruct (Nat.lt_ge_cases j (List.length l)) as [Hjl|Hjg].
              ** rewrite nth_error_app1 in Hn by assumption. eauto.
              ** rewrite nth_error_app2 in Hn by assumption.
                 destruct (j - List.length l) as [|k] eqn:Ek; [|now destruct k].
                 cbn in Hn. injection Hn as <-.
                 assert (j = List.length l) by lia. subst j. congruence.
        -- intros [i [p [Hi [Hl' Hlast]]]].
           destruct (Nat.lt_ge_cases i (List.length l)) as [Hlt|Hge].
           ++ exists i, p. rewrite nth_error_app1 in Hi by assumption.
              split; [assumption|split; [assumption|]].
              intros j e' Hj Hn. apply (Hlast j e' Hj).
              pose proof (nth_error_lt _ _ _ Hn).
              now rewrite nth_error_app1.
           ++ exfalso. rewrite nth_error_app2 in Hi by assumption.
              destruct (i - List.length l) as [|k] eqn:Ek; [|now destruct k].
              cbn in Hi. injection Hi as ->. cbn [snd] in Hlab.
              assert (i = List.length l) by lia. subst i. congruence.
Qed.

End ChooserFacts.

(** ** The handler of [/session] *)

Section HandlerFacts.

Variable host : Host.

Lemma load_metadata_after_mkdir (wdm : WorkDirMeta) (fs : FS) :
  load_metadata host (Fs.mkdir_p (sessions_dir_path host wdm) fs) = load_metadata host fs.
Proof.
  assert (He : Fs.exists_ (Fs.mkdir_p (sessions_dir_path host wdm) fs) (get_metadata_file host)
               = Fs.exists_ fs (get_metadata_file host)).
  { unfold Fs.exists_, Fs.read, Fs.is_dir. cbn [files dirs Fs.mkdir_p].
    destruct (Fs.lookup (get_metadata_file host) (files fs)); [reflexivity|].
    apply eq_true_iff_eq. rewrite !existsb_path. split; [|apply mkdir_fold_keeps].
    intros H. apply mkdir_fold_in in H. destruct H as [H|[k H]]; [assumption|].
    exfalso. unfold get_metadata_file, sessions_dir_path, Pathlib.joinpath in H.
    rewrite <- app_assoc in H. cbn [app] in H. rewrite firstn_app in H.
    destruct (Nat.lt_ge_cases k (List.length (share_dir host))) as [Hlt|Hge].
    - apply (f_equal (@List.length string)) in H.
      rewrite !length_app, !length_firstn in H. cbn [List.length] in H.
      replace (k - List.length (share_dir host)) with 0 in H by lia.
      cbn in H. lia.
    - rewrite firstn_all2 in H by assumption. apply app_inv_head in H.
      destruct (k - List.length (share_dir host)) as [|[|[|n]]]; discriminate H. }
  unfold load_metadata. now rewrite He.
Qed.

Lemma list_sessions_state (work_dir : Path) (fs : FS) (l : list entry) (fs1 : FS) :
  list_sessions host work_dir fs = (Ok l, fs1) ->
  exists m,
    load_metadata host fs = Ok m
    /\ (find_work_dir m work_dir = None /\ l = [] /\ fs1 = fs
        \/ exists wdm,
            find_work_dir m work_dir = Some wdm
            /\ fs1 = Fs.mkdir_p (sessions_dir_path host wdm) fs
            /\ l = sort_desc (map (entry_of host wdm) (live_files host wdm fs))).
Proof.
  unfold list_sessions. destruct (load_metadata host fs) as [m|e]; [|discriminate].
  intros H. exists m. split; [reflexivity|].
  destruct (find_work_dir m work_dir) as [wdm|].
  - cbn [sessions_dir] in H. injection H as <- <-. right. exists wdm.
    unfold live_files. now rewrite collect_sessions_map.
  - injection H as <- <-. now left.
Qed.

Lemma list_sessions_raise_state (work_dir : Path) (fs : FS) (e : exn) (fs1 : FS) :
  list_sessions host work_dir fs = (Raise e, fs1) -> fs1 = fs.
Proof.
  unfold list_sessions. destruct (load_metadata host fs) as [m|e'].
  - destruct (find_work_dir m work_dir); cbn [sessions_dir]; discriminate.
  - now intros [= _ <-].
Qed.

Lemma listing_marked (wdm : WorkDirMeta) (globbed : list (Path * File)) :
  Forall (fun e : entry => is_current (snd e) <> None)
    (sort_desc (map (entry_of host wdm) globbed)).
Proof.
  apply Forall_forall. intros e He. apply sort_desc_in, in_map_iff in He.
  destruct He as [g [<- _]]. discriminate.
Qed.

Lemma load_session_after_listing (work_dir : Path) (sid : string) (fs : FS) (m : Metadata)
  (wdm : WorkDirMeta) :
  load_metadata host fs = Ok m ->
  find_work_dir m work_dir = Some wdm ->
  load_session host work_dir sid (Fs.mkdir_p (sessions_dir_path host wdm) fs)
  = if Fs.exists_ fs (history_file_of host wdm sid)
    then (Ok (Some {| id := sid; work_dir := work_dir;
                      history_file := history_file_of host wdm sid |}),
          save_metadata host
            {| work_dirs := set_last_session (work_dirs m) (Pathlib.str work_dir) sid |}
            (Fs.mkdir_p (sessions_dir_path host wdm) fs))
    else (Ok None, Fs.mkdir_p (sessions_dir_path host wdm) fs).
Proof.
  intros Hm Hf.
  assert (Hm' : load_metadata host (Fs.mkdir_p (sessions_dir_path host wdm) fs) = Ok m)
    by now rewrite load_metadata_after_mkdir.
  assert (He : Fs.exists_ (Fs.mkdir_p (sessions_dir_path host wdm) fs)
                 (history_file_of host wdm sid)
               = Fs.exists_ fs (history_file_of host wdm sid))
    by apply mkdir_p_exists_below.
  destruct (Fs.exists_ fs (history_file_of host wdm sid)) eqn:E.
  - rewrite (load_session_found host _ _ _ _ _ Hm' Hf He). now rewrite mkdir_p_idempotent.
  - rewrite (load_session_missing host _ _ _ _ _ Hm' Hf He). now rewrite mkdir_p_idempotent.
Qed.

Variable Context : Type.
Variable Runtime : Type.
Variable Message : Type.
Variable work_dir_of : Runtime -> Path.
Variable replace_session : Runtime -> Session -> Runtime.
Variable restore : FS -> Path -> bool * Context.
Variable history : Context -> list Message.
Variable role : Message -> string.
Variable message_extract_text : Message -> string.
Variable username : string.
Variable time_str : nat -> Z -> string.
Variable current_marker : string.

Lemma render_history_no_message (h : list Message) (m : session_message) :
  ~ In (Printed m) (_render_history Message role message_extract_text username h).
Proof.
  unfold _render_history. intros Hin. apply in_flat_map in Hin.
  destruct Hin as [msg [_ Hin]].
  destruct (render_message_cases Message role message_extract_text username msg)
    as [[Hr _]|[[Hr _]|Hr]]; rewrite Hr in Hin.
  - destruct Hin as [H|[H|[]]]; discriminate H.
  - destruct Hin as [H|[H|[]]]; discriminate H.
  - destruct Hin.
Qed.

Ltac quiet_case :=
  left; cbn [s_app s_fs s_raised s_events Fs.mkdir_p files];
  repeat split; try reflexivity; try discriminate;
  (intros Hin; cbn [In] in Hin; intuition discriminate).

(** The outcomes of the handler, in two classes: those that load no
    session, and those that do. *)
Lemma session_cases (app : ShellApp Context Runtime) (args : list string) (fs : FS)
  (ans : answer) :
  let out :=
    session host Context Runtime Message work_dir_of replace_session restore history role
      message_extract_text username time_str current_marker app args fs ans in
  (s_app out = app
   /\ files (s_fs out) = files fs
   /\ s_raised out <> Some KeyError
   /\ ~ In (Printed SessionIsEmpty) (s_events out)
   /\ ~ In (Printed SessionSwitched) (s_events out))
  \/ exists ks m wdm sid p info choices,
      soul app = IsKimiSoul ks
      /\ load_metadata host fs = Ok m
      /\ find_work_dir m (work_dir_of (_runtime ks)) = Some wdm
      /\ In (sid, p, info) (sessions_of (list_sessions host (work_dir_of (_runtime ks)) fs))
      /\ is_current info = Some false
      /\ Fs.exists_ fs (history_file_of host wdm sid) = true
      /\ s_raised out = None
      /\ s_fs out
         = save_metadata host
             {| work_dirs :=
                  set_last_session (work_dirs m)
                    (Pathlib.str (work_dir_of (_runtime ks))) sid |}
             (Fs.mkdir_p (sessions_dir_path host wdm) fs)
      /\ ((fst (restore (s_fs out) (history_file_of host wdm sid)) = false
           \/ history (snd (restore (s_fs out) (history_file_of host wdm sid))) = [])
          /\ s_app out = app
          /\ s_events out = [Prompted choices; Printed SessionIsEmpty]
          \/ fst (restore (s_fs out) (history_file_of host wdm sid)) = true
             /\ history (snd (restore (s_fs out) (history_file_of host wdm sid))) <> []
             /\ s_app out
                = {| soul :=
                       IsKimiSoul
                         {| _context :=
                              snd (restore (s_fs out) (history_file_of host wdm sid));
                            _runtime :=
                              replace_session (_runtime ks)
                                {| id := sid;
                                   work_dir := work_dir_of (_runtime ks);
                                   history_file := history_file_of host wdm sid |} |} |}
             /\ s_events out
                = (Prompted choices :: ClearedConsole
                   :: _render_history Message role message_extract_text username
                        (history (snd (restore (s_fs out) (history_file_of host wdm sid))))
                   ++ [Printed SessionSwitched; PrintedBlank])%list).
Proof.
  cbv zeta. unfold session.
  destruct (soul app) as [ks|] eqn:Hsoul; [|quiet_case].
  destruct (list_sessions host (work_dir_of (_runtime ks)) fs) as [[l|e] fs1] eqn:HL.
  2:{ apply list_sessions_raise_state in HL. subst fs1. quiet_case. }
  destruct (list_sessions_state _ _ _ _ HL) as [m [Hm [[Hf [-> ->]]|[wdm [Hf [-> Hl]]]]]];
    [quiet_case|].
  destruct l as [|e0 l0]; [quiet_case|].
  assert (Hmarked : Forall (fun e : entry => is_current (snd e) <> None) (e0 :: l0))
    by (rewrite Hl; apply listing_marked).
  destruct (build_choices_resolves time_str current_marker (e0 :: l0) Hmarked)
    as [choices [smap [Hb [_ [_ Hget]]]]].
  rewrite Hb.
  destruct ans as [[result|]|]; [|quiet_case|quiet_case].
  destruct (Dict.get result smap) as [[sid info]|] eqn:Hg; [|quiet_case].
  apply Hget in Hg. destruct Hg as [i [p [Hi _]]]. cbn [fst snd] in Hi.
  apply nth_error_In in Hi.
  pose proof (proj1 (Forall_forall _ _) Hmarked _ Hi) as Hcur. cbn [snd] in Hcur.
  destruct (is_current info) as [[|]|] eqn:Ecur; [quiet_case| |congruence].
  rewrite (load_session_after_listing _ _ _ _ _ Hm Hf).
  destruct (Fs.exists_ fs (history_file_of host wdm sid)) eqn:Eex; [|quiet_case].
  cbn [history_file].
  right. exists ks, m, wdm, sid, p, info, choices.
  split; [reflexivity|]. split; [assumption|]. split; [assumption|].
  split; [unfold sessions_of; rewrite HL; exact Hi|].
  split; [exact Ecur|]. split; [exact Eex|].
  destruct (restore _ (history_file_of host wdm sid)) as [restored ctx] eqn:Er.
  destruct restored; cbn [negb orb].
  - destruct (history ctx) as [|msg h] eqn:Eh.
    + cbn [s_raised s_fs s_app s_events]. rewrite Er. cbn [fst snd]. rewrite Eh.
      split; [reflexivity|]. split; [reflexivity|]. left. auto.
    + cbn [s_raised s_fs s_app s_events]. rewrite Er. cbn [fst snd]. rewrite Eh.
      split; [reflexivity|]. split; [reflexivity|]. right.
      repeat split; try reflexivity; discriminate.
  - cbn [s_raised s_fs s_app s_events]. rewrite Er. cbn [fst snd].
    split; [reflexivity|]. split; [reflexivity|]. left. auto.
Qed.

End HandlerFacts.

(** X17. Over a listing whose entries all carry the mark [is_current], the
    loop of [/session] raises nothing and offers one choice for an entry,
    in the order of the listing, the label standing for itself. A label
    then stands for the last entry that has it: when two entries get the
    same label, to choose either row is to choose the later session. *)
Theorem chooser_label_stands_for_last_entry
  (time_str : nat -> Z -> string) (current_marker : string) (l : list entry) :
  Forall (fun e => is_current (snd e) <> None) l ->
  exists choices session_map,
    build_choices time_str current_marker 1 l [] [] = Some (choices, session_map)
    /\ List.length choices = List.length l
    /\ (forall i e,
          nth_error l i = Some e ->
          exists label,
            label_of time_str current_marker (S i) (snd e) = Some label
            /\ nth_error choices i = Some (label, label))
    /\ (forall label v,
          Dict.get label session_map = Some v
          <-> exists i p,
              nth_error l i = Some (fst v, p, snd v)
              /\ label_of time_str current_marker (S i) (snd v) = Some label
              /\ forall j e,
                  i < j -> nth_error l j = Some e ->
                  label_of time_str current_marker (S j) (snd e) <> Some label).
Proof. apply build_choices_resolves. Qed.

(** Two sessions with no message, made in the same second. *)
Lemma chooser_label_stands_for_last_entry_witness :
  exists choices session_map,
    build_choices (fun _ _ => "just now") current_arrow 1
      [ ("a", ["a.jsonl"],
         {| timestamp := 7; num_messages := 0; num_checkpoints := 0;
            first_message := None; is_current := Some false |});
        ("b", ["b.jsonl"],
         {| timestamp := 7; num_messages := 0; num_checkpoints := 0;
            first_message := None; is_current := Some false |}) ] [] []
    = Some (choices, session_map)
    /\ List.length choices = 2.
Proof.
  destruct (chooser_label_stands_for_last_entry (fun _ _ => "just now") current_arrow
              [ ("a", ["a.jsonl"],
                 {| timestamp := 7; num_messages := 0; num_checkpoints := 0;
                    first_message := None; is_current := Some false |});
                ("b", ["b.jsonl"],
                 {| timestamp := 7; num_messages := 0; num_checkpoints := 0;
                    first_message := None; is_current := Some false |}) ])
    as [choices [session_map [H1 [H2 _]]]].
  - repeat constructor; discriminate.
  - exists choices, session_map. split; assumption.
Defined.


(** X19. When [/session] prints that the session was switched, the
    application runs a chosen session of the listing that was not the
    current one: its context is the restored one, whose history is not
    empty, its runtime holds the loaded session, and the registry document
    records that session as the last of the working directory. The console
    was cleared and the restored history shown before the confirmation. *)
Theorem session_switched
  (host : Host) (Context Runtime Message : Type)
  (work_dir_of : Runtime -> Path) (replace_session : Runtime -> Session -> Runtime)
  (restore : FS -> Path -> bool * Context) (history : Context -> list Message)
  (role message_extract_text : Message -> string) (username : string)
  (time_str : nat -> Z -> string) (current_marker : string)
  (app : ShellApp Context Runtime) (args : list string) (fs : FS) (ans : answer) :
  In (Printed SessionSwitched)
    (s_events
       (session host Context Runtime Message work_dir_of replace_session restore history
          role message_extract_text username time_str current_marker app args fs ans)) ->
  exists ks m wdm sid p info choices new_context,
    soul app = IsKimiSoul ks
    /\ load_metadata host fs = Ok m
    /\ find_work_dir m (work_dir_of (_runtime ks)) = Some wdm
    /\ In (sid, p, info) (sessions_of (list_sessions host (work_dir_of (_runtime ks)) fs))
    /\ is_current info = Some false
    /\ session host Context Runtime Message work_dir_of replace_session restore history
         role message_extract_text username time_str current_marker app args fs ans
       = {| s_raised := None;
            s_app :=
              {| soul :=
                   IsKimiSoul
                     {| _context := new_context;
                        _runtime :=
                          replace_session (_runtime ks)
                            {| id := sid;
                               work_dir := work_dir_of (_runtime ks);
                               history_file := history_file_of host wdm sid |} |} |};
            s_fs :=
              save_metadata host
                {| work_dirs :=
                     set_last_session (work_dirs m)
                       (Pathlib.str (work_dir_of (_runtime ks))) sid |}
                (Fs.mkdir_p (sessions_dir_path host wdm) fs);
            s_events :=
              (Prompted choices :: ClearedConsole
               :: _render_history Message role message_extract_text username
                    (history new_context)
               ++ [Printed SessionSwitched; PrintedBlank])%list |}
    /\ restore
         (save_metadata host
            {| work_dirs :=
                 set_last_session (work_dirs m)
                   (Pathlib.str (work_dir_of (_runtime ks))) sid |}
            (Fs.mkdir_p (sessions_dir_path host wdm) fs))
         (history_file_of host wdm sid)
       = (true, new_context)
    /\ history new_context <> [].
Proof.
  intros Hsw.
  destruct (session_cases host Context Runtime Message work_dir_of replace_session restore
              history role message_extract_text username time_str current_marker
              app args fs ans)
    as [(_ & _ & _ & _ & Hs)
       |(ks & m & wdm & sid & p & info & choices
         & Hsoul & Hm & Hf & Hin & Hcur & Hex & Hraise & Hfs & Hrest)];
    [contradiction|].
  destruct Hrest as [[_ [_ Hev]]|[Hr [Hh [Happ Hev]]]].
  - rewrite Hev in Hsw. destruct Hsw as [H|[H|[]]]; discriminate H.
  - exists ks, m, wdm, sid, p, info, choices.
    exists (snd (restore
                   (s_fs (session host Context Runtime Message work_dir_of replace_session
                            restore history role message_extract_text username time_str
                            current_marker app args fs ans))
                   (history_file_of host wdm sid))).
    repeat (split; [assumption|]).
    split; [|split; [|assumption]].
    + destruct (session host Context Runtime Message work_dir_of replace_session
                  restore history role message_extract_text username time_str
                  current_marker app args fs ans) as [r a f ev].
      cbn [s_raised s_app s_fs s_events] in *. now subst.
    + rewrite <- Hfs, <- Hr. apply surjective_pairing.
Qed.

(** In the example the first row is the damaged session, which is not the
    current one; its history is restored with one message. *)
Lemma session_switched_witness :
  exists sid p info,
    In (sid, p, info) (sessions_of (list_sessions example_host example_work_dir example_fs))
    /\ is_current info = Some false.
Proof.
  destruct (session_switched example_host (list (string * string)) (option Session)
              (string * string) (fun _ => example_work_dir) (fun _ s => Some s)
              (fun _ _ => (true, [("user", "hi")])) (fun c => c) fst snd "u"
              (fun _ _ => "just now") current_arrow example_app [] example_fs example_first_row)
    as (ks & m & wdm & sid & p & info & choices & ctx & _ & _ & _ & Hin & Hcur & _).
  - vm_compute. repeat (first [left; reflexivity | right]).
  - exists sid, p, info. split; [exact Hin|exact Hcur].
Defined.

(** X20. When [/session] prints that the session is empty, the application
    is as it was, still in its former session, yet the registry document
    already records the chosen session, which was not the current one, as
    the last session of the working directory. *)
Theorem empty_session_is_recorded
  (host : Host) (Context Runtime Message : Type)
  (work_dir_of : Runtime -> Path) (replace_session : Runtime -> Session -> Runtime)
  (restore : FS -> Path -> bool * Context) (history : Context -> list Message)
  (role message_extract_text : Message -> string) (username : string)
  (time_str : nat -> Z -> string) (current_marker : string)
  (app : ShellApp Context Runtime) (args : list string) (fs : FS) (ans : answer) :
  In (Printed SessionIsEmpty)
    (s_events
       (session host Context Runtime Message work_dir_of replace_session restore history
          role message_extract_text username time_str current_marker app args fs ans)) ->
  s_app
    (session host Context Runtime Message work_dir_of replace_session restore history
       role message_extract_text username time_str current_marker app args fs ans)
  = app
  /\ exists ks m wdm sid p info m',
      soul app = IsKimiSoul ks
      /\ load_metadata host fs = Ok m
      /\ find_work_dir m (work_dir_of (_runtime ks)) = Some wdm
      /\ In (sid, p, info)
           (sessions_of (list_sessions host (work_dir_of (_runtime ks)) fs))
      /\ is_last_session wdm sid = false
      /\ load_metadata host
           (s_fs
              (session host Context Runtime Message work_dir_of replace_session restore
                 history role message_extract_text username time_str current_marker
                 app args fs ans))
         = Ok m'
      /\ find_work_dir m' (work_dir_of (_runtime ks))
         = Some {| path := path wdm; last_session_id := Some sid |}.
Proof.
  intros Hem.
  destruct (session_cases host Context Runtime Message work_dir_of replace_session restore
              history role message_extract_text username time_str current_marker
              app args fs ans)
    as [(_ & _ & _ & He & _)
       |(ks & m & wdm & sid & p & info & choices
         & Hsoul & Hm & Hf & Hin & Hcur & Hex & Hraise & Hfs & Hrest)];
    [contradiction|].
  destruct Hrest as [[_ [Happ _]]|[_ [_ [_ Hev]]]].
  - split; [assumption|].
    exists ks, m, wdm, sid, p, info.
    exists {| work_dirs :=
                set_last_session (work_dirs m)
                  (Pathlib.str (work_dir_of (_runtime ks))) sid |}.
    repeat (split; [assumption|]).
    split; [|split].
    + destruct (entry_of_in_listing host _ _ _ _ _ Hm Hf Hin) as [g [_ Hg]].
      unfold entry_of in Hg. injection Hg as -> _ ->. cbn [is_current set_is_current] in Hcur.
      congruence.
    + rewrite Hfs. apply load_save_metadata.
    + now apply find_set_last_session.
  - exfalso. rewrite Hev in Hem. destruct Hem as [H|[H|Hem]]; try discriminate H.
    apply in_app_or in Hem. destruct Hem as [Hem|[H|[H|[]]]]; try discriminate H.
    now apply render_history_no_message in Hem.
Qed.

(** In the example, a chosen session whose history cannot be restored. *)
Lemma empty_session_is_recorded_witness :
  s_app (example_session (fun _ _ => (false, [])) example_first_row) = example_app.
Proof.
  refine (proj1 (empty_session_is_recorded example_host (list (string * string))
                   (option Session) (string * string) (fun _ => example_work_dir)
                   (fun _ s => Some s) (fun _ _ => (false, [])) (fun c => c) fst snd "u"
                   (fun _ _ => "just now") current_arrow example_app [] example_fs
                   example_first_row _)).
  vm_compute. repeat (first [left; reflexivity | right]).
Defined.
